(** * go-apt-mirror: the cache handlers of [internal/handlers/handlers.go]

    A shallow embedding of the request handlers of the APT caching proxy:
    the path classifiers, the content-type table, the single-flight
    registry ([acquireLock] / [releaseLock]), the cache-hit and cache-miss
    handlers and the two HTTP entry points.

    Strings are Go strings (byte sequences), bodies are [list byte], HTTP
    header maps are finite maps from the header name to the list of its
    values, instants are integers.  The blob cache, the header cache and
    the origin are the collaborators of the handlers: the two caches are
    finite maps keyed by the request path, the origin is a function from
    the request sent to the answer received. *)

From Stdlib Require Import ZArith String Ascii List Bool Lia.
From Stdlib Require Import Strings.Byte.
From stdpp Require Import gmap strings list fin_maps pretty.

Open Scope Z_scope.
Open Scope string_scope.

(** ** Go strings *)

Module GoStrings.

(** [strings.HasPrefix s p] *)
Fixpoint HasPrefix (s p : string) : bool :=
  match p, s with
  | EmptyString, _ => true
  | String c p', String d s' => if Ascii.eqb c d then HasPrefix s' p' else false
  | String _ _, EmptyString => false
  end.

(** [strings.Contains s substr] *)
Fixpoint Contains (s substr : string) : bool :=
  if HasPrefix s substr then true
  else match s with
       | EmptyString => false
       | String _ s' => Contains s' substr
       end.

(** [strings.HasSuffix s suffix] *)
Fixpoint HasSuffix (s suffix : string) : bool :=
  if String.eqb s suffix then true
  else match s with
       | EmptyString => false
       | String _ s' => HasSuffix s' suffix
       end.

(** The two loops of [strings.ToLower].  The first looks for a byte that
    is [utf8.RuneSelf] (0x80) or more; the second, taken when there is
    none, maps the letters A..Z to a..z and keeps every other byte. *)
Fixpoint isASCII (s : string) : bool :=
  match s with
  | EmptyString => true
  | String c s' => if Nat.ltb (nat_of_ascii c) 128 then isASCII s' else false
  end.

Definition lowerAscii (c : ascii) : ascii :=
  let n := nat_of_ascii c in
  if (Nat.leb 65 n && Nat.leb n 90)%bool then ascii_of_nat (n + 32) else c.

Fixpoint toLowerASCII (s : string) : string :=
  match s with
  | EmptyString => EmptyString
  | String c s' => String (lowerAscii c) (toLowerASCII s')
  end.

(** [filepath.Ext path]: the suffix that starts at the last dot of the last
    element of [path], empty when that element has no dot.  The source
    scans from the end and stops at the first separator; scanning from the
    front, a separator forgets the dot seen so far. *)
Fixpoint extFrom (s : string) (acc : option string) : string :=
  match s with
  | EmptyString => match acc with Some e => e | None => EmptyString end
  | String c s' =>
      if Ascii.eqb c "/" then extFrom s' None
      else if Ascii.eqb c "." then extFrom s' (Some s)
      else extFrom s' acc
  end.

Definition Ext (path : string) : string := extFrom path None.

(** The text after the last slash of a path. *)
Fixpoint baseFrom (s acc : string) : string :=
  match s with
  | EmptyString => acc
  | String c s' => if Ascii.eqb c "/" then baseFrom s' s' else baseFrom s' acc
  end.

Definition basename (path : string) : string := baseFrom path path.

(** [s] has [substr] as a contiguous block. *)
Definition Substring (substr s : string) : Prop :=
  exists pre suf : string, s = pre ++ substr ++ suf.

End GoStrings.

Import GoStrings.

(** ** Path classifier *)

Definition frequentlyChangingPatterns : list string :=
  [ "Release"; "Release.gpg"; "InRelease";
    "Packages"; "Packages.gz"; "Packages.xz";
    "Sources"; "Sources.gz"; "Sources.xz";
    "Contents-"; "Index" ].

(** [for _, pattern := range patterns { if strings.Contains(path, pattern)
    { return true } }], the loop shared by the two classifiers; [false]
    means the loop fell through. *)
Fixpoint matchesAny (path : string) (patterns : list string) : bool :=
  match patterns with
  | [] => false
  | pattern :: rest =>
      if Contains path pattern then true else matchesAny path rest
  end.

Definition shouldUseIfModifiedSince (path : string) : bool :=
  if Contains path "/dists/" then true
  else if Contains path "/pool/" then false
  else if matchesAny path frequentlyChangingPatterns then true
  else false.

Definition criticalPatterns : list string :=
  [ "Release"; "Release.gpg"; "InRelease" ].

Definition changingPatterns : list string :=
  [ "Packages"; "Sources"; "Contents" ].

Definition shouldValidateWithOrigin (path : string) : bool :=
  if matchesAny path criticalPatterns then true
  else if (Contains path "/dists/" && matchesAny path changingPatterns)%bool then true
  else if Contains path "/pool/" then false
  else false.

(** The rule for [use_conditional] as the specification words it: the
    third rule looks at the basename of the path only. *)
Definition spec_use_conditional (path : string) : bool :=
  if Contains path "/dists/" then true
  else if Contains path "/pool/" then false
  else existsb (Contains (basename path)) frequentlyChangingPatterns.

(** ** Data model *)

(** An instant ([time.Time]); [After t u] is [t.After(u)]. *)
Definition Time := Z.

Definition After (t u : Time) : bool := (u <? t)%Z.

(** [http.Header]: header name to the list of its values.  The names the
    handlers use are already in canonical form, so the canonicalisation of
    [Get], [Set] and [Add] is the identity on them. *)
Module Hdr.

Definition Get (h : gmap string (list string)) (key : string) : string :=
  match h !! key with
  | Some (v :: _) => v
  | _ => ""
  end.

Definition Set_ (key value : string) (h : gmap string (list string))
  : gmap string (list string) :=
  <[key := [value]]> h.

Definition Add (key value : string) (h : gmap string (list string))
  : gmap string (list string) :=
  <[key := (default [] (h !! key) ++ [value])%list]> h.

Definition Del (key : string) (h : gmap string (list string))
  : gmap string (list string) :=
  delete key h.

(** [for key, values := range src { for _, value := range values {
    dst.Add(key, value) } }] *)
Definition AddAll (src dst : gmap string (list string))
  : gmap string (list string) :=
  map_fold (fun key values acc => foldl (fun a value => Add key value a) acc values)
           dst src.

End Hdr.

(** The functions of the Go standard library whose results the handlers
    branch on: [time.Parse(http.TimeFormat, s)], [t.Format(http.TimeFormat)],
    whether [http.NewRequest(method, url, nil)] succeeds, and
    [strings.Map(unicode.ToLower, s)], the lowering of a string that has a
    byte outside ASCII. *)
Class Platform := {
  parseHTTPTime : string -> option Time;
  formatHTTPTime : Time -> string;
  newRequestOk : string -> string -> bool;
  mapToLower : string -> string
}.

(** [strings.ToLower]: a string of ASCII bytes is lowered byte by byte (it
    is returned as it is when it has no capital); any other string goes
    through [unicode.ToLower], rune by rune. *)
Definition ToLower `{Platform} (s : string) : string :=
  if isASCII s then toLowerASCII s else mapToLower s.

(** ** Content-type table *)

Definition getContentType `{Platform} (path : string) : string :=
  let ext := ToLower (Ext path) in
  if String.eqb ext ".gz" || String.eqb ext ".gzip" then "application/gzip"
  else if String.eqb ext ".bz2" then "application/x-bzip2"
  else if String.eqb ext ".xz" then "application/x-xz"
  else if String.eqb ext ".deb" then "application/vnd.debian.binary-package"
  else if String.eqb ext ".asc" then "application/pgp-signature"
  else if String.eqb ext ".json" then "application/json"
  else if String.eqb ext ".txt" then "text/plain"
  else if String.eqb ext ".html" || String.eqb ext ".htm" then "text/html"
  else if String.eqb ext ".xml" then "application/xml"
  else if String.eqb ext ".gpg" then "application/pgp-encrypted"
  else "application/octet-stream".

(** The inbound request: [r.Method], [r.URL.Path], [r.URL.RawQuery],
    [r.Header]. *)
Record Request := {
  Method : string;
  URLPath : string;
  RawQuery : string;
  ReqHeader : gmap string (list string)
}.

(** [ServerConfig]; the two caches and the client are the collaborators
    below. *)
Record ServerConfig := {
  OriginServer : string;
  LogRequests : bool
}.

(** A request sent to the origin. *)
Record OriginRequest := {
  oMethod : string;
  oURL : string;
  oHeader : gmap string (list string)
}.

(** The origin's answer ([*http.Response]): [bodyErr] says that reading the
    body fails after the bytes of [Body]. *)
Record OriginResponse := {
  StatusCode : Z;
  RespHeader : gmap string (list string);
  ContentLength : Z;
  Body : list byte;
  bodyErr : bool
}.

(** What the blob cache holds under a path: the three values handed to
    [Cache.Put] and returned by [Cache.Get]. *)
Record Blob := {
  blob_body : list byte;
  blob_length : Z;
  blob_lastModified : Time
}.

(** State shared by all requests: the two caches and the single-flight
    registry [requestLock.inProgress] (the paths that have a ticket). *)
Record Shared := {
  blobs : gmap string Blob;
  headerStore : gmap string (gmap string (list string));
  inProgress : gset string
}.

(** The surroundings of one request: what the origin answers
    ([None] is a transport error), the clock, whether the cache writes
    fail, and what the other requests do to the shared state while this
    one is blocked on a ticket. *)
Record Env := {
  originDo : OriginRequest -> option OriginResponse;
  now : Time;
  cachePutFails : bool;
  headerPutFails : bool;
  othersRun : Shared -> Shared
}.

(** [http.ResponseWriter] as [net/http] implements it: [rw_header] is the
    map returned by [w.Header()]; the first [WriteHeader] fixes the status
    and the headers sent ([rw_sent]); [rw_body] are the body bytes
    accepted for the wire. *)
Record ResponseWriter := {
  rw_header : gmap string (list string);
  rw_wroteHeader : bool;
  rw_status : Z;
  rw_sent : gmap string (list string);
  rw_body : list byte;
  rw_isHead : bool
}.

Definition newResponseWriter (r : Request) : ResponseWriter :=
  {| rw_header := ∅; rw_wroteHeader := false; rw_status := 0;
     rw_sent := ∅; rw_body := []; rw_isHead := String.eqb (Method r) "HEAD" |}.

(** What a handler does, in order. *)
Inductive Event :=
| ECacheGet (path : string)
| ECachePut (path : string) (body : list byte) (len : Z) (lastModified : Time)
| EHeaderGet (path : string)
| EHeaderPut (path : string) (h : gmap string (list string))
| EOrigin (req : OriginRequest)
| ELog (msg : string)
| EWriteHeader (code : Z)
| EWrite (data : list byte)
| EAcquire (path : string) (acquired : bool)
| EWait (path : string)
| ERelease (path : string).

(** The state one request runs on; [defers] is the stack of the
    [defer releaseLock(path)] calls of the running function. *)
Record HState := {
  shared : Shared;
  rw : ResponseWriter;
  defers : list string;
  trace : list Event
}.

(** ** The handler monad: state, plus a run-time panic *)

Inductive Res (A : Type) :=
| Val (a : A)
| Panic.
Arguments Val {A} a.
Arguments Panic {A}.

Definition M (A : Type) : Type := HState -> Res A * HState.

#[global] Instance M_ret : MRet M := fun A a s => (Val a, s).

#[global] Instance M_bind : MBind M := fun A B f m s =>
  match m s with
  | (Val a, s') => f a s'
  | (Panic, s') => (Panic, s')
  end.

Definition panic {A} : M A := fun s => (Panic, s).

Definition get_shared : M Shared := fun s => (Val (shared s), s).

Definition put_shared (sh : Shared) : M unit := fun s =>
  (Val tt, {| shared := sh; rw := rw s; defers := defers s; trace := trace s |}).

Definition get_rw : M ResponseWriter := fun s => (Val (rw s), s).

Definition put_rw (w : ResponseWriter) : M unit := fun s =>
  (Val tt, {| shared := shared s; rw := w; defers := defers s; trace := trace s |}).

Definition emit (e : Event) : M unit := fun s =>
  (Val tt, {| shared := shared s; rw := rw s; defers := defers s;
              trace := (trace s ++ [e])%list |}).

Definition log (msg : string) : M unit := emit (ELog msg).

Definition when (b : bool) (m : M unit) : M unit := if b then m else mret tt.

(** ** The response writer *)

(** [bodyAllowedForStatus] of [net/http]. *)
Definition bodyAllowedForStatus (status : Z) : bool :=
  if ((100 <=? status)%Z && (status <=? 199)%Z)%bool then false
  else if (status =? 204)%Z then false
  else if (status =? 304)%Z then false
  else true.

Definition rwWriteHeader (code : Z) (w : ResponseWriter) : ResponseWriter :=
  if rw_wroteHeader w then w
  else {| rw_header := rw_header w; rw_wroteHeader := true; rw_status := code;
          rw_sent := rw_header w; rw_body := rw_body w; rw_isHead := rw_isHead w |}.

Definition rwAppend (data : list byte) (w : ResponseWriter) : ResponseWriter :=
  {| rw_header := rw_header w; rw_wroteHeader := rw_wroteHeader w;
     rw_status := rw_status w; rw_sent := rw_sent w;
     rw_body := (rw_body w ++ data)%list; rw_isHead := rw_isHead w |}.

Definition rwSetHeader (h : gmap string (list string)) (w : ResponseWriter)
  : ResponseWriter :=
  {| rw_header := h; rw_wroteHeader := rw_wroteHeader w;
     rw_status := rw_status w; rw_sent := rw_sent w;
     rw_body := rw_body w; rw_isHead := rw_isHead w |}.

(** [w.WriteHeader(code)] *)
Definition WriteHeader (code : Z) : M unit :=
  emit (EWriteHeader code);;
  w ← get_rw;
  put_rw (rwWriteHeader code w).

(** [w.Write(data)]; the result is [false] when [net/http] refuses the
    bytes ([http.ErrBodyNotAllowed]).  A first write sends the header with
    status 200; the bytes of an answer to a HEAD request are dropped.
    The writer's count of the bytes against a [Content-Length] of the
    header map ([http.ErrContentLength]) is not part of this model: it
    stands for the writer wherever the handler declares no length, or one
    that is not below the bytes it writes. *)
Definition Write (data : list byte) : M bool :=
  emit (EWrite data);;
  w ← get_rw;
  let w1 := rwWriteHeader 200 w in
  match data with
  | [] => put_rw w1;; mret true
  | _ :: _ =>
      if negb (bodyAllowedForStatus (rw_status w1)) then put_rw w1;; mret false
      else if rw_isHead w1 then put_rw w1;; mret true
      else put_rw (rwAppend data w1);; mret true
  end.

(** [io.Copy(w, src)]: reading from a nil reader is a nil dereference; an
    empty reader leads to no [Write]; otherwise the bytes are written, and
    the result is [false] when the write fails. *)
Definition ioCopy (src : option (list byte)) : M bool :=
  match src with
  | None => panic
  | Some [] => mret true
  | Some data => Write data
  end.

(** [w.Header().Set(key, value)], [.Del(key)] and the copy loop. *)
Definition setHeader (key value : string) : M unit :=
  w ← get_rw; put_rw (rwSetHeader (Hdr.Set_ key value (rw_header w)) w).

Definition delHeader (key : string) : M unit :=
  w ← get_rw; put_rw (rwSetHeader (Hdr.Del key (rw_header w)) w).

Definition addHeaders (src : gmap string (list string)) : M unit :=
  w ← get_rw; put_rw (rwSetHeader (Hdr.AddAll src (rw_header w)) w).

Definition newline : string := String (ascii_of_nat 10) EmptyString.

(** [http.Error(w, msg, code)] *)
Definition httpError (msg : string) (code : Z) : M unit :=
  delHeader "Content-Length";;
  setHeader "Content-Type" "text/plain; charset=utf-8";;
  setHeader "X-Content-Type-Options" "nosniff";;
  WriteHeader code;;
  _ ← Write (list_byte_of_string (msg ++ newline));
  mret tt.

(** ** The collaborators: blob cache, header cache, origin client *)

Definition setBlobs (b : gmap string Blob) (sh : Shared) : Shared :=
  {| blobs := b; headerStore := headerStore sh; inProgress := inProgress sh |}.

Definition setHeaderStore (h : gmap string (gmap string (list string)))
  (sh : Shared) : Shared :=
  {| blobs := blobs sh; headerStore := h; inProgress := inProgress sh |}.

Definition setInProgress (t : gset string) (sh : Shared) : Shared :=
  {| blobs := blobs sh; headerStore := headerStore sh; inProgress := t |}.

(** Modelled from the spec: the blob store ([storage.Cache], whose code is
    not among the sources at hand).  [get(path)] returns the stored body,
    its length and its timestamp, or a miss. *)
Definition Cache_Get (path : string) : M (option Blob) :=
  emit (ECacheGet path);;
  sh ← get_shared;
  mret (blobs sh !! path).

(** Modelled from the spec: [put(path, body, length, last_modified)] of the
    blob store, which stores the three values it is given or fails and
    stores nothing. *)
Definition Cache_Put (env : Env) (path : string) (body : list byte)
  (len : Z) (lastModified : Time) : M bool :=
  emit (ECachePut path body len lastModified);;
  if cachePutFails env then mret false
  else
    sh ← get_shared;
    put_shared (setBlobs (<[path := {| blob_body := body; blob_length := len;
                                        blob_lastModified := lastModified |}]>
                            (blobs sh)) sh);;
    mret true.

(** Modelled from the spec: the header store ([storage.HeaderCache], not
    among the sources either).  [get(path)] gives the stored headers or a
    miss. *)
Definition HeaderCache_GetHeaders (path : string)
  : M (option (gmap string (list string))) :=
  emit (EHeaderGet path);;
  sh ← get_shared;
  mret (headerStore sh !! path).

(** Modelled from the spec: [put(path, headers)] of the header store, which
    stores the headers or fails and stores nothing. *)
Definition HeaderCache_PutHeaders (env : Env) (path : string)
  (h : gmap string (list string)) : M bool :=
  emit (EHeaderPut path h);;
  if headerPutFails env then mret false
  else
    sh ← get_shared;
    put_shared (setHeaderStore (<[path := h]> (headerStore sh)) sh);;
    mret true.

(** [client.Do(req)] *)
Definition clientDo (env : Env) (req : OriginRequest) : M (option OriginResponse) :=
  emit (EOrigin req);;
  mret (originDo env req).

(** ** Single-flight registry, as one request sees it *)

(** [acquireLock(path)]: the look-up under the read lock, then the
    re-check and the insertion under the write lock.  The result is the
    first component of the source's pair; the channel is the ticket now
    registered for [path]. *)
Definition acquireLock (path : string) : M bool :=
  sh ← get_shared;
  if decide (path ∈ inProgress sh) then emit (EAcquire path false);; mret false
  else
    sh' ← get_shared;
    if decide (path ∈ inProgress sh') then emit (EAcquire path false);; mret false
    else
      put_shared (setInProgress ({[path]} ∪ inProgress sh') sh');;
      emit (EAcquire path true);;
      mret true.

(** [releaseLock(path)] *)
Definition releaseLock (path : string) : M unit :=
  sh ← get_shared;
  if decide (path ∈ inProgress sh)
  then put_shared (setInProgress (inProgress sh ∖ {[path]}) sh);;
       emit (ERelease path)
  else mret tt.

(** [<-ch]: the request is blocked until the ticket is closed; meanwhile
    the other requests change the shared state. *)
Definition waitOn (env : Env) (path : string) : M unit :=
  emit (EWait path);;
  sh ← get_shared;
  put_shared (othersRun env sh).

(** [defer releaseLock(path)] *)
Definition deferRelease (path : string) : M unit := fun s =>
  (Val tt, {| shared := shared s; rw := rw s; defers := path :: defers s;
              trace := trace s |}).

Fixpoint runDefers (ds : list string) (s : HState) : HState :=
  match ds with
  | [] => s
  | path :: rest => runDefers rest (snd (releaseLock path s))
  end.

(** A function call: the deferred calls of the callee run when it returns
    or panics, last one first. *)
Definition call {A} (body : M A) : M A := fun s =>
  let outer := defers s in
  let '(r, s1) := body {| shared := shared s; rw := rw s; defers := [];
                          trace := trace s |} in
  let s2 := runDefers (defers s1) s1 in
  (r, {| shared := shared s2; rw := rw s2; defers := outer; trace := trace s2 |}).

(** ** The handlers *)

Definition userAgent : string := "Go-APT-Cache/1.0".

Definition nonEmpty (s : string) : bool := negb (String.eqb s "").

Section Handlers.

Context `{Platform}.

(** [validateRequest] *)
Definition validateRequest (r : Request) : M bool :=
  if (negb (String.eqb (Method r) "GET") && negb (String.eqb (Method r) "HEAD"))%bool
  then httpError "Method not allowed" 405;; mret false
  else if nonEmpty (RawQuery r)
  then httpError "Forbidden" 403;; mret false
  else mret true.

(** The time the origin gave in [Last-Modified], or the clock. *)
Definition lastModifiedOf (env : Env) (h : gmap string (list string)) : Time :=
  let lastModifiedHeader := Hdr.Get h "Last-Modified" in
  if nonEmpty lastModifiedHeader then
    match parseHTTPTime lastModifiedHeader with
    | Some parsedTime => parsedTime
    | None => now env
    end
  else now env.

(** [fetchAndUpdateCache]; a nil reader is [None], a nil header map is the
    empty map. *)
Definition fetchAndUpdateCache (env : Env) (path originURL : string)
  : M (option (list byte) * Z * gmap string (list string)) :=
  if negb (newRequestOk "GET" originURL)
  then log "Error creating GET request";; mret (None, 0%Z, ∅)
  else
    let getReq := {| oMethod := "GET"; oURL := originURL;
                     oHeader := Hdr.Set_ "User-Agent" userAgent ∅ |} in
    getResp ← clientDo env getReq;
    match getResp with
    | None => log "Error fetching from origin";; mret (None, 0%Z, ∅)
    | Some getResp =>
        if bodyErr getResp
        then log "Error reading response";; mret (None, 0%Z, ∅)
        else
          let bodyBytes := Body getResp in
          let contentLength := ContentLength getResp in
          let actualSize := Z.of_nat (length bodyBytes) in
          if ((0 <? contentLength)%Z && negb (contentLength =? actualSize)%Z)%bool
          then log "File size validation failed";;
               mret (Some bodyBytes, actualSize, RespHeader getResp)
          else
            let lastModifiedTime := lastModifiedOf env (RespHeader getResp) in
            stored ← Cache_Put env path bodyBytes (Z.of_nat (length bodyBytes))
                       lastModifiedTime;
            (if (stored : bool) then log "Successfully updated cache"
             else log "Error updating cache");;
            storedH ← HeaderCache_PutHeaders env path (RespHeader getResp);
            when (negb storedH) (log "Error updating headers");;
            mret (Some bodyBytes, Z.of_nat (length bodyBytes), RespHeader getResp)
    end.

(** [setBasicHeaders]; [cachedHeaders] is [None] for a nil map. *)
Definition setBasicHeaders (r : Request)
  (cachedHeaders : option (gmap string (list string)))
  (lastModified : Time) (useIfModifiedSince : bool) : M unit :=
  (if HasSuffix (URLPath r) "/" then setHeader "Content-Type" "text/html"
   else
     let contentType :=
       match cachedHeaders with
       | Some h => Hdr.Get h "Content-Type"
       | None => ""
       end in
     let contentType :=
       if nonEmpty contentType then contentType else getContentType (URLPath r) in
     setHeader "Content-Type" contentType);;
  setHeader "Last-Modified" (formatHTTPTime lastModified);;
  if useIfModifiedSince then
    let ifModifiedSince := Hdr.Get (ReqHeader r) "If-Modified-Since" in
    if nonEmpty ifModifiedSince then
      match parseHTTPTime ifModifiedSince with
      | Some ifModifiedSinceTime =>
          if negb (After lastModified ifModifiedSinceTime)
          then WriteHeader 304
          else mret tt
      | None => mret tt
      end
    else mret tt
  else mret tt.

(** [handleCacheHit], lines 108 to 132: the client's [If-Modified-Since]
    against the cached [Last-Modified]; [true] when the 304 was written and
    the handler returns. *)
Definition clientConditional (r : Request)
  (cachedHeaders : gmap string (list string)) (lastModified : Time)
  (useIfModifiedSince : bool) : M bool :=
  let ifModifiedSince := Hdr.Get (ReqHeader r) "If-Modified-Since" in
  if (useIfModifiedSince && nonEmpty ifModifiedSince)%bool then
    match parseHTTPTime ifModifiedSince with
    | Some ifModifiedSinceTime =>
        let lastModifiedStr := Hdr.Get cachedHeaders "Last-Modified" in
        let lastModifiedTime :=
          if nonEmpty lastModifiedStr then
            match parseHTTPTime lastModifiedStr with
            | Some t => t
            | None => lastModified
            end
          else lastModified in
        if negb (After lastModifiedTime ifModifiedSinceTime)
        then WriteHeader 304;; mret true
        else mret false
    | None => mret false
    end
  else mret false.

(** The revalidation request of lines 138 to 149. *)
Definition revalidationRequest (originURL : string)
  (cachedHeaders : gmap string (list string)) (lastModified : Time)
  : OriginRequest :=
  let lastModifiedStr := Hdr.Get cachedHeaders "Last-Modified" in
  let h :=
    if nonEmpty lastModifiedStr
    then Hdr.Set_ "If-Modified-Since" lastModifiedStr ∅
    else Hdr.Set_ "If-Modified-Since" (formatHTTPTime lastModified) ∅ in
  {| oMethod := "HEAD"; oURL := originURL;
     oHeader := Hdr.Set_ "User-Agent" userAgent h |}.

(** [handleCacheHit], lines 134 to 184: the check with the origin; the
    result is the content, length and headers the response is built from. *)
Definition revalidate (env : Env) (r : Request) (config : ServerConfig)
  (content : option (list byte)) (contentLength : Z)
  (cachedHeaders : gmap string (list string)) (lastModified : Time)
  (useIfModifiedSince : bool)
  : M (option (list byte) * Z * gmap string (list string)) :=
  if (useIfModifiedSince && shouldValidateWithOrigin (URLPath r))%bool then
    let originURL := OriginServer config ++ URLPath r in
    if newRequestOk "HEAD" originURL then
      resp ← clientDo env (revalidationRequest originURL cachedHeaders lastModified);
      match resp with
      | Some resp =>
          if (StatusCode resp =? 304)%Z then
            when (LogRequests config) (log "Upstream confirms cache is still valid");;
            mret (content, contentLength, cachedHeaders)
          else if (StatusCode resp =? 200)%Z then
            log "Upstream has newer version";;
            acquired ← acquireLock (URLPath r);
            (if (acquired : bool) then deferRelease (URLPath r) else waitOn env (URLPath r));;
            fetchAndUpdateCache env (URLPath r) originURL
          else
            log "Unexpected status from upstream";;
            mret (content, contentLength, cachedHeaders)
      | None =>
          log "Error checking with upstream";;
          mret (content, contentLength, cachedHeaders)
      end
    else
      log "Error creating HEAD request";;
      mret (content, contentLength, cachedHeaders)
  else mret (content, contentLength, cachedHeaders).

(** [handleCacheHit], lines 197 to 211. *)
Definition writeContent (r : Request) (content : option (list byte))
  (contentLength : Z) : M bool :=
  setHeader "Content-Length" (pretty contentLength);;
  if String.eqb (Method r) "HEAD" then mret true
  else
    ok ← ioCopy content;
    when (negb ok) (log "Error writing response");;
    mret true.

(** [handleCacheHit].  [content] is the reader of the cached body ([None]
    for nil); closing it has no part in what follows and is left out. *)
Definition handleCacheHit (env : Env) (r : Request) (config : ServerConfig)
  (content : option (list byte)) (contentLength : Z) (lastModified : Time)
  (useIfModifiedSince : bool) : M bool :=
  call (
    cached ← HeaderCache_GetHeaders (URLPath r);
    match cached with
    | Some cachedHeaders =>
        notModified ← clientConditional r cachedHeaders lastModified useIfModifiedSince;
        if (notModified : bool) then mret true
        else
          '(content', contentLength', cachedHeaders') ←
            revalidate env r config content contentLength cachedHeaders
                       lastModified useIfModifiedSince;
          addHeaders cachedHeaders';;
          writeContent r content' contentLength'
    | None =>
        setBasicHeaders r None lastModified useIfModifiedSince;;
        writeContent r content contentLength
    end).

(** [handleCacheMiss], lines 309 to 332: [true] when this request holds
    the ticket and goes on to the origin, [false] when it has answered. *)
Definition enterSingleFlight (env : Env) (r : Request) (config : ServerConfig)
  (useIfModifiedSince : bool) : M bool :=
  let path := URLPath r in
  acquired ← acquireLock path;
  if (acquired : bool) then mret true
  else
    waitOn env path;;
    hit ← Cache_Get path;
    match hit with
    | Some b =>
        when (LogRequests config) (log "Resource was fetched by another request");;
        _ ← handleCacheHit env r config (Some (blob_body b)) (blob_length b)
              (blob_lastModified b) useIfModifiedSince;
        mret false
    | None =>
        acquired' ← acquireLock path;
        if (acquired' : bool) then mret true
        else httpError "Server busy, please try again" 503;; mret false
    end.

(** The request of lines 343 to 359. *)
Definition missRequest (r : Request) (originURL : string)
  (useIfModifiedSince : bool) : OriginRequest :=
  let h := Hdr.Set_ "User-Agent" userAgent ∅ in
  let ifModifiedSince := Hdr.Get (ReqHeader r) "If-Modified-Since" in
  {| oMethod := Method r; oURL := originURL;
     oHeader := if (useIfModifiedSince && nonEmpty ifModifiedSince)%bool
                then Hdr.Set_ "If-Modified-Since" ifModifiedSince h else h |}.

(** [handleCacheMiss] *)
Definition handleCacheMiss (env : Env) (r : Request) (config : ServerConfig)
  (useIfModifiedSince : bool) : M unit :=
  call (
    let path := URLPath r in
    leader ← enterSingleFlight env r config useIfModifiedSince;
    if negb leader then mret tt
    else
      deferRelease path;;
      let originURL := OriginServer config ++ path in
      when (LogRequests config) (log "Cache miss, fetching from origin");;
      if negb (newRequestOk (Method r) originURL)
      then httpError "Internal Server Error" 500;;
           log "Error creating request to origin"
      else
        resp ← clientDo env (missRequest r originURL useIfModifiedSince);
        match resp with
        | None =>
            httpError "Gateway Timeout" 504;;
            log "Error fetching from origin"
        | Some resp =>
            if (StatusCode resp =? 304)%Z then WriteHeader 304
            else if negb (StatusCode resp =? 200)%Z then
              WriteHeader (StatusCode resp);;
              _ ← ioCopy (Some (Body resp));
              mret tt
            else if bodyErr resp then
              httpError "Internal Server Error" 500;;
              log "Error reading response from origin"
            else
              let body := Body resp in
              let lastModifiedTime := lastModifiedOf env (RespHeader resp) in
              stored ← Cache_Put env path body (Z.of_nat (length body)) lastModifiedTime;
              (if (stored : bool) then when (LogRequests config) (log "Stored in cache")
               else log "Error storing in cache");;
              storedH ← HeaderCache_PutHeaders env path (RespHeader resp);
              when (negb storedH) (log "Error storing headers in cache");;
              addHeaders (RespHeader resp);;
              w ← get_rw;
              (if String.eqb (Hdr.Get (rw_header w) "Content-Type") ""
               then
                 let contentType := getContentType path in
                 when (nonEmpty contentType) (setHeader "Content-Type" contentType)
               else mret tt);;
              WriteHeader (StatusCode resp);;
              if negb (String.eqb (Method r) "HEAD")
              then _ ← Write body; mret tt
              else mret tt
        end).

(** The body shared by the two entry points, from the cache look-up on. *)
Definition fromCache (env : Env) (r : Request) (config : ServerConfig)
  (useIfModifiedSince : bool) : M unit :=
  hit ← Cache_Get (URLPath r);
  match hit with
  | Some b =>
      when (LogRequests config) (log "Cache hit");;
      handled ← handleCacheHit env r config (Some (blob_body b)) (blob_length b)
                  (blob_lastModified b) useIfModifiedSince;
      if (handled : bool) then mret tt
      else handleCacheMiss env r config useIfModifiedSince
  | None => handleCacheMiss env r config useIfModifiedSince
  end.

(** [HandleRelease] *)
Definition HandleRelease (env : Env) (config : ServerConfig) (r : Request) : M unit :=
  when (LogRequests config) (log "Release request");;
  valid ← validateRequest r;
  if negb valid then mret tt
  else fromCache env r config true.

(** [HandleCacheableRequest] *)
Definition HandleCacheableRequest (env : Env) (config : ServerConfig) (r : Request)
  : M unit :=
  when (LogRequests config) (log "Request");;
  valid ← validateRequest r;
  if negb valid then mret tt
  else
    let useIfModifiedSince := shouldUseIfModifiedSince (URLPath r) in
    fromCache env r config useIfModifiedSince.

End Handlers.

(** ** Running a handler *)

Definition initState (sh : Shared) (r : Request) : HState :=
  {| shared := sh; rw := newResponseWriter r; defers := []; trace := [] |}.

(** The status the client receives: the one of the first [WriteHeader];
    200 when the handler returns without one; none when the handler
    panicked before anything was sent (the connection is dropped). *)
Definition responseStatus {A} (out : Res A * HState) : option Z :=
  let w := rw (snd out) in
  if rw_wroteHeader w then Some (rw_status w)
  else match fst out with
       | Val _ => Some 200%Z
       | Panic => None
       end.

(** The headers the handler sends: the header map as it is when the status
    is written ([net/http] adds headers of its own, such as [Date], on the
    way out). *)
Definition responseHeader {A} (out : Res A * HState) : gmap string (list string) :=
  let w := rw (snd out) in
  if rw_wroteHeader w then rw_sent w else rw_header w.

Definition responseBody {A} (out : Res A * HState) : list byte :=
  rw_body (rw (snd out)).

Definition panicked {A} (out : Res A * HState) : bool :=
  match fst out with
  | Val _ => false
  | Panic => true
  end.

(** The requests sent to the origin, and the data handed to [w.Write]. *)
Definition originRequests (t : list Event) : list OriginRequest :=
  omap (fun e => match e with EOrigin req => Some req | _ => None end) t.

(** Events that reach the blob cache, the header cache or the origin. *)
Definition touchesCacheOrOrigin (e : Event) : bool :=
  match e with
  | ECacheGet _ | ECachePut _ _ _ _ | EHeaderGet _ | EHeaderPut _ _ | EOrigin _ => true
  | _ => false
  end.

(** The answer to a request the validation refuses: the status, 405 for a
    method other than GET and HEAD and 403 otherwise, with the shared state
    [sh] left as it was and nothing asked of the caches or the origin. *)
Definition rejected (r : Request) (sh : Shared) (out : Res unit * HState) : Prop :=
  responseStatus out =
    Some (if decide (Method r = "GET" \/ Method r = "HEAD") then 403 else 405)%Z
  /\ shared (snd out) = sh
  /\ Forall (fun e => touchesCacheOrOrigin e = false) (trace (snd out)).

(** The [Last-Modified] a cache hit is compared with: the one of the
    cached headers when it is there and parses, the timestamp of the blob
    otherwise. *)
Definition authoritativeLastModified `{Platform}
  (cached : option (gmap string (list string))) (lastModified : Time) : Time :=
  match cached with
  | Some h =>
      if nonEmpty (Hdr.Get h "Last-Modified") then
        match parseHTTPTime (Hdr.Get h "Last-Modified") with
        | Some t => t
        | None => lastModified
        end
      else lastModified
  | None => lastModified
  end.

(** A step that returns normally and leaves the response writer alone. *)
Definition quiet {A} (m : M A) : Prop :=
  forall s, exists a s', m s = (Val a, s') /\ rw s' = rw s.

(** A step that returns normally a value satisfying [P] and leaves the
    response writer alone. *)
Definition yields {A} (P : A -> Prop) (m : M A) : Prop :=
  forall s, exists a s', m s = (Val a, s') /\ rw s' = rw s /\ P a.

(** A reader that is nil or has the length that comes with it. *)
Definition lengthOK (x : option (list byte) * Z * gmap string (list string)) : Prop :=
  match x with
  | (Some b, l, _) => l = Z.of_nat (length b)
  | (None, _, _) => True
  end.

(** A step that only adds to the trace. *)
Definition grows {A} (m : M A) : Prop :=
  forall s, exists t, trace (snd (m s)) = (trace s ++ t)%list.

(** ** The single-flight registry under concurrent requests

    Requests are threads that interleave at the points where the source
    takes or drops [requestLock], blocks on a channel or talks to the
    origin.  The registry maps a path to the channel of its ticket;
    closing a channel wakes every request blocked on it. *)

Module SingleFlight.

Record Registry := {
  tickets : gmap string nat;
  closedCh : gset nat;
  nextCh : nat
}.

(** Where a request stands.  The [Hit] points are those of
    [handleCacheHit] from line 162 on (the origin answered 200 to the
    HEAD request), the [Miss] points those of [handleCacheMiss]. *)
Inductive PC :=
| HitHeadOK                      (* line 167, acquireLock: look-up under RLock *)
| HitLocking                     (* acquireLock, line 47: re-check under Lock *)
| HitWaiting (ch : nat)          (* line 171: <-ch *)
| HitFetch (acquired : bool)     (* line 174: fetchAndUpdateCache is called *)
| HitGetInFlight (acquired : bool) (* line 224: client.Do(getReq) *)
| HitRespond (acquired : bool)   (* lines 186 to 211, then the deferred release *)
| MissStart                      (* line 309, acquireLock: look-up under RLock *)
| MissLocking                    (* acquireLock, line 47 *)
| MissWaiting (ch : nat)         (* line 312: <-ch *)
| MissRecheck                    (* line 315: Cache.Get *)
| MissRetry                      (* line 326, acquireLock: look-up under RLock *)
| MissRetryLocking               (* acquireLock, line 47 *)
| MissFetch                      (* line 363: client.Do(req) is called *)
| MissInFlight                   (* the origin request is in flight *)
| MissRespond                    (* lines 372 to 435, then the deferred release *)
| Done.

Record Thread := {
  t_path : string;
  t_method : string;
  t_pc : PC
}.

Record Sys := {
  reg : Registry;
  cachedPaths : gset string;
  threads : list Thread
}.

Definition at_pc (pc : PC) (t : Thread) : Thread :=
  {| t_path := t_path t; t_method := t_method t; t_pc := pc |}.

(** The insertion of [acquireLock], lines 58 and 59. *)
Definition insertTicket (path : string) (g : Registry) : Registry :=
  {| tickets := <[path := nextCh g]> (tickets g);
     closedCh := closedCh g;
     nextCh := S (nextCh g) |}.

(** [releaseLock] *)
Definition release (path : string) (g : Registry) : Registry :=
  match tickets g !! path with
  | Some ch =>
      {| tickets := delete path (tickets g);
         closedCh := {[ch]} ∪ closedCh g;
         nextCh := nextCh g |}
  | None => g
  end.

(** One step of one thread: the new registry, cache and program point, or
    [None] when the thread is blocked or has finished.  [head200] is the
    answer of the origin to the revalidation of a request that finds the
    path in the cache after its wait. *)
Definition stepThread (head200 : bool) (g : Registry) (c : gset string)
  (t : Thread) : option (Registry * gset string * PC) :=
  let path := t_path t in
  match t_pc t with
  | HitHeadOK =>
      match tickets g !! path with
      | Some ch => Some (g, c, HitWaiting ch)
      | None => Some (g, c, HitLocking)
      end
  | HitLocking =>
      match tickets g !! path with
      | Some ch => Some (g, c, HitWaiting ch)
      | None => Some (insertTicket path g, c, HitFetch true)
      end
  | HitWaiting ch =>
      if decide (ch ∈ closedCh g) then Some (g, c, HitFetch false) else None
  | HitFetch acquired => Some (g, c, HitGetInFlight acquired)
  | HitGetInFlight acquired => Some (g, {[path]} ∪ c, HitRespond acquired)
  | HitRespond acquired =>
      Some (if acquired then release path g else g, c, Done)
  | MissStart =>
      match tickets g !! path with
      | Some ch => Some (g, c, MissWaiting ch)
      | None => Some (g, c, MissLocking)
      end
  | MissLocking =>
      match tickets g !! path with
      | Some ch => Some (g, c, MissWaiting ch)
      | None => Some (insertTicket path g, c, MissFetch)
      end
  | MissWaiting ch =>
      if decide (ch ∈ closedCh g) then Some (g, c, MissRecheck) else None
  | MissRecheck =>
      if decide (path ∈ c)
      then Some (g, c, if head200 then HitHeadOK else Done)
      else Some (g, c, MissRetry)
  | MissRetry =>
      match tickets g !! path with
      | Some _ => Some (g, c, Done)
      | None => Some (g, c, MissRetryLocking)
      end
  | MissRetryLocking =>
      match tickets g !! path with
      | Some _ => Some (g, c, Done)
      | None => Some (insertTicket path g, c, MissFetch)
      end
  | MissFetch => Some (g, c, MissInFlight)
  | MissInFlight => Some (g, {[path]} ∪ c, MissRespond)
  | MissRespond => Some (release path g, c, Done)
  | Done => None
  end.

Definition step (i : nat) (head200 : bool) (s : Sys) : option Sys :=
  match threads s !! i with
  | Some t =>
      match stepThread head200 (reg s) (cachedPaths s) t with
      | Some (g, c, pc) =>
          Some {| reg := g; cachedPaths := c;
                  threads := <[i := at_pc pc t]> (threads s) |}
      | None => None
      end
  | None => None
  end.

(** A schedule: which thread moves, with the origin's answer for it. *)
Fixpoint run (schedule : list (nat * bool)) (s : Sys) : option Sys :=
  match schedule with
  | [] => Some s
  | (i, head200) :: rest =>
      match step i head200 s with
      | Some s' => run rest s'
      | None => None
      end
  end.

(** A thread whose origin GET for [path] has been sent and not answered. *)
Definition getInFlight (path : string) (t : Thread) : bool :=
  (String.eqb (t_path t) path &&
   match t_pc t with
   | HitGetInFlight _ => true
   | MissInFlight => String.eqb (t_method t) "GET"
   | _ => false
   end)%bool.

Fixpoint countThreads (f : Thread -> bool) (l : list Thread) : nat :=
  match l with
  | [] => 0
  | t :: rest => (if f t then 1 else 0) + countThreads f rest
  end.

Definition getsInFlight (path : string) (s : Sys) : nat :=
  countThreads (getInFlight path) (threads s).

(** A thread that holds the ticket of [path]: it inserted it and has not
    released it yet. *)
Definition holderPC (pc : PC) : bool :=
  match pc with
  | HitFetch true | HitGetInFlight true | HitRespond true
  | MissFetch | MissInFlight | MissRespond => true
  | _ => false
  end.

Definition holdsTicket (path : string) (t : Thread) : bool :=
  (String.eqb (t_path t) path && holderPC (t_pc t))%bool.

(** A thread that has an origin GET for [path] in flight while it holds the
    ticket. *)
Definition leaderGetInFlight (path : string) (t : Thread) : bool :=
  (getInFlight path t && holdsTicket path t)%bool.

(** The registry has a ticket for a path exactly when one thread holds
    it. *)
Definition oneHolderPerTicket (s : Sys) : Prop :=
  forall path,
    countThreads (holdsTicket path) (threads s) =
    match tickets (reg s) !! path with
    | Some _ => 1
    | None => 0
    end%nat.

(** No ticket yet, and every request at the start of one of the two
    paths. *)
Definition initial (s : Sys) : Prop :=
  tickets (reg s) = ∅
  /\ Forall (fun t => t_pc t = HitHeadOK \/ t_pc t = MissStart) (threads s).

Definition emptyRegistry : Registry :=
  {| tickets := ∅; closedCh := ∅; nextCh := 0 |}.

(** Three requests for one cached path, each told by the origin that a
    newer version exists. *)
Definition threeStaleHits (path : string) : Sys :=
  {| reg := emptyRegistry;
     cachedPaths := {[path]};
     threads := [ {| t_path := path; t_method := "GET"; t_pc := HitHeadOK |};
                  {| t_path := path; t_method := "GET"; t_pc := HitHeadOK |};
                  {| t_path := path; t_method := "GET"; t_pc := HitHeadOK |} ] |}.

(** The first request becomes the leader and fetches; the other two find
    its ticket and wait; the leader answers and releases; both waiters
    wake up and fetch. *)
Definition twoFollowersFetch : list (nat * bool) :=
  [ (0, false); (0, false); (0, false);
    (1, false); (2, false);
    (0, false); (0, false);
    (1, false); (2, false);
    (1, false); (2, false) ]%nat.

End SingleFlight.

(** ** Concrete requests, cache contents and origins *)

Module Fixtures.

Definition jan1 : string := "Mon, 01 Jan 2024 00:00:00 GMT".
Definition jan2 : string := "Tue, 02 Jan 2024 00:00:00 GMT".
Definition jan1_t : Time := 1704067200%Z.
Definition jan2_t : Time := 1704153600%Z.

(** The two dates above are all these examples need of [time.Parse] and
    [Format]; every request can be built; the paths are ASCII, so that
    [mapToLower] is never reached. *)
Definition twoDates : Platform :=
  {| parseHTTPTime s :=
       if String.eqb s jan1 then Some jan1_t
       else if String.eqb s jan2 then Some jan2_t
       else None;
     formatHTTPTime t :=
       if (t =? jan1_t)%Z then jan1
       else if (t =? jan2_t)%Z then jan2
       else "";
     newRequestOk _ _ := true;
     mapToLower s := s |}.

Definition config : ServerConfig :=
  {| OriginServer := "http://archive.ubuntu.com"; LogRequests := false |}.

Definition inRelease : string := "/ubuntu/dists/jammy/InRelease".
Definition poolRelease : string := "/ubuntu/pool/main/r/Release-tools.deb".

Definition oldBody : list byte := list_byte_of_string ("Origin: Ubuntu" ++ newline).
Definition newBody : list byte := repeat "x"%byte 950.

Definition oldBlob : Blob :=
  {| blob_body := oldBody; blob_length := 15; blob_lastModified := jan1_t |}.

Definition get (path : string) : Request :=
  {| Method := "GET"; URLPath := path; RawQuery := ""; ReqHeader := ∅ |}.

Definition getSince (path since : string) : Request :=
  {| Method := "GET"; URLPath := path; RawQuery := "";
     ReqHeader := {[ "If-Modified-Since" := [since] ]} |}.

Definition post (path : string) : Request :=
  {| Method := "POST"; URLPath := path; RawQuery := ""; ReqHeader := ∅ |}.

(** The blob is cached, its headers are not. *)
Definition blobOnly (path : string) : Shared :=
  {| blobs := {[ path := oldBlob ]}; headerStore := ∅; inProgress := ∅ |}.

(** The blob and its headers are cached. *)
Definition cachedEntry (path : string) : Shared :=
  {| blobs := {[ path := oldBlob ]};
     headerStore := {[ path := {[ "Last-Modified" := [jan1] ]} ]};
     inProgress := ∅ |}.

Definition emptyCache : Shared :=
  {| blobs := ∅; headerStore := ∅; inProgress := ∅ |}.

Definition answer (status : Z) (h : gmap string (list string)) (declared : Z)
  (body : list byte) : option OriginResponse :=
  Some {| StatusCode := status; RespHeader := h; ContentLength := declared;
          Body := body; bodyErr := false |}.

Definition envOf (origin : OriginRequest -> option OriginResponse) : Env :=
  {| originDo := origin; now := jan2_t; cachePutFails := false;
     headerPutFails := false; othersRun := fun sh => sh |}.

(** The origin cannot be reached. *)
Definition unreachable : Env := envOf (fun _ => None).

(** The origin has a newer version (200 to HEAD) but the GET fails. *)
Definition headThenFailure : Env :=
  envOf (fun req =>
    if String.eqb (oMethod req) "HEAD"
    then answer 200 {[ "Last-Modified" := [jan2] ]} 950 []
    else None).

Definition bigBody : list byte := repeat "x"%byte 4096.

(** The origin sends 4096 bytes without a [Content-Length] (chunked). *)
Definition chunkedOrigin : Env :=
  envOf (fun _ => answer 200 {[ "Last-Modified" := [jan1] ]} (-1) bigBody).

(** The origin declares 1000 bytes and 950 are read, the read ending
    without an error (a transport that does not hold the body against the
    declared length). *)
Definition shortOrigin : Env :=
  envOf (fun req =>
    answer 200 {[ "Content-Length" := ["1000"]; "Last-Modified" := [jan2] ]} 1000
           (if String.eqb (oMethod req) "HEAD" then [] else newBody)).

Definition shortResponse : OriginResponse :=
  {| StatusCode := 200;
     RespHeader := {[ "Content-Length" := ["1000"]; "Last-Modified" := [jan2] ]};
     ContentLength := 1000; Body := newBody; bodyErr := false |}.

(** The origin declares 1000 bytes; 950 arrive and the connection ends,
    which [net/http] reports as an error of the read after the 950 bytes. *)
Definition truncatedResponse : OriginResponse :=
  {| StatusCode := 200;
     RespHeader := {[ "Content-Length" := ["1000"]; "Last-Modified" := [jan2] ]};
     ContentLength := 1000; Body := newBody; bodyErr := true |}.

Definition truncatedOrigin : Env := envOf (fun _ => Some truncatedResponse).

End Fixtures.

(** ** Further definitions *)

(** No dot and no slash in [s]: [s] can be the text after the last dot of
    a file name. *)
Fixpoint plainExt (s : string) : bool :=
  match s with
  | EmptyString => true
  | String c s' =>
      if Ascii.eqb c "." then false
      else if Ascii.eqb c "/" then false
      else plainExt s'
  end.

(** The channel a thread is blocked on, if any. *)
Definition waitingOn (t : SingleFlight.Thread) : option nat :=
  match SingleFlight.t_pc t with
  | SingleFlight.HitWaiting ch | SingleFlight.MissWaiting ch => Some ch
  | _ => None
  end.

(** Every blocked thread waits on a channel that is closed already or is
    the ticket of its path. *)
Definition waitersWatchTickets (s : SingleFlight.Sys) : Prop :=
  Forall (fun t =>
            forall ch, waitingOn t = Some ch ->
              ch ∈ SingleFlight.closedCh (SingleFlight.reg s)
              \/ SingleFlight.tickets (SingleFlight.reg s) !! SingleFlight.t_path t
                 = Some ch)
         (SingleFlight.threads s).

(** Three requests for a path that is not cached. *)
Definition threeMisses (path : string) : SingleFlight.Sys :=
  {| SingleFlight.reg := SingleFlight.emptyRegistry;
     SingleFlight.cachedPaths := ∅;
     SingleFlight.threads :=
       [ {| SingleFlight.t_path := path; SingleFlight.t_method := "GET";
            SingleFlight.t_pc := SingleFlight.MissStart |};
         {| SingleFlight.t_path := path; SingleFlight.t_method := "GET";
            SingleFlight.t_pc := SingleFlight.MissStart |};
         {| SingleFlight.t_path := path; SingleFlight.t_method := "GET";
            SingleFlight.t_pc := SingleFlight.MissStart |} ] |}.

(** The first request fetches while the other two wait; they find the
    entry in the cache when they wake up. *)
Definition leaderThenFollowers : list (nat * bool) :=
  [ (0, false); (0, false); (1, false); (2, false); (0, false); (0, false);
    (0, false); (1, false); (1, false); (2, false); (2, false) ]%nat.

(** The same, stopped while the leader's GET is in flight. *)
Definition leaderFetching : list (nat * bool) :=
  [ (0, false); (0, false); (1, false); (2, false); (0, false) ]%nat.

(** A step whose events all satisfy [P]. *)
Definition emits {A} (P : Event -> Prop) (m : M A) : Prop :=
  forall s, exists t, trace (snd (m s)) = (trace s ++ t)%list /\ Forall P t.

(** A call of [Cache.Put] that passes the length of the body it passes. *)
Definition putLengthOK (e : Event) : Prop :=
  match e with
  | ECachePut _ body len _ => len = Z.of_nat (length body)
  | _ => True
  end.

(** A request to the origin for the URL [url] that carries the proxy's
    [User-Agent], once. *)
Definition originRequestOK (url : string) (e : Event) : Prop :=
  match e with
  | EOrigin req =>
      oURL req = url /\ oHeader req !! "User-Agent" = Some ["Go-APT-Cache/1.0"]
  | _ => True
  end.

(** A request to the origin without [If-Modified-Since]. *)
Definition unconditional (e : Event) : Prop :=
  match e with
  | EOrigin req => oHeader req !! "If-Modified-Since" = None
  | _ => True
  end.

(** Events other than a wait on a ticket. *)
Definition notWait (e : Event) : Prop :=
  match e with
  | EWait _ => False
  | _ => True
  end.

(** The two caches hold under every path other than [path] what they hold
    in [sh0]. *)
Definition sameElsewhere (path : string) (sh0 sh : Shared) : Prop :=
  forall q, q <> path ->
    blobs sh !! q = blobs sh0 !! q /\ headerStore sh !! q = headerStore sh0 !! q.

(** A request for [path] that started on [sh0] and has not been disturbed:
    it has not waited, it has left the other paths alone, and the registry
    is the one of [sh0], with the ticket of [path] added exactly when the
    release of that ticket is deferred ([held]). *)
Definition undisturbed (path : string) (sh0 : Shared) (held : bool) (s : HState)
  : Prop :=
  inProgress (shared s) = (if held then {[path]} ∪ inProgress sh0 else inProgress sh0)
  /\ defers s = (if held then [path] else [])
  /\ sameElsewhere path sh0 (shared s)
  /\ Forall notWait (trace s).

(** A step that keeps a request undisturbed. *)
Definition keeps (path : string) (sh0 : Shared) (held : bool) {A} (m : M A) : Prop :=
  forall s, undisturbed path sh0 held s -> undisturbed path sh0 held (snd (m s)).

(** A step that starts without the ticket and ends undisturbed, with or
    without it. *)
Definition settles (path : string) (sh0 : Shared) {A} (m : M A) : Prop :=
  forall s, undisturbed path sh0 false s ->
    exists held, undisturbed path sh0 held (snd (m s)).

(** ** More origins and cache contents *)

Module Scenarios.

Definition headOf (path : string) : Request :=
  {| Method := "HEAD"; URLPath := path; RawQuery := ""; ReqHeader := ∅ |}.

(** The origin has no such file. *)
Definition notFoundPage : OriginResponse :=
  {| StatusCode := 404; RespHeader := {[ "Content-Type" := ["text/html"] ]};
     ContentLength := 9; Body := list_byte_of_string "Not Found";
     bodyErr := false |}.

Definition notFound : Env := Fixtures.envOf (fun _ => Some notFoundPage).

(** The connection breaks while the body of a 200 is read. *)
Definition brokenResponse : OriginResponse :=
  {| StatusCode := 200; RespHeader := ∅; ContentLength := 4096;
     Body := Fixtures.newBody; bodyErr := true |}.

Definition brokenBody : Env := Fixtures.envOf (fun _ => Some brokenResponse).

(** The origin sends the 950 bytes it declares. *)
Definition package : OriginResponse :=
  {| StatusCode := 200; RespHeader := {[ "Last-Modified" := [Fixtures.jan1] ]};
     ContentLength := 950; Body := Fixtures.newBody; bodyErr := false |}.

Definition serving : Env := Fixtures.envOf (fun _ => Some package).

(** The same origin, with two stores that refuse every write. *)
Definition servingDiskFull : Env :=
  {| originDo := fun _ => Some package; now := Fixtures.jan2_t;
     cachePutFails := true; headerPutFails := true; othersRun := fun sh => sh |}.

(** The origin has nothing newer. *)
Definition notModified : OriginResponse :=
  {| StatusCode := 304; RespHeader := ∅; ContentLength := 0; Body := [];
     bodyErr := false |}.

Definition unchangedOrigin : Env := Fixtures.envOf (fun _ => Some notModified).

(** Nothing is cached and another request holds the ticket of [path]. *)
Definition fetching (path : string) : Shared :=
  {| blobs := ∅; headerStore := ∅; inProgress := {[ path ]} |}.

End Scenarios.

(** * Proofs *)

(** ** Substring search *)

Lemma append_nil_l (b : string) : "" ++ b = b.
Proof. reflexivity. Qed.

Lemma append_cons (x : ascii) (a b : string) : String x a ++ b = String x (a ++ b).
Proof. reflexivity. Qed.

Lemma append_assoc (a b c : string) : (a ++ b) ++ c = a ++ b ++ c.
Proof.
  induction a as [|x a IH]; [reflexivity|].
  rewrite !append_cons. by rewrite IH.
Qed.

Lemma HasPrefix_spec (s p : string) :
  HasPrefix s p = true <-> exists suf, s = p ++ suf.
Proof.
  revert s. induction p as [|c p IH]; intros s.
  - split; [intros _; exists s; reflexivity | intros _; by destruct s].
  - destruct s as [|d s]; simpl.
    + split; [done | intros [suf Hs]; rewrite append_cons in Hs; discriminate].
    + destruct (Ascii.eqb_spec c d) as [->|Hne].
      * rewrite IH. split; intros [suf Hs]; exists suf.
        -- by rewrite append_cons, Hs.
        -- rewrite append_cons in Hs. by injection Hs.
      * split; [done | intros [suf Hs]].
        rewrite append_cons in Hs. injection Hs. congruence.
Qed.

Lemma Contains_unfold (s substr : string) :
  Contains s substr =
  if HasPrefix s substr then true
  else match s with
       | EmptyString => false
       | String _ s' => Contains s' substr
       end.
Proof. by destruct s. Qed.

Lemma Contains_here (s substr : string) :
  HasPrefix s substr = true -> Substring substr s.
Proof. intros Hp. apply HasPrefix_spec in Hp as [suf Hs]. by exists "", suf. Qed.

Lemma Contains_spec (s substr : string) :
  Contains s substr = true <-> Substring substr s.
Proof.
  induction s as [|d s IH]; rewrite Contains_unfold;
    destruct (HasPrefix _ substr) eqn:Hp;
    try (split; [intros _; by apply Contains_here | done]).
  - split; [done | intros [pre [suf Hs]]].
    destruct pre as [|e pre]; [|rewrite append_cons in Hs; discriminate].
    rewrite append_nil_l in Hs.
    assert (HasPrefix "" substr = true) by (apply HasPrefix_spec; eauto).
    congruence.
  - rewrite IH. split.
    + intros [pre [suf Hs]]. exists (String d pre), suf.
      by rewrite append_cons, Hs.
    + intros [pre [suf Hs]]. destruct pre as [|e pre].
      * rewrite append_nil_l in Hs.
        assert (HasPrefix (String d s) substr = true)
          by (apply HasPrefix_spec; eauto).
        congruence.
      * rewrite append_cons in Hs. injection Hs as _ Hs. by exists pre, suf.
Qed.

Lemma Contains_false (s substr : string) :
  Contains s substr = false <-> ~ Substring substr s.
Proof.
  rewrite <- Contains_spec. destruct (Contains s substr); split; congruence.
Qed.

Lemma matchesAny_spec (path : string) (patterns : list string) :
  matchesAny path patterns = true <->
  exists pattern, In pattern patterns /\ Substring pattern path.
Proof.
  induction patterns as [|q rest IH]; simpl.
  - split; [discriminate | intros (x & Hin & _); destruct Hin].
  - destruct (Contains path q) eqn:Hq.
    + split; [intros _ | done]. exists q. split; [by left | by apply Contains_spec].
    + rewrite IH. split.
      * intros [x [Hin Hx]]. exists x. split; [by right | done].
      * intros [x [[->|Hin] Hx]].
        -- apply Contains_spec in Hx. congruence.
        -- by exists x.
Qed.

Lemma Substring_app_l (x pre s : string) : Substring x s -> Substring x (pre ++ s).
Proof. intros [a [b ->]]. exists (pre ++ a), b. by rewrite append_assoc. Qed.

Lemma baseFrom_is_suffix (s acc whole : string) :
  (exists pre, whole = pre ++ s) -> (exists pre, whole = pre ++ acc) ->
  exists pre, whole = pre ++ baseFrom s acc.
Proof.
  revert acc. induction s as [|c s IH]; intros acc Hs Hacc; simpl; [done|].
  assert (exists pre, whole = pre ++ s) as Hs'.
  { destruct Hs as [pre ->]. exists (pre ++ String c ""). by rewrite append_assoc. }
  destruct (Ascii.eqb c "/"); by apply IH.
Qed.

Lemma basename_suffix (path : string) : exists pre, path = pre ++ basename path.
Proof. apply baseFrom_is_suffix; by exists "". Qed.

(** C7, as the code has it: [shouldUseIfModifiedSince] answers [true]
    exactly when the path contains [/dists/], or contains no [/pool/] and
    contains one of the eleven tokens; the token may stand anywhere in the
    path, not only in its basename. *)
Theorem shouldUseIfModifiedSince_rules (path : string) :
  shouldUseIfModifiedSince path = true <->
  Substring "/dists/" path \/
  (~ Substring "/pool/" path /\
   exists token, In token frequentlyChangingPatterns /\ Substring token path).
Proof.
  unfold shouldUseIfModifiedSince.
  destruct (Contains path "/dists/") eqn:Hd.
  - apply Contains_spec in Hd. split; [by left | done].
  - apply Contains_false in Hd.
    destruct (Contains path "/pool/") eqn:Hp.
    + apply Contains_spec in Hp. split; [done | intros [?|[? _]]; done].
    + apply Contains_false in Hp.
      destruct (matchesAny path frequentlyChangingPatterns) eqn:Hm.
      * apply matchesAny_spec in Hm. split; [intros _; by right | done].
      * split; [done | intros [?|[_ Hex]]; [done|]].
        apply matchesAny_spec in Hex. congruence.
Qed.

(** Whenever the rule on the basename says [true], so does the code. *)
Lemma spec_use_conditional_implies (path : string) :
  spec_use_conditional path = true -> shouldUseIfModifiedSince path = true.
Proof.
  unfold spec_use_conditional, shouldUseIfModifiedSince.
  destruct (Contains path "/dists/"); [done|].
  destruct (Contains path "/pool/"); [done|].
  intros Hex. apply existsb_exists in Hex as [tok [Hin Htok]].
  assert (matchesAny path frequentlyChangingPatterns = true) as ->; [|done].
  apply matchesAny_spec. exists tok. split; [done|].
  apply Contains_spec in Htok. destruct (basename_suffix path) as [pre Hpre].
  rewrite Hpre. by apply Substring_app_l.
Qed.

(** C7, counterexample: the token [Release] stands in a directory name and
    not in the basename [hello.deb]; the code says [true] where the rule on
    the basename says [false]. *)
Lemma use_conditional_not_basename :
  shouldUseIfModifiedSince "/ubuntu/Release.d/hello.deb"
  <> spec_use_conditional "/ubuntu/Release.d/hello.deb".
Proof. vm_compute. discriminate. Qed.

(** ** Running the monad *)

Lemma bind_run {A B} (m : M A) (f : A -> M B) (s : HState) :
  (m ≫= f) s =
  match m s with
  | (Val a, s') => f a s'
  | (Panic, s') => (Panic, s')
  end.
Proof. reflexivity. Qed.

Lemma ret_run {A} (a : A) (s : HState) : mret (M := M) a s = (Val a, s).
Proof. reflexivity. Qed.

Ltac mstep :=
  cbv beta iota zeta delta
    [mbind M_bind mret M_ret
     WriteHeader Write ioCopy setHeader delHeader addHeaders
     Cache_Get Cache_Put HeaderCache_GetHeaders HeaderCache_PutHeaders
     clientDo waitOn deferRelease log when emit panic
     get_rw put_rw get_shared put_shared call runDefers
     rwWriteHeader rwSetHeader rwAppend setBlobs setHeaderStore setInProgress
     shared rw defers trace fst snd
     rw_header rw_wroteHeader rw_status rw_sent rw_body rw_isHead
     blobs headerStore inProgress].

Ltac mrun := mstep; repeat (progress (cbn [negb andb orb]); mstep).

Section Validation.
Context `{Platform}.

Lemma After_le t u : negb (After t u) = true <-> (t <= u)%Z.
Proof. unfold After. rewrite negb_true_iff, Z.ltb_ge. done. Qed.

Lemma nonEmpty_true s : s <> "" -> nonEmpty s = true.
Proof. intros. unfold nonEmpty. apply negb_true_iff. by apply String.eqb_neq. Qed.

Lemma httpError_run msg code s :
  rw_wroteHeader (rw s) = false ->
  exists w, httpError msg code s =
    (Val tt, {| shared := shared s; rw := w; defers := defers s;
                trace := (trace s ++ [EWriteHeader code;
                   EWrite (list_byte_of_string (msg ++ newline))])%list |})
    /\ rw_wroteHeader w = true /\ rw_status w = code.
Proof.
  destruct s as [sh [hd wr st se bo ih] ds tr]. mrun. intros ->.
  unfold httpError. mrun.
  destruct (list_byte_of_string (msg ++ newline)) eqn:Hb; mrun.
  - eexists. rewrite <- app_assoc. split; [reflexivity|]. done.
  - destruct (bodyAllowedForStatus code); mrun.
    + destruct ih; mrun;
       (eexists; rewrite <- app_assoc; split; [reflexivity|]; done).
    + eexists. rewrite <- app_assoc. split; [reflexivity|]. done.
Qed.

Lemma log_opt_run (b : bool) msg (s : HState) :
  exists t, when b (log msg) s =
    (Val tt, {| shared := shared s; rw := rw s; defers := defers s;
                trace := (trace s ++ t)%list |})
    /\ Forall (fun e => touchesCacheOrOrigin e = false) t.
Proof.
  destruct b; mrun.
  - exists [ELog msg]. split; [done|]. by repeat constructor.
  - exists []. rewrite app_nil_r. by destruct s.
Qed.

Lemma validateRequest_rejects r s :
  rw_wroteHeader (rw s) = false ->
  (Method r <> "GET" /\ Method r <> "HEAD") \/ RawQuery r <> "" ->
  exists w t,
    validateRequest r s =
      (Val false, {| shared := shared s; rw := w; defers := defers s;
                     trace := (trace s ++ t)%list |})
    /\ rw_wroteHeader w = true
    /\ rw_status w = (if decide (Method r = "GET" \/ Method r = "HEAD")
                      then 403 else 405)%Z
    /\ Forall (fun e => touchesCacheOrOrigin e = false) t.
Proof.
  intros Hw Hbad. unfold validateRequest.
  destruct (String.eqb_spec (Method r) "GET") as [Hg|Hg];
    destruct (String.eqb_spec (Method r) "HEAD") as [Hh|Hh]; cbn [negb andb].
  all: try (destruct Hbad as [[? ?]|Hq]; [done|];
            rewrite (nonEmpty_true _ Hq);
            destruct (httpError_run "Forbidden" 403 s Hw) as (w & Hrun & Hw1 & Hst);
            rewrite bind_run, Hrun; mrun;
            eexists _, _; split; [reflexivity|];
            rewrite decide_True by tauto;
            repeat split; try done; by repeat constructor).
  destruct (httpError_run "Method not allowed" 405 s Hw) as (w & Hrun & Hw1 & Hst).
  rewrite bind_run, Hrun. mrun.
  eexists _, _; split; [reflexivity|].
  rewrite decide_False by tauto.
  repeat split; try done; by repeat constructor.
Qed.

Lemma entry_rejects msg useIfModifiedSince env config r sh :
  (Method r <> "GET" /\ Method r <> "HEAD") \/ RawQuery r <> "" ->
  rejected r sh
    ((when (LogRequests config) (log msg);;
      valid ← validateRequest r;
      if negb valid then mret tt
      else fromCache env r config useIfModifiedSince) (initState sh r)).
Proof.
  intros Hbad. rewrite bind_run.
  destruct (log_opt_run (LogRequests config) msg (initState sh r))
    as (t0 & -> & Ht0).
  rewrite bind_run.
  match goal with |- context [validateRequest r ?s] =>
    destruct (validateRequest_rejects r s eq_refl Hbad)
      as (w & t & -> & Hw & Hst & Ht) end.
  destruct w as [wh ww ws wt wb wi]. cbn [rw_wroteHeader rw_status] in Hw, Hst. subst.
  cbn [negb]. unfold rejected, responseStatus. mrun.
  split; [done|]. split; [done|].
  cbn [initState trace app]. apply Forall_app; eauto.
Qed.

(** C6: a request whose method is neither GET nor HEAD is answered 405, and
    otherwise a request with a non-empty query string is answered 403; in
    both cases, at both entry points, whatever the path and the cache
    hold, nothing is asked of the caches or of the origin and the shared
    state is left as it was. *)
Theorem invalid_request_rejected env config r sh :
  (Method r <> "GET" /\ Method r <> "HEAD") \/ RawQuery r <> "" ->
  rejected r sh (HandleCacheableRequest env config r (initState sh r))
  /\ rejected r sh (HandleRelease env config r (initState sh r)).
Proof. intros Hbad. split; by apply entry_rejects. Qed.

End Validation.

(** ** Steps that return normally and leave the response writer alone *)

Lemma quiet_ret {A} (a : A) : quiet (mret a).
Proof. intros s. by exists a, s. Qed.

Lemma quiet_bind {A B} (m : M A) (f : A -> M B) :
  quiet m -> (forall a, quiet (f a)) -> quiet (m ≫= f).
Proof.
  intros Hm Hf s. destruct (Hm s) as (a & s1 & Hr & Hw).
  destruct (Hf a s1) as (b & s2 & Hr2 & Hw2).
  exists b, s2. rewrite bind_run, Hr, Hr2. split; [done | congruence].
Qed.

Lemma quiet_emit e : quiet (emit e).
Proof. intros s. by eexists _, _. Qed.

Lemma quiet_log msg : quiet (log msg).
Proof. apply quiet_emit. Qed.

Lemma quiet_when b (m : M unit) : quiet m -> quiet (when b m).
Proof. destruct b; [done | intros _; apply quiet_ret]. Qed.

Lemma quiet_get_shared : quiet get_shared.
Proof. intros s. by eexists _, _. Qed.

Lemma quiet_put_shared sh : quiet (put_shared sh).
Proof. intros s. by eexists _, _. Qed.

Lemma quiet_deferRelease path : quiet (deferRelease path).
Proof. intros s. by eexists _, _. Qed.

Create HintDb quiet.
#[local] Hint Resolve quiet_ret quiet_emit quiet_log quiet_when quiet_get_shared
  quiet_put_shared quiet_deferRelease : quiet.

Ltac quiet_step :=
  first
    [ solve [auto with quiet]
    | match goal with
      | |- quiet (if ?b then _ else _) => destruct b
      | |- quiet (match ?x with _ => _ end) => destruct x
      | |- quiet (let _ := _ in _) => cbv zeta
      end
    | apply quiet_bind; [|intros ?] ].

Lemma quiet_Cache_Put env path body len lm : quiet (Cache_Put env path body len lm).
Proof. unfold Cache_Put. repeat quiet_step. Qed.

Lemma quiet_HeaderCache_PutHeaders env path h :
  quiet (HeaderCache_PutHeaders env path h).
Proof. unfold HeaderCache_PutHeaders. repeat quiet_step. Qed.

Lemma quiet_clientDo env req : quiet (clientDo env req).
Proof. unfold clientDo. repeat quiet_step. Qed.

Lemma quiet_acquireLock path : quiet (acquireLock path).
Proof. unfold acquireLock. repeat quiet_step. Qed.

Lemma quiet_waitOn env path : quiet (waitOn env path).
Proof. unfold waitOn. repeat quiet_step. Qed.

#[local] Hint Resolve quiet_Cache_Put quiet_HeaderCache_PutHeaders quiet_clientDo
  quiet_acquireLock quiet_waitOn : quiet.

Section Quiet.
Context `{Platform}.

Lemma quiet_fetchAndUpdateCache env path originURL :
  quiet (fetchAndUpdateCache env path originURL).
Proof. unfold fetchAndUpdateCache. repeat quiet_step. Qed.

Lemma quiet_revalidate env r config content contentLength cachedHeaders
  lastModified useIfModifiedSince :
  quiet (revalidate env r config content contentLength cachedHeaders
           lastModified useIfModifiedSince).
Proof.
  unfold revalidate. pose proof quiet_fetchAndUpdateCache. repeat quiet_step.
Qed.

End Quiet.

(** ** The status of a cache hit *)

Lemma quiet_releaseLock path : quiet (releaseLock path).
Proof. unfold releaseLock. repeat quiet_step. Qed.

Lemma runDefers_rw ds s : rw (runDefers ds s) = rw s.
Proof.
  revert s. induction ds as [|p ds IH]; intros s; [done|].
  cbn [runDefers]. rewrite IH.
  by destruct (quiet_releaseLock p s) as (a & s' & -> & Hw).
Qed.

Lemma call_fst {A} (body : M A) s :
  fst (call body s) =
  fst (body {| shared := shared s; rw := rw s; defers := []; trace := trace s |}).
Proof. unfold call. by destruct (body _). Qed.

Lemma call_rw {A} (body : M A) s :
  rw (snd (call body s)) =
  rw (snd (body {| shared := shared s; rw := rw s; defers := []; trace := trace s |})).
Proof. unfold call. destruct (body _) as [a s1]. cbn [snd rw]. apply runDefers_rw. Qed.

Lemma call_status {A} (body : M A) s :
  responseStatus (call body s) =
  responseStatus (body {| shared := shared s; rw := rw s; defers := [];
                          trace := trace s |}).
Proof. unfold responseStatus. by rewrite call_fst, call_rw. Qed.

(** ** Steps only add to the trace *)

Lemma grows_ret {A} (a : A) : grows (mret a).
Proof. intros s. exists []. by rewrite app_nil_r. Qed.

Lemma grows_panic {A} : grows (panic (A := A)).
Proof. intros s. exists []. by rewrite app_nil_r. Qed.

Lemma grows_bind {A B} (m : M A) (f : A -> M B) :
  grows m -> (forall a, grows (f a)) -> grows (m ≫= f).
Proof.
  intros Hm Hf s. rewrite bind_run. destruct (Hm s) as [t1 Ht1].
  destruct (m s) as [[a|] s1]; cbn [snd] in *.
  - destruct (Hf a s1) as [t2 Ht2]. exists (t1 ++ t2)%list.
    by rewrite Ht2, Ht1, app_assoc.
  - by exists t1.
Qed.

Lemma grows_emit e : grows (emit e).
Proof. intros s. by exists [e]. Qed.

Lemma grows_log msg : grows (log msg).
Proof. apply grows_emit. Qed.

Lemma grows_when b (m : M unit) : grows m -> grows (when b m).
Proof. destruct b; [done | intros _; apply grows_ret]. Qed.

Lemma grows_get_shared : grows get_shared.
Proof. intros s. exists []. by rewrite app_nil_r. Qed.

Lemma grows_put_shared sh : grows (put_shared sh).
Proof. intros s. exists []. by rewrite app_nil_r. Qed.

Lemma grows_get_rw : grows get_rw.
Proof. intros s. exists []. by rewrite app_nil_r. Qed.

Lemma grows_put_rw w : grows (put_rw w).
Proof. intros s. exists []. by rewrite app_nil_r. Qed.

Lemma grows_deferRelease path : grows (deferRelease path).
Proof. intros s. exists []. by rewrite app_nil_r. Qed.

Create HintDb grows.
#[local] Hint Resolve grows_ret grows_panic grows_emit grows_log grows_when
  grows_get_shared grows_put_shared grows_get_rw grows_put_rw
  grows_deferRelease : grows.

Ltac grows_step :=
  first
    [ solve [auto with grows]
    | match goal with
      | |- grows (if ?b then _ else _) => destruct b
      | |- grows (match ?x with _ => _ end) => destruct x
      | |- grows (let _ := _ in _) => cbv zeta
      end
    | apply grows_bind; [|intros ?] ].

Lemma grows_WriteHeader code : grows (WriteHeader code).
Proof. unfold WriteHeader. repeat grows_step. Qed.

Lemma grows_Write data : grows (Write data).
Proof. unfold Write. repeat grows_step. Qed.

#[local] Hint Resolve grows_WriteHeader grows_Write : grows.

Lemma grows_ioCopy src : grows (ioCopy src).
Proof. unfold ioCopy. repeat grows_step. Qed.

Lemma grows_setHeader key value : grows (setHeader key value).
Proof. unfold setHeader. repeat grows_step. Qed.

Lemma grows_addHeaders src : grows (addHeaders src).
Proof. unfold addHeaders. repeat grows_step. Qed.

Lemma grows_Cache_Put env path body len lm : grows (Cache_Put env path body len lm).
Proof. unfold Cache_Put. repeat grows_step. Qed.

Lemma grows_HeaderCache_PutHeaders env path h :
  grows (HeaderCache_PutHeaders env path h).
Proof. unfold HeaderCache_PutHeaders. repeat grows_step. Qed.

Lemma grows_clientDo env req : grows (clientDo env req).
Proof. unfold clientDo. repeat grows_step. Qed.

Lemma grows_acquireLock path : grows (acquireLock path).
Proof. unfold acquireLock. repeat grows_step. Qed.

Lemma grows_releaseLock path : grows (releaseLock path).
Proof. unfold releaseLock. repeat grows_step. Qed.

Lemma grows_waitOn env path : grows (waitOn env path).
Proof. unfold waitOn. repeat grows_step. Qed.

#[local] Hint Resolve grows_ioCopy grows_setHeader grows_addHeaders grows_Cache_Put
  grows_HeaderCache_PutHeaders grows_clientDo grows_acquireLock
  grows_releaseLock grows_waitOn : grows.

Lemma runDefers_grows ds s : exists t, trace (runDefers ds s) = (trace s ++ t)%list.
Proof.
  revert s. induction ds as [|p ds IH]; intros s; cbn [runDefers].
  - exists []. by rewrite app_nil_r.
  - destruct (grows_releaseLock p s) as [t1 Ht1].
    destruct (IH (snd (releaseLock p s))) as [t2 Ht2].
    exists (t1 ++ t2)%list. by rewrite Ht2, Ht1, app_assoc.
Qed.

Lemma grows_call {A} (body : M A) : grows body -> grows (call body).
Proof.
  intros Hb s. unfold call.
  destruct (Hb {| shared := shared s; rw := rw s; defers := []; trace := trace s |})
    as [t1 Ht1].
  destruct (body _) as [a s1]. cbn [snd trace] in *.
  destruct (runDefers_grows (defers s1) s1) as [t2 Ht2].
  exists (t1 ++ t2)%list. by rewrite Ht2, Ht1, app_assoc.
Qed.

Lemma originRequests_snoc (l : list Event) (e : Event) :
  originRequests (l ++ [e]) =
  (originRequests l ++ match e with EOrigin req => [req] | _ => [] end)%list.
Proof. unfold originRequests. rewrite omap_app. by destruct e. Qed.

Ltac origin_trace :=
  rewrite ?originRequests_snoc; cbv iota; rewrite ?app_nil_r, <- ?app_assoc;
  try reflexivity.

Ltac in_trace :=
  repeat first [ solve [apply in_or_app; right; cbn; tauto]
               | apply in_or_app; left ].

Section CacheHit.
Context `{Platform}.

Lemma writeContent_status_fresh r content contentLength s :
  rw_wroteHeader (rw s) = false ->
  responseStatus (writeContent r content contentLength s) <> Some 304%Z.
Proof.
  destruct s as [sh [hd wr st se bo ih] ds tr]. cbn [rw rw_wroteHeader]. intros ->.
  unfold writeContent, responseStatus. mrun.
  destruct (String.eqb (Method r) "HEAD"); mrun; [done|].
  destruct content as [[|b data]|]; mrun; try done.
  change (bodyAllowedForStatus 200) with true. cbv iota.
  destruct ih; mrun; done.
Qed.

Lemma writeContent_status_written r content contentLength s :
  rw_wroteHeader (rw s) = true ->
  responseStatus (writeContent r content contentLength s) = Some (rw_status (rw s)).
Proof.
  destruct s as [sh [hd wr st se bo ih] ds tr]. cbn [rw rw_wroteHeader]. intros ->.
  unfold writeContent, responseStatus. mrun.
  destruct (String.eqb (Method r) "HEAD"); mrun; [done|].
  destruct content as [[|b data]|]; mrun; try done.
  destruct (bodyAllowedForStatus st); mrun; [|done].
  destruct ih; mrun; done.
Qed.

Lemma clientConditional_run r h lastModified s T :
  Hdr.Get (ReqHeader r) "If-Modified-Since" <> "" ->
  parseHTTPTime (Hdr.Get (ReqHeader r) "If-Modified-Since") = Some T ->
  clientConditional r h lastModified true s =
  if decide (authoritativeLastModified (Some h) lastModified <= T)%Z
  then (Val true, {| shared := shared s; rw := rwWriteHeader 304 (rw s);
                     defers := defers s;
                     trace := (trace s ++ [EWriteHeader 304])%list |})
  else (Val false, s).
Proof.
  intros Hne HT. unfold clientConditional, authoritativeLastModified.
  rewrite (nonEmpty_true _ Hne), HT. cbn [andb].
  match goal with |- context [After ?t T] => set (lm := t) end.
  pose proof (After_le lm T) as Hiff.
  destruct (negb (After lm T)); destruct (decide (lm <= T)%Z) as [Hle|Hgt];
    try done.
  - by destruct Hgt; apply Hiff.
  - by apply Hiff in Hle.
Qed.

Lemma setBasicHeaders_run r lastModified s T :
  Hdr.Get (ReqHeader r) "If-Modified-Since" <> "" ->
  parseHTTPTime (Hdr.Get (ReqHeader r) "If-Modified-Since") = Some T ->
  rw_wroteHeader (rw s) = false ->
  exists s', setBasicHeaders r None lastModified true s = (Val tt, s')
    /\ if decide (lastModified <= T)%Z
       then rw_wroteHeader (rw s') = true /\ rw_status (rw s') = 304%Z
       else rw_wroteHeader (rw s') = false.
Proof.
  destruct s as [sh [hd wr st se bo ih] ds tr]. cbn [rw rw_wroteHeader].
  intros Hne HT ->. unfold setBasicHeaders.
  rewrite (nonEmpty_true _ Hne), HT.
  pose proof (After_le lastModified T) as Hiff.
  destruct (negb (After lastModified T)); destruct (decide (lastModified <= T)%Z)
    as [Hle|Hgt];
    try (by apply Hiff in Hle); try (by destruct Hgt; apply Hiff);
    destruct (HasSuffix (URLPath r) "/"); mrun; by eexists.
Qed.

(** C2: on a cache hit handled with [useIfModifiedSince = true], when the
    client sent an [If-Modified-Since] that parses to [T], the response
    status is 304 exactly when the authoritative [Last-Modified] (the
    cached header when it parses, the timestamp of the blob otherwise) is
    not after [T]; equal instants give 304. *)
Theorem hit_304_iff_not_modified env config r content contentLength lastModified s T :
  Hdr.Get (ReqHeader r) "If-Modified-Since" <> "" ->
  parseHTTPTime (Hdr.Get (ReqHeader r) "If-Modified-Since") = Some T ->
  rw_wroteHeader (rw s) = false ->
  responseStatus
    (handleCacheHit env r config content contentLength lastModified true s)
    = Some 304%Z
  <-> (authoritativeLastModified (headerStore (shared s) !! URLPath r) lastModified
       <= T)%Z.
Proof.
  intros Hne HT Hw. unfold handleCacheHit. rewrite call_status.
  destruct s as [[bl hs ip] [hd wr st se bo ih] ds tr].
  cbn [shared rw trace headerStore rw_wroteHeader] in *. subst wr. mrun.
  destruct (hs !! URLPath r) as [h|]; mrun.
  - rewrite (clientConditional_run _ _ _ _ T Hne HT).
    destruct (decide _) as [Hle|Hgt]; mrun.
    + unfold responseStatus. by mrun.
    + split; [|done]. intros Hst. exfalso. revert Hst.
      match goal with |- context [revalidate ?a ?b ?c ?d ?e ?f ?g ?h ?s] =>
        destruct (quiet_revalidate a b c d e f g h s)
          as ([[c' l'] h'] & s1 & -> & Hrw) end.
      mrun. apply writeContent_status_fresh. cbn [rw] in *.
      destruct s1 as [sh1 w1 ds1 tr1]. cbn [rw] in Hrw. by subst w1.
  - match goal with |- context [setBasicHeaders ?a ?b ?c ?d ?s] =>
      destruct (setBasicHeaders_run a c s T Hne HT eq_refl) as (s' & -> & Hs') end.
    cbn [authoritativeLastModified]. destruct (decide _) as [Hle|Hgt].
    + destruct Hs' as [Hw' Hst']. rewrite writeContent_status_written by done.
      by rewrite Hst'.
    + split; [|done]. intros Hst. by apply writeContent_status_fresh in Hst.
Qed.

(** The copy loop over a header map, key by key. *)
Lemma foldl_Add_lookup (key : string) (values : list string)
  (acc : gmap string (list string)) (k : string) :
  foldl (fun a value => Hdr.Add key value a) acc values !! k =
  if decide (key = k) then
    match values with
    | [] => acc !! k
    | _ :: _ => Some (default [] (acc !! k) ++ values)%list
    end
  else acc !! k.
Proof.
  revert acc. induction values as [|v vs IH]; intros acc; cbn [foldl].
  - by destruct (decide _).
  - rewrite IH. unfold Hdr.Add. destruct (decide (key = k)) as [->|Hne].
    + rewrite lookup_insert_eq. simpl.
      destruct vs; [done|]. by rewrite <- app_assoc.
    + destruct vs; by rewrite lookup_insert_ne.
Qed.

Lemma AddAll_lookup (src dst : gmap string (list string)) (k : string) :
  Hdr.AddAll src dst !! k =
  match src !! k with
  | Some (v :: vs) => Some (default [] (dst !! k) ++ v :: vs)%list
  | _ => dst !! k
  end.
Proof.
  unfold Hdr.AddAll. revert k.
  apply (map_fold_weak_ind (fun res (m : gmap string (list string)) =>
    forall k, res !! k =
      match m !! k with
      | Some (v :: vs) => Some (default [] (dst !! k) ++ v :: vs)%list
      | _ => dst !! k
      end)).
  - intros k. by rewrite lookup_empty.
  - intros i x m res Hi IH k. rewrite foldl_Add_lookup.
    destruct (decide (i = k)) as [->|Hne].
    + rewrite lookup_insert_eq. rewrite IH, Hi. by destruct x.
    + rewrite lookup_insert_ne by done. apply IH.
Qed.

Lemma clientConditional_skip r h lastModified useIfModifiedSince s :
  (forall T, Hdr.Get (ReqHeader r) "If-Modified-Since" <> "" ->
     parseHTTPTime (Hdr.Get (ReqHeader r) "If-Modified-Since") = Some T ->
     (T < authoritativeLastModified (Some h) lastModified)%Z) ->
  clientConditional r h lastModified useIfModifiedSince s = (Val false, s).
Proof.
  intros Hnot. unfold clientConditional.
  destruct useIfModifiedSince; [|done]. cbn [andb].
  destruct (nonEmpty _) eqn:Hne; [|done].
  destruct (parseHTTPTime (Hdr.Get (ReqHeader r) _)) as [T|] eqn:HT; [|done].
  assert (Hdr.Get (ReqHeader r) "If-Modified-Since" <> "") as Hne'.
  { intros Heq. rewrite Heq in Hne. discriminate. }
  specialize (Hnot T Hne' eq_refl). unfold authoritativeLastModified in Hnot.
  match goal with |- context [After ?t T] => set (lm := t) in * end.
  pose proof (After_le lm T) as Hiff.
  destruct (negb (After lm T)); [|done].
  assert (lm <= T)%Z by by apply Hiff. lia.
Qed.

(** C9: when the revalidation HEAD of a cache hit ends in a transport
    error, the handler returns normally with status 200, the cached body
    (none for a HEAD request) and the cached headers, [Content-Length]
    being set to the cached length; the two caches and the registry are
    left as they were, the HEAD request is the only one sent to the origin
    and the failure is logged. *)
Theorem revalidation_fails_open env config r body contentLength lastModified s h :
  headerStore (shared s) !! URLPath r = Some h ->
  rw s = newResponseWriter r ->
  shouldValidateWithOrigin (URLPath r) = true ->
  newRequestOk "HEAD" (OriginServer config ++ URLPath r) = true ->
  (forall T, Hdr.Get (ReqHeader r) "If-Modified-Since" <> "" ->
     parseHTTPTime (Hdr.Get (ReqHeader r) "If-Modified-Since") = Some T ->
     (T < authoritativeLastModified (Some h) lastModified)%Z) ->
  originDo env (revalidationRequest (OriginServer config ++ URLPath r) h lastModified)
    = None ->
  let out := handleCacheHit env r config (Some body) contentLength lastModified
               true s in
  fst out = Val true
  /\ responseStatus out = Some 200%Z
  /\ responseBody out = (if String.eqb (Method r) "HEAD" then [] else body)
  /\ (forall k, responseHeader out !! k =
        if decide (k = "Content-Length") then Some [pretty contentLength]
        else match h !! k with
             | Some (v :: vs) => Some (v :: vs)
             | _ => None
             end)
  /\ shared (snd out) = shared s
  /\ originRequests (trace (snd out)) =
       (originRequests (trace s) ++
        [revalidationRequest (OriginServer config ++ URLPath r) h lastModified])%list
  /\ In (ELog "Error checking with upstream") (trace (snd out)).
Proof.
  intros Hh Hrw Hval Hreq Hnot Horigin out. subst out.
  destruct s as [[bl hs ip] w ds tr]. cbn [shared rw headerStore trace] in *.
  subst w. unfold handleCacheHit, newResponseWriter. mrun. rewrite Hh. mrun.
  rewrite (clientConditional_skip _ _ _ _ _ Hnot). mrun.
  unfold revalidate. rewrite Hval, Hreq. cbn [andb]. mrun.
  rewrite Horigin. mrun.
  assert (forall k0, (<["Content-Length" := [pretty contentLength]]>
            (Hdr.AddAll h ∅) : gmap string (list string)) !! k0 =
          if decide (k0 = "Content-Length") then Some [pretty contentLength]
          else match h !! k0 with
               | Some (v :: vs) => Some (v :: vs)
               | _ => None
               end) as Hhdr.
  { intros k0. destruct (decide (k0 = "Content-Length")) as [->|Hne].
    - by rewrite lookup_insert_eq.
    - rewrite lookup_insert_ne by done. rewrite AddAll_lookup, lookup_empty.
      by destruct (h !! k0) as [[|? ?]|]. }
  unfold writeContent, responseStatus, responseBody, responseHeader. mrun.
  destruct (String.eqb (Method r) "HEAD") eqn:Hm; mrun.
  - split_and!; try done; [origin_trace | in_trace].
  - destruct body as [|b body]; mrun.
    + split_and!; try done; [origin_trace | in_trace].
    + change (bodyAllowedForStatus 200) with true. mrun.
      split_and!; try done; [origin_trace | in_trace].
Qed.

Lemma grows_fetchAndUpdateCache env path originURL :
  grows (fetchAndUpdateCache env path originURL).
Proof. unfold fetchAndUpdateCache. repeat grows_step. Qed.

Lemma grows_writeContent r content contentLength :
  grows (writeContent r content contentLength).
Proof. unfold writeContent. repeat grows_step. Qed.

Lemma clientDo_run env req s :
  clientDo env req s =
  (Val (originDo env req),
   {| shared := shared s; rw := rw s; defers := defers s;
      trace := (trace s ++ [EOrigin req])%list |}).
Proof. reflexivity. Qed.

(** Once the validation applies and the request can be built, the first
    thing [revalidate] does is to send the HEAD request. *)
Lemma revalidate_sends_head env r config content contentLength h lastModified s :
  shouldValidateWithOrigin (URLPath r) = true ->
  newRequestOk "HEAD" (OriginServer config ++ URLPath r) = true ->
  exists t,
    trace (snd (revalidate env r config content contentLength h lastModified true s))
    = (trace s ++
       EOrigin (revalidationRequest (OriginServer config ++ URLPath r) h lastModified)
       :: t)%list.
Proof.
  intros Hval Hreq. unfold revalidate. rewrite Hval, Hreq. cbn [andb].
  set (req := revalidationRequest _ _ _).
  destruct s as [sh w ds tr]. rewrite bind_run, clientDo_run. cbn [shared rw defers trace].
  match goal with |- context [?k {| shared := sh; rw := w; defers := ds;
                                     trace := (tr ++ [EOrigin req])%list |}] =>
    assert (grows k) as Hk end.
  { pose proof grows_fetchAndUpdateCache. repeat grows_step. }
  destruct (Hk {| shared := sh; rw := w; defers := ds;
                  trace := (tr ++ [EOrigin req])%list |}) as [t Ht].
  exists t. rewrite Ht. cbn [trace]. by rewrite <- app_assoc.
Qed.

Lemma GetHeaders_run path s :
  HeaderCache_GetHeaders path s =
  (Val (headerStore (shared s) !! path),
   {| shared := shared s; rw := rw s; defers := defers s;
      trace := (trace s ++ [EHeaderGet path])%list |}).
Proof. reflexivity. Qed.

(** C8, as the code has it: on a cache hit whose headers are cached, handled
    with [useIfModifiedSince = true], for a path that
    [shouldValidateWithOrigin] accepts, when the client was not answered
    304 and the request can be built, the first request sent to the origin
    is a HEAD to the origin URL of the path, with [If-Modified-Since] set
    to the cached [Last-Modified] header, or to the formatted timestamp of
    the blob when that header is empty, and with the fixed [User-Agent]. *)
Theorem revalidation_head_request env config r content contentLength lastModified
  s h :
  headerStore (shared s) !! URLPath r = Some h ->
  shouldValidateWithOrigin (URLPath r) = true ->
  newRequestOk "HEAD" (OriginServer config ++ URLPath r) = true ->
  (forall T, Hdr.Get (ReqHeader r) "If-Modified-Since" <> "" ->
     parseHTTPTime (Hdr.Get (ReqHeader r) "If-Modified-Since") = Some T ->
     (T < authoritativeLastModified (Some h) lastModified)%Z) ->
  exists later,
    originRequests
      (trace (snd (handleCacheHit env r config content contentLength lastModified
                     true s)))
    = (originRequests (trace s) ++
       {| oMethod := "HEAD";
          oURL := OriginServer config ++ URLPath r;
          oHeader :=
            <["User-Agent" := ["Go-APT-Cache/1.0"]]>
              (<["If-Modified-Since" :=
                   [if nonEmpty (Hdr.Get h "Last-Modified")
                    then Hdr.Get h "Last-Modified"
                    else formatHTTPTime lastModified]]> ∅) |}
       :: later)%list.
Proof.
  intros Hh Hval Hreq Hnot.
  assert (exists t,
    trace (snd (handleCacheHit env r config content contentLength lastModified
                  true s))
    = (trace s ++ EHeaderGet (URLPath r) ::
       EOrigin (revalidationRequest (OriginServer config ++ URLPath r) h lastModified)
       :: t)%list) as [t Ht].
  { unfold handleCacheHit, call.
    set (s0 := {| shared := shared s; rw := rw s; defers := []; trace := trace s |}).
    rewrite bind_run, GetHeaders_run. subst s0. cbn [shared rw defers trace].
    rewrite Hh, bind_run, (clientConditional_skip _ _ _ _ _ Hnot), bind_run.
    match goal with |- context [revalidate ?a ?b ?c ?d ?e ?f ?g ?i ?s1] =>
      destruct (quiet_revalidate a b c d e f g i s1) as (a1 & s2 & Hrun & _);
      destruct (revalidate_sends_head a b c d e f g s1 Hval Hreq) as [t1 Ht1];
      rewrite Hrun in Ht1 |- * end.
    cbn [snd trace] in Ht1. destruct a1 as [[c1 l1] h1].
    assert (grows (addHeaders h1;; writeContent r c1 l1)) as Hk.
    { pose proof grows_writeContent. repeat grows_step. }
    destruct (Hk s2) as [t2 Ht2]. cbv beta iota.
    destruct ((addHeaders h1;; writeContent r c1 l1) s2) as [res s3].
    cbn [snd] in *.
    destruct (runDefers_grows (defers s3) s3) as [t3 Ht3].
    exists (t1 ++ t2 ++ t3)%list. rewrite Ht3, Ht2, Ht1.
    by rewrite <- !app_assoc. }
  exists (originRequests t). rewrite Ht. unfold originRequests.
  rewrite omap_app. cbn [omap]. unfold revalidationRequest.
  by destruct (nonEmpty _).
Qed.

(** ** Taking and dropping the ticket *)

Lemma acquireLock_free path s :
  path ∉ inProgress (shared s) ->
  acquireLock path s =
  (Val true,
   {| shared := setInProgress ({[path]} ∪ inProgress (shared s)) (shared s);
      rw := rw s; defers := defers s;
      trace := (trace s ++ [EAcquire path true])%list |}).
Proof.
  intros Hfree. unfold acquireLock. rewrite bind_run. cbn [get_shared].
  destruct (decide _) as [|_]; [done|].
  rewrite bind_run. cbn [get_shared].
  destruct (decide _) as [|_]; [done|]. reflexivity.
Qed.

Lemma releaseLock_held path s :
  path ∈ inProgress (shared s) ->
  releaseLock path s =
  (Val tt,
   {| shared := setInProgress (inProgress (shared s) ∖ {[path]}) (shared s);
      rw := rw s; defers := defers s;
      trace := (trace s ++ [ERelease path])%list |}).
Proof.
  intros Hheld. unfold releaseLock. rewrite bind_run. cbn [get_shared].
  destruct (decide _) as [_|]; [|done]. reflexivity.
Qed.

End CacheHit.

(** ** The length a cache hit declares *)

Lemma yields_ret {A} (P : A -> Prop) (a : A) : P a -> yields P (mret a).
Proof. intros HP s. by exists a, s. Qed.

Lemma yields_bind {A B} (P : B -> Prop) (m : M A) (f : A -> M B) :
  quiet m -> (forall a, yields P (f a)) -> yields P (m ≫= f).
Proof.
  intros Hm Hf s. destruct (Hm s) as (a & s1 & Hr & Hw).
  destruct (Hf a s1) as (b & s2 & Hr2 & Hw2 & HP).
  exists b, s2. rewrite bind_run, Hr, Hr2. split_and!; [done | congruence | done].
Qed.

Ltac yields_step :=
  first
    [ apply yields_ret; done
    | match goal with
      | |- yields _ (if ?b then _ else _) => destruct b
      | |- yields _ (match ?x with _ => _ end) => destruct x
      | |- yields _ (let _ := _ in _) => cbv zeta
      end
    | apply yields_bind; [solve [repeat quiet_step] | intros ?] ].

Section HitLength.
Context `{Platform}.

Lemma fetchAndUpdateCache_length env path originURL :
  yields lengthOK (fetchAndUpdateCache env path originURL).
Proof. unfold fetchAndUpdateCache. repeat yields_step. Qed.

Lemma revalidate_length env r config content contentLength h lastModified
  useIfModifiedSince :
  lengthOK (content, contentLength, h) ->
  yields lengthOK (revalidate env r config content contentLength h lastModified
                     useIfModifiedSince).
Proof.
  intros Hok. unfold revalidate.
  pose proof fetchAndUpdateCache_length as Hf.
  repeat first [ apply Hf | yields_step ].
Qed.

Lemma writeContent_length r body contentLength s :
  Method r = "GET" ->
  rw_wroteHeader (rw s) = false -> rw_isHead (rw s) = false -> rw_body (rw s) = [] ->
  contentLength = Z.of_nat (length body) ->
  responseHeader (writeContent r (Some body) contentLength s) !! "Content-Length"
  = Some [pretty (Z.of_nat (length (responseBody
                     (writeContent r (Some body) contentLength s))))].
Proof.
  destruct s as [sh [hd wr st se bo ih] ds tr]. cbn [rw rw_wroteHeader rw_isHead rw_body].
  intros Hm -> -> -> ->. unfold writeContent, responseHeader, responseBody.
  rewrite Hm. change (String.eqb "GET" "HEAD") with false. mrun.
  destruct body as [|b body]; mrun.
  - unfold Hdr.Set_. by rewrite lookup_insert_eq.
  - change (bodyAllowedForStatus 200) with true. mrun.
    unfold Hdr.Set_. by rewrite lookup_insert_eq.
Qed.

Lemma clientConditional_cases r h lastModified useIfModifiedSince s :
  rw_wroteHeader (rw s) = false ->
  clientConditional r h lastModified useIfModifiedSince s = (Val false, s)
  \/ exists s', clientConditional r h lastModified useIfModifiedSince s = (Val true, s')
       /\ rw_wroteHeader (rw s') = true /\ rw_status (rw s') = 304%Z.
Proof.
  intros Hw. unfold clientConditional.
  destruct (_ && _)%bool; [|by left].
  destruct (parseHTTPTime _); [|by left].
  destruct (negb _); [|by left].
  right. destruct s as [sh [hd wr st se bo ih] ds tr]. cbn [rw rw_wroteHeader] in Hw.
  subst wr. mrun. by eexists.
Qed.

Lemma setBasicHeaders_cases r cached lastModified useIfModifiedSince s :
  rw_wroteHeader (rw s) = false ->
  exists s', setBasicHeaders r cached lastModified useIfModifiedSince s = (Val tt, s')
    /\ ((rw_wroteHeader (rw s') = false /\ rw_isHead (rw s') = rw_isHead (rw s)
         /\ rw_body (rw s') = rw_body (rw s))
        \/ (rw_wroteHeader (rw s') = true /\ rw_status (rw s') = 304%Z)).
Proof.
  destruct s as [sh [hd wr st se bo ih] ds tr]. cbn [rw rw_wroteHeader rw_isHead rw_body].
  intros ->. unfold setBasicHeaders.
  destruct (HasSuffix (URLPath r) "/"); mrun;
    (destruct useIfModifiedSince; [|eexists; split; [reflexivity|]; by left]);
    (destruct (nonEmpty (Hdr.Get (ReqHeader r) "If-Modified-Since"));
       [|eexists; split; [reflexivity|]; by left]);
    (destruct (parseHTTPTime _); [|eexists; split; [reflexivity|]; by left]);
    (destruct (negb _); mrun; eexists; (split; [reflexivity|]); [by right | by left]).
Qed.

Lemma writeContent_nil_panics r contentLength s :
  Method r = "GET" ->
  rw_wroteHeader (rw s) = false ->
  responseStatus (writeContent r None contentLength s) = None.
Proof.
  destruct s as [sh [hd wr st se bo ih] ds tr]. cbn [rw rw_wroteHeader].
  intros Hm ->. unfold writeContent, responseStatus. rewrite Hm.
  change (String.eqb "GET" "HEAD") with false. by mrun.
Qed.

Lemma call_header {A} (body : M A) s :
  responseHeader (call body s) =
  responseHeader (body {| shared := shared s; rw := rw s; defers := [];
                          trace := trace s |}).
Proof. unfold responseHeader. by rewrite call_rw. Qed.

Lemma call_body {A} (body : M A) s :
  responseBody (call body s) =
  responseBody (body {| shared := shared s; rw := rw s; defers := [];
                        trace := trace s |}).
Proof. unfold responseBody. by rewrite call_rw. Qed.

(** X25: on the hit path the [Content-Length] of a 200 answer to a GET is
    the number of body bytes served, whatever the cached headers or the
    origin declare, as long as the blob cache hands out the length of its
    body. *)
Lemma hit_content_length env config r body lastModified useIfModifiedSince s :
  Method r = "GET" ->
  rw s = newResponseWriter r ->
  responseStatus
    (handleCacheHit env r config (Some body) (Z.of_nat (length body)) lastModified
       useIfModifiedSince s) = Some 200%Z ->
  responseHeader
    (handleCacheHit env r config (Some body) (Z.of_nat (length body)) lastModified
       useIfModifiedSince s) !! "Content-Length"
  = Some [pretty (Z.of_nat (length (responseBody
       (handleCacheHit env r config (Some body) (Z.of_nat (length body))
          lastModified useIfModifiedSince s))))].
Proof.
  intros Hm Hrw. unfold handleCacheHit.
  rewrite call_status, call_header, call_body.
  destruct s as [sh w ds tr]. cbn [shared rw trace] in *. subst w.
  rewrite !bind_run, GetHeaders_run. cbn [shared rw defers trace].
  unfold newResponseWriter. rewrite Hm. change (String.eqb "GET" "HEAD") with false.
  destruct (headerStore sh !! URLPath r) as [h|].
  - rewrite !bind_run.
    match goal with |- context [clientConditional ?a ?b ?c ?d ?s0] =>
      destruct (clientConditional_cases a b c d s0 eq_refl)
        as [->|(s' & -> & Hw & Hst)] end.
    + rewrite !bind_run.
      match goal with |- context [revalidate ?a ?b ?c ?d ?e ?f ?g ?i ?s0] =>
        destruct (revalidate_length a b c d e f g i eq_refl s0)
          as ([[c' l'] h'] & s1 & -> & Hrw1 & Hok) end.
      destruct s1 as [sh1 w1 ds1 tr1]. cbn [rw] in Hrw1. subst w1.
      rewrite !bind_run. unfold addHeaders at 1 2 3. mrun.
      destruct c' as [b'|].
      * intros _. cbn [lengthOK] in Hok. by apply writeContent_length.
      * intros Hst. by rewrite writeContent_nil_panics in Hst.
    + cbv beta iota. rewrite ret_run.
      unfold responseStatus. cbn [fst snd]. rewrite Hw, Hst. discriminate.
  - rewrite !bind_run.
    match goal with |- context [setBasicHeaders ?a ?b ?c ?d ?s0] =>
      destruct (setBasicHeaders_cases a b c d s0 eq_refl)
        as (s' & -> & [(Hw & Hh & Hb)|(Hw & Hst)]) end.
    + intros _. by apply writeContent_length.
    + rewrite writeContent_status_written by done. rewrite Hst. discriminate.
Qed.

End HitLength.

(** ** Where the two paths part from the specification *)

Section Shortfalls.
Context `{Platform}.

Lemma acquireLock_busy path s :
  path ∈ inProgress (shared s) ->
  acquireLock path s =
  (Val false,
   {| shared := shared s; rw := rw s; defers := defers s;
      trace := (trace s ++ [EAcquire path false])%list |}).
Proof.
  intros Hbusy. unfold acquireLock. rewrite bind_run. cbn [get_shared].
  destruct (decide _) as [_|]; [|done]. reflexivity.
Qed.

Lemma fetchAndUpdateCache_fails env path originURL s :
  newRequestOk "GET" originURL = true ->
  originDo env {| oMethod := "GET"; oURL := originURL;
                  oHeader := <["User-Agent" := ["Go-APT-Cache/1.0"]]> ∅ |} = None ->
  exists s', fetchAndUpdateCache env path originURL s = (Val (None, 0%Z, ∅), s')
    /\ rw s' = rw s.
Proof.
  intros Hreq Horigin. unfold fetchAndUpdateCache. rewrite Hreq. cbn [negb].
  rewrite bind_run, clientDo_run.
  change (Hdr.Set_ "User-Agent" userAgent ∅)
    with (<["User-Agent" := ["Go-APT-Cache/1.0"]]> (∅ : gmap string (list string))).
  rewrite Horigin. destruct s as [sh w ds tr]. mrun. by eexists.
Qed.

Lemma refetch_fails env config r s :
  newRequestOk "GET" (OriginServer config ++ URLPath r) = true ->
  originDo env {| oMethod := "GET"; oURL := OriginServer config ++ URLPath r;
                  oHeader := <["User-Agent" := ["Go-APT-Cache/1.0"]]> ∅ |} = None ->
  exists s',
    (acquired ← acquireLock (URLPath r);
     (if (acquired : bool) then deferRelease (URLPath r)
      else waitOn env (URLPath r));;
     fetchAndUpdateCache env (URLPath r) (OriginServer config ++ URLPath r)) s
    = (Val (None, 0%Z, ∅), s')
    /\ rw s' = rw s.
Proof.
  intros Hget Hfail. rewrite bind_run.
  destruct (quiet_acquireLock (URLPath r) s) as (acquired & s1 & -> & Hrw1).
  rewrite bind_run.
  assert (quiet (if acquired then deferRelease (URLPath r)
                 else waitOn env (URLPath r))) as Hq
    by (destruct acquired; auto with quiet).
  destruct (Hq s1) as ([] & s2 & -> & Hrw2).
  destruct (fetchAndUpdateCache_fails env (URLPath r) _ s2 Hget Hfail)
    as (s3 & -> & Hrw3).
  exists s3. split; [done | congruence].
Qed.

(** A refetch that fails leaves [handleCacheHit] with a nil reader: for a
    GET the handler panics and no status is sent. *)
Lemma failed_refetch_panics env config r content contentLength lastModified s h
  resp :
  Method r = "GET" ->
  rw s = newResponseWriter r ->
  headerStore (shared s) !! URLPath r = Some h ->
  shouldValidateWithOrigin (URLPath r) = true ->
  newRequestOk "HEAD" (OriginServer config ++ URLPath r) = true ->
  newRequestOk "GET" (OriginServer config ++ URLPath r) = true ->
  (forall T, Hdr.Get (ReqHeader r) "If-Modified-Since" <> "" ->
     parseHTTPTime (Hdr.Get (ReqHeader r) "If-Modified-Since") = Some T ->
     (T < authoritativeLastModified (Some h) lastModified)%Z) ->
  originDo env (revalidationRequest (OriginServer config ++ URLPath r) h lastModified)
    = Some resp ->
  StatusCode resp = 200%Z ->
  originDo env {| oMethod := "GET"; oURL := OriginServer config ++ URLPath r;
                  oHeader := <["User-Agent" := ["Go-APT-Cache/1.0"]]> ∅ |} = None ->
  fst (handleCacheHit env r config content contentLength lastModified true s) = Panic
  /\ responseStatus
       (handleCacheHit env r config content contentLength lastModified true s) = None.
Proof.
  intros Hm Hrw Hh Hval Hhead Hget Hnot Hresp Hst Hfail.
  unfold responseStatus, handleCacheHit. rewrite call_fst, call_rw.
  destruct s as [sh w ds tr]. cbn [shared rw defers trace] in *. subst w.
  rewrite !bind_run, GetHeaders_run. cbn [shared rw defers trace]. rewrite Hh.
  rewrite !bind_run, (clientConditional_skip _ _ _ _ _ Hnot), !bind_run.
  unfold revalidate. rewrite Hval, Hhead. cbn [andb].
  rewrite !bind_run, clientDo_run, Hresp, Hst.
  change (200 =? 304)%Z with false. change (200 =? 200)%Z with true.
  cbv iota. rewrite !bind_run. cbn [log emit shared rw defers trace].
  match goal with |- context [mbind _ (acquireLock _) ?s0] =>
    destruct (refetch_fails env config r s0 Hget Hfail) as (s1 & -> & Hrw1) end.
  destruct s1 as [sh1 w1 ds1 tr1]. cbn [rw] in Hrw1. subst w1.
  unfold addHeaders, writeContent, newResponseWriter. rewrite Hm.
  change (String.eqb "GET" "HEAD") with false. by mrun.
Qed.

(** With the headers not cached, a GET whose [If-Modified-Since] is not
    before the blob's timestamp gets the status 304 from [setBasicHeaders],
    and then the cached body is handed to [w.Write]. *)
Lemma degraded_304_then_write env config r b body contentLength lastModified s T :
  Method r = "GET" ->
  rw s = newResponseWriter r ->
  headerStore (shared s) !! URLPath r = None ->
  Hdr.Get (ReqHeader r) "If-Modified-Since" <> "" ->
  parseHTTPTime (Hdr.Get (ReqHeader r) "If-Modified-Since") = Some T ->
  (lastModified <= T)%Z ->
  trace (snd (handleCacheHit env r config (Some (b :: body)) contentLength
                lastModified true s))
  = (trace s ++ [EHeaderGet (URLPath r); EWriteHeader 304; EWrite (b :: body);
                 ELog "Error writing response"])%list.
Proof.
  intros Hm Hrw Hh Hne HT Hle.
  destruct s as [[bl hs ip] w ds tr]. cbn [shared rw headerStore trace] in *. subst w.
  unfold handleCacheHit, newResponseWriter. rewrite Hm.
  change (String.eqb "GET" "HEAD") with false. mrun. rewrite Hh. mrun.
  unfold setBasicHeaders. rewrite (nonEmpty_true _ Hne), HT.
  assert (negb (After lastModified T) = true) as -> by by apply After_le.
  unfold writeContent. rewrite Hm. change (String.eqb "GET" "HEAD") with false.
  destruct (HasSuffix (URLPath r) "/"); mrun;
    change (bodyAllowedForStatus 304) with false; mrun;
    by rewrite <- !app_assoc.
Qed.

(** On the miss path the [Content-Length] of a 200 answer is the one the
    origin declared in its headers, if any: the body plays no part. *)
Lemma miss_content_length_forwarded env config r useIfModifiedSince resp s :
  StatusCode resp = 200%Z ->
  bodyErr resp = false ->
  Method r = "GET" ->
  rw s = newResponseWriter r ->
  URLPath r ∉ inProgress (shared s) ->
  newRequestOk (Method r) (OriginServer config ++ URLPath r) = true ->
  originDo env (missRequest r (OriginServer config ++ URLPath r) useIfModifiedSince)
    = Some resp ->
  responseHeader (handleCacheMiss env r config useIfModifiedSince s)
    !! "Content-Length"
  = match RespHeader resp !! "Content-Length" with
    | Some (v :: vs) => Some (v :: vs)
    | _ => None
    end.
Proof.
  intros Hst Herr Hm Hrw Hfree Hreq Horigin.
  unfold handleCacheMiss. rewrite call_header.
  destruct s as [[bl hs ip] w ds tr]. cbn [shared rw inProgress] in *. subst w.
  unfold enterSingleFlight, newResponseWriter.
  rewrite !bind_run, acquireLock_free by done.
  rewrite Hm in *. change (String.eqb "GET" "HEAD") with false. mrun.
  rewrite Hreq. mrun. rewrite Horigin, Hst, Herr.
  change (200 =? 304)%Z with false. change (200 =? 200)%Z with true. mrun.
  assert (Hdr.AddAll (RespHeader resp) ∅ !! "Content-Length" =
          match RespHeader resp !! "Content-Length" with
          | Some (v :: vs) => Some (v :: vs)
          | _ => None
          end) as Hcopy.
  { rewrite AddAll_lookup, lookup_empty.
    by destruct (RespHeader resp !! "Content-Length") as [[|? ?]|]. }
  unfold responseHeader.
  destruct (cachePutFails env), (LogRequests config), (headerPutFails env); mrun.
  all: match goal with |- context [String.eqb ?x ""] =>
         destruct (String.eqb x "") end; mrun.
  all: try (destruct (nonEmpty (getContentType (URLPath r))); mrun).
  all: destruct (Body resp) as [|b body] eqn:Hb; mrun.
  all: change (bodyAllowedForStatus 200) with true; mrun.
  all: unfold Hdr.Set_; by rewrite ?lookup_insert_ne by done.
Qed.
End Shortfalls.

(** ** The single-flight registry: who holds the ticket *)

Section Tickets.
Import SingleFlight.

Lemma countThreads_insert (f : Thread -> bool) (l : list Thread) (i : nat)
  (t t' : Thread) :
  l !! i = Some t ->
  (countThreads f (<[i := t']> l) + (if f t then 1 else 0) =
   countThreads f l + (if f t' then 1 else 0))%nat.
Proof.
  revert i. induction l as [|x l IH]; intros [|i] Hi; try done.
  - injection Hi as ->. cbn. clear IH. destruct (f t), (f t'); lia.
  - specialize (IH i Hi). clear Hi.
    change (<[S i:=t']> (x :: l)) with (x :: <[i:=t']> l).
    cbn [countThreads]. destruct (f x); lia.
Qed.

Lemma countThreads_le (f g : Thread -> bool) (l : list Thread) :
  (forall t, f t = true -> g t = true) ->
  (countThreads f l <= countThreads g l)%nat.
Proof.
  intros Hfg. induction l as [|x l IH]; cbn; [lia|].
  destruct (f x) eqn:Hf; [rewrite (Hfg x Hf)|destruct (g x)]; cbn; lia.
Qed.

Lemma countThreads_none (f : Thread -> bool) (l : list Thread) :
  Forall (fun t => f t = false) l -> countThreads f l = 0%nat.
Proof. induction 1 as [|x l Hx _ IH]; cbn; [done|]. by rewrite Hx, IH. Qed.

Lemma holdsTicket_other path t pc :
  t_path t <> path -> holdsTicket path (at_pc pc t) = false.
Proof.
  intros Hne. unfold holdsTicket. cbn.
  by destruct (String.eqb_spec (t_path t) path).
Qed.

Lemma holdsTicket_other' path t :
  t_path t <> path -> holdsTicket path t = false.
Proof.
  intros Hne. unfold holdsTicket.
  by destruct (String.eqb_spec (t_path t) path).
Qed.

Lemma holdsTicket_own t : holdsTicket (t_path t) t = holderPC (t_pc t).
Proof. unfold holdsTicket. by rewrite String.eqb_refl. Qed.

Lemma holdsTicket_own_at t pc : holdsTicket (t_path t) (at_pc pc t) = holderPC pc.
Proof. unfold holdsTicket. cbn. by rewrite String.eqb_refl. Qed.

Lemma step_keeps_oneHolder i head200 s s' :
  oneHolderPerTicket s -> step i head200 s = Some s' -> oneHolderPerTicket s'.
Proof.
  intros Hinv Hstep path. unfold step in Hstep.
  destruct (threads s !! i) as [t|] eqn:Hi; [|done].
  destruct (stepThread head200 (reg s) (cachedPaths s) t) as [[[g c] pc]|] eqn:Hst;
    [|done].
  injection Hstep as <-. cbn [threads reg].
  pose proof (countThreads_insert (holdsTicket path) _ _ _ (at_pc pc t) Hi) as Hcount.
  pose proof (Hinv path) as Hp. pose proof (Hinv (t_path t)) as Hown.
  pose proof (countThreads_insert (holdsTicket (t_path t)) _ _ _ (at_pc pc t) Hi) as Hcown.
  destruct (decide (t_path t = path)) as [<-|Hne].
  - clear Hcown Hown. unfold stepThread in Hst.
    rewrite holdsTicket_own, holdsTicket_own_at in Hcount. clear Hi.
    destruct (t_pc t) as [| |ch|[|]|[|]|[|]| | |ch| | | | | | |]; cbn in Hst;
      repeat case_match; simplify_eq; cbn [holderPC] in Hcount;
      unfold insertTicket, release in *; cbn [tickets] in *;
      repeat case_match; simplify_eq; cbn [tickets] in *;
      rewrite ?lookup_insert_eq, ?lookup_delete_eq in *; simplify_eq; try lia.
  - rewrite (holdsTicket_other _ _ _ Hne), (holdsTicket_other' _ _ Hne) in Hcount.
    assert (tickets g !! path = tickets (reg s) !! path) as ->; [|lia].
    unfold stepThread in Hst.
    destruct (t_pc t) as [| |ch|[|]|[|]|[|]| | |ch| | | | | | |]; cbn in Hst;
      repeat case_match; simplify_eq; try done;
      unfold insertTicket, release in *; cbn [tickets] in *;
      repeat case_match; simplify_eq; cbn [tickets];
      by rewrite ?lookup_insert_ne, ?lookup_delete_ne by done.
Qed.

Lemma run_keeps_oneHolder schedule s s' :
  oneHolderPerTicket s -> run schedule s = Some s' -> oneHolderPerTicket s'.
Proof.
  revert s. induction schedule as [|[i b] rest IH]; intros s Hinv Hrun; cbn in Hrun.
  - by injection Hrun as <-.
  - destruct (step i b s) as [s1|] eqn:Hstep; [|done].
    eapply IH; [|done]. by eapply step_keeps_oneHolder.
Qed.

Lemma initial_oneHolder s : initial s -> oneHolderPerTicket s.
Proof.
  intros [Hreg Hpcs] path. rewrite Hreg, lookup_empty.
  apply countThreads_none. eapply Forall_impl; [done|].
  intros t Hpc. unfold holdsTicket. by destruct Hpc as [-> | ->], (String.eqb _ _).
Qed.

(** X7: requests that hold the ticket never fetch together: whatever the
    schedule, at most one thread has an origin GET for a path in flight
    while holding its ticket. *)
Lemma leaders_fetch_alone schedule s s' path :
  initial s -> run schedule s = Some s' ->
  (countThreads (leaderGetInFlight path) (threads s') <= 1)%nat.
Proof.
  intros Hinit Hrun.
  pose proof (run_keeps_oneHolder _ _ _ (initial_oneHolder _ Hinit) Hrun path) as Hone.
  etransitivity; [apply (countThreads_le _ (holdsTicket path))|].
  - intros t Ht. unfold leaderGetInFlight in Ht. by apply andb_true_iff in Ht as [_ ?].
  - rewrite Hone. destruct (tickets (reg s') !! path); lia.
Qed.

End Tickets.

(** ** The claims on concrete requests *)

Import Fixtures.

(** C2, witness: the entry and the client both carry 1 January 2024. *)
Lemma hit_304_iff_not_modified_witness :
  responseStatus
    (@handleCacheHit twoDates unreachable (getSince inRelease jan1) config
       (Some oldBody) 15 jan1_t true
       (initState (cachedEntry inRelease) (getSince inRelease jan1)))
  = Some 304%Z
  <-> (@authoritativeLastModified twoDates
         (headerStore (shared (initState (cachedEntry inRelease)
                                 (getSince inRelease jan1))) !! inRelease)
         jan1_t <= jan1_t)%Z.
Proof.
  apply (@hit_304_iff_not_modified twoDates unreachable config
           (getSince inRelease jan1) (Some oldBody) 15%Z jan1_t
           (initState (cachedEntry inRelease) (getSince inRelease jan1)) jan1_t).
  - vm_compute. discriminate.
  - vm_compute. reflexivity.
  - reflexivity.
Defined.

(** C6, witness: a POST for a pool object. *)
Lemma invalid_request_rejected_witness :
  rejected (post poolRelease) (cachedEntry poolRelease)
    (@HandleCacheableRequest twoDates unreachable config (post poolRelease)
       (initState (cachedEntry poolRelease) (post poolRelease)))
  /\ rejected (post poolRelease) (cachedEntry poolRelease)
       (@HandleRelease twoDates unreachable config (post poolRelease)
          (initState (cachedEntry poolRelease) (post poolRelease))).
Proof.
  apply (@invalid_request_rejected twoDates unreachable config (post poolRelease)
           (cachedEntry poolRelease)).
  left. split; vm_compute; discriminate.
Defined.

(** C9, witness: the entry is cached with its headers and the origin
    cannot be reached. *)
Lemma revalidation_fails_open_witness :
  responseStatus
    (@handleCacheHit twoDates unreachable (get inRelease) config (Some oldBody) 15
       jan1_t true (initState (cachedEntry inRelease) (get inRelease)))
  = Some 200%Z
  /\ responseBody
       (@handleCacheHit twoDates unreachable (get inRelease) config (Some oldBody) 15
          jan1_t true (initState (cachedEntry inRelease) (get inRelease)))
     = oldBody.
Proof.
  destruct (@revalidation_fails_open twoDates unreachable config (get inRelease)
              oldBody 15%Z jan1_t (initState (cachedEntry inRelease) (get inRelease))
              {[ "Last-Modified" := [jan1] ]})
    as (_ & Hstatus & Hbody & _).
  - vm_compute. reflexivity.
  - reflexivity.
  - vm_compute. reflexivity.
  - reflexivity.
  - intros T Hne. exfalso. apply Hne. vm_compute. reflexivity.
  - reflexivity.
  - split; [exact Hstatus | exact Hbody].
Defined.

(** C8, counterexample: [shouldValidateWithOrigin] accepts both paths and
    both requests are answered 200 from the cache, yet nothing is sent to
    the origin: for the first the headers are not cached, for the second
    the classifier gives [useIfModifiedSince = false]. *)
Lemma no_head_without_headers_or_conditional :
  (shouldValidateWithOrigin inRelease = true
   /\ responseStatus
        (@HandleRelease twoDates unreachable config (get inRelease)
           (initState (blobOnly inRelease) (get inRelease))) = Some 200%Z
   /\ originRequests
        (trace (snd (@HandleRelease twoDates unreachable config (get inRelease)
                       (initState (blobOnly inRelease) (get inRelease))))) = [])
  /\
  (shouldValidateWithOrigin poolRelease = true
   /\ shouldUseIfModifiedSince poolRelease = false
   /\ responseStatus
        (@HandleCacheableRequest twoDates unreachable config (get poolRelease)
           (initState (cachedEntry poolRelease) (get poolRelease))) = Some 200%Z
   /\ originRequests
        (trace (snd (@HandleCacheableRequest twoDates unreachable config
                       (get poolRelease)
                       (initState (cachedEntry poolRelease) (get poolRelease)))))
      = []).
Proof. vm_compute. repeat split. Qed.

(** C8, witness: the entry is cached with its headers. *)
Lemma revalidation_head_request_witness :
  exists later,
    originRequests
      (trace (snd (@handleCacheHit twoDates unreachable (get inRelease) config
                     (Some oldBody) 15 jan1_t true
                     (initState (cachedEntry inRelease) (get inRelease)))))
    = {| oMethod := "HEAD";
         oURL := "http://archive.ubuntu.com/ubuntu/dists/jammy/InRelease";
         oHeader := {[ "User-Agent" := ["Go-APT-Cache/1.0"];
                       "If-Modified-Since" := [jan1] ]} |} :: later.
Proof.
  destruct (@revalidation_head_request twoDates unreachable config (get inRelease)
              (Some oldBody) 15%Z jan1_t
              (initState (cachedEntry inRelease) (get inRelease))
              {[ "Last-Modified" := [jan1] ]}) as [later Hlater].
  - vm_compute. reflexivity.
  - reflexivity.
  - reflexivity.
  - intros T Hne. exfalso. apply Hne. vm_compute. reflexivity.
  - exists later. rewrite Hlater. vm_compute. reflexivity.
Defined.

(** C3, on the code: the blob of [InRelease] is cached without its headers
    and the client's [If-Modified-Since] equals the blob's timestamp.
    [setBasicHeaders] writes the status 304, and [handleCacheHit] goes on
    to copy the cached body to the response writer, which refuses it. *)
Theorem degraded_304_writes_body :
  trace (snd (@HandleRelease twoDates unreachable config (getSince inRelease jan1)
                (initState (blobOnly inRelease) (getSince inRelease jan1))))
  = [ ECacheGet inRelease; EHeaderGet inRelease; EWriteHeader 304;
      EWrite oldBody; ELog "Error writing response" ]
  /\ responseStatus
       (@HandleRelease twoDates unreachable config (getSince inRelease jan1)
          (initState (blobOnly inRelease) (getSince inRelease jan1))) = Some 304%Z
  /\ responseBody
       (@HandleRelease twoDates unreachable config (getSince inRelease jan1)
          (initState (blobOnly inRelease) (getSince inRelease jan1))) = [].
Proof. vm_compute. repeat split. Qed.

(** C4, on the code: on a cache miss the headers of the origin are passed
    on and the handler never sets [Content-Length] from the body.  When
    the origin sends 4096 bytes without declaring a length the handler's
    response has no [Content-Length]; when it declares 1000 bytes and 950
    arrive the response says 1000 and carries 950. *)
Theorem miss_content_length_not_overwritten :
  (responseStatus
     (@HandleCacheableRequest twoDates chunkedOrigin config (get inRelease)
        (initState emptyCache (get inRelease))) = Some 200%Z
   /\ length (responseBody
        (@HandleCacheableRequest twoDates chunkedOrigin config (get inRelease)
           (initState emptyCache (get inRelease)))) = 4096%nat
   /\ responseHeader
        (@HandleCacheableRequest twoDates chunkedOrigin config (get inRelease)
           (initState emptyCache (get inRelease))) !! "Content-Length" = None)
  /\
  (responseStatus
     (@HandleCacheableRequest twoDates shortOrigin config (get inRelease)
        (initState emptyCache (get inRelease))) = Some 200%Z
   /\ length (responseBody
        (@HandleCacheableRequest twoDates shortOrigin config (get inRelease)
           (initState emptyCache (get inRelease)))) = 950%nat
   /\ responseHeader
        (@HandleCacheableRequest twoDates shortOrigin config (get inRelease)
           (initState emptyCache (get inRelease))) !! "Content-Length"
      = Some ["1000"]).
Proof. vm_compute. repeat split. Qed.

(** C10, on the code: the entry of [InRelease] is cached, the origin answers
    200 to the revalidation and the GET that follows fails.
    [fetchAndUpdateCache] returns a nil reader, and [handleCacheHit] hands
    it to [io.Copy]: the handler panics before any status is sent. *)
Theorem failed_refetch_reads_nil_body :
  panicked
    (@HandleRelease twoDates headThenFailure config (get inRelease)
       (initState (cachedEntry inRelease) (get inRelease))) = true
  /\ responseStatus
       (@HandleRelease twoDates headThenFailure config (get inRelease)
          (initState (cachedEntry inRelease) (get inRelease))) = None
  /\ map oMethod
       (originRequests
          (trace (snd (@HandleRelease twoDates headThenFailure config
                         (get inRelease)
                         (initState (cachedEntry inRelease) (get inRelease))))))
     = ["HEAD"; "GET"].
Proof. vm_compute. repeat split. Qed.

(** C1, on the code: three requests for one cached path are each told by
    the origin that a newer version exists.  The first takes the ticket
    and fetches; the other two wait for it; once it has answered and
    released the ticket both go on to [fetchAndUpdateCache] without a
    ticket, and two origin GETs for the path are in flight together. *)
Theorem followers_fetch_concurrently :
  SingleFlight.getsInFlight inRelease <$>
    SingleFlight.run SingleFlight.twoFollowersFetch
      (SingleFlight.threeStaleHits inRelease)
  = Some 2%nat.
Proof. vm_compute. reflexivity. Qed.
(** ** More on the classifiers and the content types *)

Lemma Substring_trans (a b c : string) :
  Substring a b -> Substring b c -> Substring a c.
Proof.
  intros [p1 [s1 ->]] [p2 [s2 ->]]. exists (p2 ++ p1), (s1 ++ s2).
  by rewrite !append_assoc.
Qed.

Lemma Substring_literal (a b : string) :
  Contains b a = true -> forall c, Substring b c -> Substring a c.
Proof. intros Hab c. apply Substring_trans. by apply Contains_spec. Qed.

Lemma validate_char (path : string) :
  shouldValidateWithOrigin path = true <->
  Substring "Release" path \/
  (Substring "/dists/" path /\
   (Substring "Packages" path \/ Substring "Sources" path
    \/ Substring "Contents" path)).
Proof.
  unfold shouldValidateWithOrigin.
  destruct (matchesAny path criticalPatterns) eqn:Hc.
  - split; [intros _ | done]. left.
    apply matchesAny_spec in Hc as (tok & Hin & Htok).
    revert Htok. apply Substring_literal.
    cbn in Hin. by destruct Hin as [<-|[<-|[<-|[]]]].
  - assert (~ Substring "Release" path) as Hrel.
    { intros Hr. assert (matchesAny path criticalPatterns = true); [|congruence].
      apply matchesAny_spec. exists "Release". split; [by left | done]. }
    destruct (Contains path "/dists/") eqn:Hd; cbn [andb].
    + apply Contains_spec in Hd.
      destruct (matchesAny path changingPatterns) eqn:Hm.
      * split; [intros _ | done]. right. split; [done|].
        apply matchesAny_spec in Hm as (tok & Hin & Htok). cbn in Hin.
        destruct Hin as [<-|[<-|[<-|[]]]]; tauto.
      * assert (~ exists tok, In tok changingPatterns /\ Substring tok path) as Hno.
        { intros Hex. apply matchesAny_spec in Hex. congruence. }
        destruct (Contains path "/pool/");
          (split; [done | intros [?|[_ Hany]]; [done|]]);
          destruct Hno; destruct Hany as [?|[?|?]];
          [exists "Packages" | exists "Sources" | exists "Contents"
          | exists "Packages" | exists "Sources" | exists "Contents"];
          (split; [cbn; tauto | done]).
    + apply Contains_false in Hd.
      destruct (Contains path "/pool/"); (split; [done | intros [?|[? _]]; done]).
Qed.

Lemma conditional_char (path : string) :
  shouldUseIfModifiedSince path = true <->
  Substring "/dists/" path \/
  (~ Substring "/pool/" path /\
   (Substring "Release" path \/ Substring "Packages" path
    \/ Substring "Sources" path \/ Substring "Contents-" path
    \/ Substring "Index" path)).
Proof.
  unfold shouldUseIfModifiedSince.
  destruct (Contains path "/dists/") eqn:Hd.
  { apply Contains_spec in Hd. split; [by left | done]. }
  apply Contains_false in Hd.
  destruct (Contains path "/pool/") eqn:Hp.
  { apply Contains_spec in Hp. split; [done | intros [?|[? _]]; done]. }
  apply Contains_false in Hp.
  destruct (matchesAny path frequentlyChangingPatterns) eqn:Hm.
  - split; [intros _ | done]. right. split; [done|].
    apply matchesAny_spec in Hm as (tok & Hin & Htok). cbn in Hin.
    destruct Hin as [<-|[<-|[<-|[<-|[<-|[<-|[<-|[<-|[<-|[<-|[<-|[]]]]]]]]]]]];
      first [ tauto
            | left; revert Htok; by apply Substring_literal
            | right; left; revert Htok; by apply Substring_literal
            | right; right; left; revert Htok; by apply Substring_literal ].
  - split; [done | intros [?|[_ Hany]]; [done|]].
    assert (matchesAny path frequentlyChangingPatterns = true); [|congruence].
    apply matchesAny_spec.
    destruct Hany as [?|[?|[?|[?|?]]]];
      [exists "Release" | exists "Packages" | exists "Sources"
      | exists "Contents-" | exists "Index"]; (split; [cbn; tauto | done]).
Qed.

(** X1: [shouldValidateWithOrigin] in three patterns: the path is validated
    exactly when it contains [Release], or contains [/dists/] together
    with one of [Packages], [Sources], [Contents]; the patterns
    [Release.gpg] and [InRelease] and the test on [/pool/] change
    nothing. *)
Theorem shouldValidateWithOrigin_rules (path : string) :
  shouldValidateWithOrigin path = true <->
  Substring "Release" path \/
  (Substring "/dists/" path /\
   (Substring "Packages" path \/ Substring "Sources" path
    \/ Substring "Contents" path)).
Proof. apply validate_char. Qed.

(** X2: [shouldUseIfModifiedSince] in five tokens: six of the eleven
    patterns contain another one and never decide. *)
Theorem shouldUseIfModifiedSince_five_tokens (path : string) :
  shouldUseIfModifiedSince path = true <->
  Substring "/dists/" path \/
  (~ Substring "/pool/" path /\
   (Substring "Release" path \/ Substring "Packages" path
    \/ Substring "Sources" path \/ Substring "Contents-" path
    \/ Substring "Index" path)).
Proof. apply conditional_char. Qed.

(** X3: the two classifiers against each other: a path is validated with the
    origin without honouring [If-Modified-Since] exactly when it contains
    [Release] and [/pool/] but not [/dists/].  For every other path the
    test [useIfModifiedSince && shouldValidateWithOrigin(path)] of
    [handleCacheHit] is the test [shouldValidateWithOrigin(path)]. *)
Theorem classifiers_disagree (path : string) :
  (shouldValidateWithOrigin path = true /\ shouldUseIfModifiedSince path = false)
  <->
  (Substring "Release" path /\ Substring "/pool/" path
   /\ ~ Substring "/dists/" path).
Proof.
  rewrite validate_char.
  assert (shouldUseIfModifiedSince path = false <->
          ~ shouldUseIfModifiedSince path = true) as ->
    by (destruct (shouldUseIfModifiedSince path); split; congruence).
  rewrite conditional_char.
  destruct (Contains path "/pool/") eqn:Hp;
    [apply Contains_spec in Hp | apply Contains_false in Hp]; tauto.
Qed.

(** X4: [getContentType] never answers the empty string, so the test
    [contentType != ""] of [handleCacheMiss] always holds. *)
Theorem getContentType_nonempty `{Platform} (path : string) :
  getContentType path <> "".
Proof. unfold getContentType. repeat case_match; discriminate. Qed.

Lemma extFrom_plain (e : string) (acc : option string) :
  plainExt e = true ->
  extFrom e acc = match acc with Some x => x | None => "" end.
Proof.
  revert acc. induction e as [|c e IH]; intros acc He; [done|].
  cbn in *. destruct (Ascii.eqb c "."); [done|].
  destruct (Ascii.eqb c "/"); [done|]. by apply IH.
Qed.

Lemma extFrom_app (pre s : string) (acc : option string) :
  exists acc1, extFrom (pre ++ s) acc = extFrom s acc1.
Proof.
  revert acc. induction pre as [|c pre IH]; intros acc.
  - by exists acc.
  - rewrite append_cons. cbn [extFrom].
    destruct (Ascii.eqb c "/"); [apply IH|].
    destruct (Ascii.eqb c "."); apply IH.
Qed.

Lemma Ext_last_dot (pre e : string) :
  plainExt e = true -> Ext (pre ++ "." ++ e) = "." ++ e.
Proof.
  intros He. unfold Ext. destruct (extFrom_app pre ("." ++ e) None) as [acc ->].
  change ("." ++ e) with (String "." e). cbn [extFrom].
  change (Ascii.eqb "." "/") with false. change (Ascii.eqb "." ".") with true.
  cbv iota. by rewrite extFrom_plain.
Qed.

Lemma lowerAscii_idemp (c : ascii) : lowerAscii (lowerAscii c) = lowerAscii c.
Proof. by destruct c as [[] [] [] [] [] [] [] []]. Qed.

Lemma lowerAscii_dot (c : ascii) : Ascii.eqb (lowerAscii c) "." = Ascii.eqb c ".".
Proof. by destruct c as [[] [] [] [] [] [] [] []]. Qed.

Lemma lowerAscii_slash (c : ascii) : Ascii.eqb (lowerAscii c) "/" = Ascii.eqb c "/".
Proof. by destruct c as [[] [] [] [] [] [] [] []]. Qed.

Lemma lowerAscii_ascii (c : ascii) :
  Nat.ltb (nat_of_ascii (lowerAscii c)) 128 = Nat.ltb (nat_of_ascii c) 128.
Proof. by destruct c as [[] [] [] [] [] [] [] []]. Qed.

Lemma toLowerASCII_idemp (s : string) :
  toLowerASCII (toLowerASCII s) = toLowerASCII s.
Proof.
  induction s as [|c s IH]; [done|]. cbn [toLowerASCII].
  by rewrite lowerAscii_idemp, IH.
Qed.

Lemma plainExt_toLowerASCII (s : string) : plainExt (toLowerASCII s) = plainExt s.
Proof.
  induction s as [|c s IH]; [done|]. cbn [toLowerASCII plainExt].
  by rewrite lowerAscii_dot, lowerAscii_slash, IH.
Qed.

Lemma isASCII_toLowerASCII (s : string) : isASCII (toLowerASCII s) = isASCII s.
Proof.
  induction s as [|c s IH]; [done|]. cbn [toLowerASCII isASCII].
  by rewrite lowerAscii_ascii, IH.
Qed.

(** The extension of an ASCII path is lowered byte by byte. *)
Lemma ToLower_extension `{Platform} (e : string) :
  isASCII e = true -> ToLower ("." ++ e) = "." ++ toLowerASCII e.
Proof.
  intros He. unfold ToLower. change ("." ++ e) with (String "." e).
  cbn [isASCII]. change (Nat.ltb (nat_of_ascii ".") 128) with true. cbv iota.
  by rewrite He.
Qed.

(** X5: the content type depends only on the text after the last dot of the
    last path element: a path that ends in a dot followed by [e], where [e]
    has no dot and no slash, gets the type of the path made of the dot and
    [e] alone; when [e] is ASCII its case does not matter either, the type
    is the one of [e] in lower case.  (An [e] with a byte outside ASCII is
    lowered by [unicode.ToLower], which is not unfolded here.) *)
Theorem getContentType_extension `{Platform} (pre e : string) :
  plainExt e = true ->
  getContentType (pre ++ "." ++ e) = getContentType ("." ++ e)
  /\ (isASCII e = true ->
      getContentType (pre ++ "." ++ e) = getContentType ("." ++ toLowerASCII e)).
Proof.
  intros He. unfold getContentType.
  rewrite (Ext_last_dot pre e He).
  pose proof (Ext_last_dot "" e He) as Hsame. rewrite append_nil_l in Hsame.
  rewrite Hsame. split; [done|]. intros Hascii.
  pose proof (Ext_last_dot "" (toLowerASCII e)) as Hlow.
  rewrite append_nil_l, plainExt_toLowerASCII in Hlow. rewrite (Hlow He).
  rewrite !ToLower_extension by by rewrite ?isASCII_toLowerASCII.
  by rewrite toLowerASCII_idemp.
Qed.

(** X5, witness: a package whose extension is written in capitals. *)
Lemma getContentType_extension_witness :
  @getContentType Fixtures.twoDates
    ("/ubuntu/pool/main/h/hello/hello_2.10-2_amd64" ++ "." ++ "DEB")
  = @getContentType Fixtures.twoDates ("." ++ toLowerASCII "DEB").
Proof.
  destruct (@getContentType_extension Fixtures.twoDates
              "/ubuntu/pool/main/h/hello/hello_2.10-2_amd64" "DEB") as [_ Hcase].
  - reflexivity.
  - apply Hcase. reflexivity.
Defined.

(** ** The registry, one request at a time *)

Lemma difference_union_cancel (path : string) (ip : gset string) :
  path ∉ ip -> ({[path]} ∪ ip) ∖ {[path]} = ip.
Proof.
  intros Hfree. apply set_eq. intros x.
  rewrite elem_of_difference, elem_of_union, elem_of_singleton.
  split; [tauto|]. intros Hx. split; [tauto | congruence].
Qed.

(** X6: taking and dropping the ticket of a free path.  [acquireLock]
    succeeds; until the ticket is released a second [acquireLock] for the
    path is refused and changes nothing; [releaseLock] puts the registry
    back as it was, and a second [releaseLock] changes nothing. *)
Theorem acquire_release_round_trip (path : string) (s : HState) :
  path ∉ inProgress (shared s) ->
  exists s1,
    acquireLock path s = (Val true, s1)
    /\ fst (acquireLock path s1) = Val false
    /\ shared (snd (acquireLock path s1)) = shared s1
    /\ shared (snd (releaseLock path s1)) = shared s
    /\ shared (snd (releaseLock path (snd (releaseLock path s1)))) = shared s.
Proof.
  intros Hfree. rewrite (acquireLock_free _ _ Hfree). eexists. split; [done|].
  assert (path ∈ {[path]} ∪ inProgress (shared s)) as Hheld
    by (apply elem_of_union; left; by apply elem_of_singleton).
  rewrite acquireLock_busy by done. split; [done|]. split; [done|].
  rewrite releaseLock_held by done. cbn [snd shared].
  assert (setInProgress (inProgress (setInProgress ({[path]} ∪ inProgress (shared s))
                                       (shared s)) ∖ {[path]})
            (setInProgress ({[path]} ∪ inProgress (shared s)) (shared s))
          = shared s) as Hback.
  { destruct (shared s) as [bl hs ip]. unfold setInProgress.
    cbn [blobs headerStore inProgress] in *. by rewrite difference_union_cancel. }
  split; [done|].
  unfold releaseLock. rewrite bind_run. cbn [get_shared shared]. rewrite Hback.
  by destruct (decide _).
Qed.

(** X6, witness: an empty registry. *)
Lemma acquire_release_round_trip_witness :
  exists s1,
    acquireLock Fixtures.inRelease
      (initState Fixtures.emptyCache (Fixtures.get Fixtures.inRelease))
    = (Val true, s1)
    /\ fst (acquireLock Fixtures.inRelease s1) = Val false
    /\ shared (snd (acquireLock Fixtures.inRelease s1)) = shared s1
    /\ shared (snd (releaseLock Fixtures.inRelease s1)) = Fixtures.emptyCache
    /\ shared (snd (releaseLock Fixtures.inRelease
                      (snd (releaseLock Fixtures.inRelease s1))))
       = Fixtures.emptyCache.
Proof.
  apply (acquire_release_round_trip Fixtures.inRelease
           (initState Fixtures.emptyCache (Fixtures.get Fixtures.inRelease))).
  vm_compute. discriminate.
Defined.

(** ** The registry under concurrent requests: no leak, no deadlock *)

Section Progress.
Import SingleFlight.

Lemma countThreads_pos (f : Thread -> bool) (l : list Thread) :
  (0 < countThreads f l)%nat -> exists i t, l !! i = Some t /\ f t = true.
Proof.
  induction l as [|x l IH]; cbn; [lia|]. intros Hpos.
  destruct (f x) eqn:Hx.
  - by exists 0%nat, x.
  - destruct (IH Hpos) as (i & t & Hi & Ht). by exists (S i), t.
Qed.

Lemma countThreads_done (path : string) (l : list Thread) :
  Forall (fun t => t_pc t = Done) l -> countThreads (holdsTicket path) l = 0%nat.
Proof.
  intros Hdone. apply countThreads_none. eapply Forall_impl; [done|].
  intros t Hpc. unfold holdsTicket. rewrite Hpc. cbn. by rewrite andb_false_r.
Qed.

(** X8: when every request has finished, whatever the schedule was, no
    ticket is left in the registry. *)
Theorem no_ticket_left_behind schedule s s' :
  initial s -> run schedule s = Some s' ->
  Forall (fun t => t_pc t = Done) (threads s') ->
  tickets (reg s') = ∅.
Proof.
  intros Hinit Hrun Hdone. apply map_eq. intros path. rewrite lookup_empty.
  pose proof (run_keeps_oneHolder _ _ _ (initial_oneHolder _ Hinit) Hrun path) as Hone.
  rewrite (countThreads_done _ _ Hdone) in Hone.
  by destruct (tickets (reg s') !! path).
Qed.

Lemma waitingOn_at_pc pc t :
  waitingOn (at_pc pc t) =
  match pc with HitWaiting ch | MissWaiting ch => Some ch | _ => None end.
Proof. reflexivity. Qed.

Lemma step_keeps_waiters i head200 s s' :
  waitersWatchTickets s -> step i head200 s = Some s' -> waitersWatchTickets s'.
Proof.
  intros Hinv Hstep. unfold step in Hstep.
  destruct (threads s !! i) as [t|] eqn:Hi; [|done].
  destruct (stepThread head200 (reg s) (cachedPaths s) t) as [[[g c] pc]|] eqn:Hst;
    [|done].
  injection Hstep as <-. unfold waitersWatchTickets in *. cbn [threads reg].
  assert (forall t0 ch, t0 ∈ threads s -> waitingOn t0 = Some ch ->
            ch ∈ closedCh g \/ tickets g !! t_path t0 = Some ch) as Hold.
  { intros t0 ch Ht0 Hw. rewrite Forall_forall in Hinv.
    destruct (Hinv t0 Ht0 ch Hw) as [Hcl|Htk].
    - left. unfold stepThread in Hst.
      destruct (t_pc t) as [| |ch0|[|]|[|]|[|]| | |ch0| | | | | | |]; cbn in Hst;
        repeat case_match; simplify_eq; try done;
        unfold insertTicket, release; cbn [closedCh];
        repeat case_match; cbn [closedCh]; try done;
        apply elem_of_union; by right.
    - unfold stepThread in Hst.
      destruct (t_pc t) as [| |ch0|[|]|[|]|[|]| | |ch0| | | | | | |]; cbn in Hst;
        repeat case_match; simplify_eq; try (by right);
        unfold insertTicket, release; cbn [closedCh tickets];
        repeat case_match; cbn [closedCh tickets]; try (by right);
        destruct (decide (t_path t = t_path t0)) as [Heq|Hne];
        try (rewrite Heq in *; simplify_eq);
        try (right; by rewrite ?lookup_insert_ne, ?lookup_delete_ne by done);
        try (left; apply elem_of_union; left; by apply elem_of_singleton). }
  apply Forall_forall. intros t0 Ht0 ch Hw.
  apply list_elem_of_lookup in Ht0 as [j Hj].
  destruct (decide (i = j)) as [<-|Hne].
  - rewrite list_lookup_insert_eq in Hj by (by eapply lookup_lt_Some).
    injection Hj as <-. rewrite waitingOn_at_pc in Hw. cbn [at_pc t_path].
    unfold stepThread in Hst.
    destruct (t_pc t) as [| |ch0|[|]|[|]|[|]| | |ch0| | | | | | |]; cbn in Hst;
      repeat case_match; simplify_eq; by right.
  - rewrite list_lookup_insert_ne in Hj by done.
    apply Hold; [|done]. apply list_elem_of_lookup. by exists j.
Qed.

Lemma run_keeps_waiters schedule s s' :
  waitersWatchTickets s -> run schedule s = Some s' -> waitersWatchTickets s'.
Proof.
  revert s. induction schedule as [|[i b] rest IH]; intros s Hinv Hrun; cbn in Hrun.
  - by injection Hrun as <-.
  - destruct (step i b s) as [s1|] eqn:Hstep; [|done].
    eapply IH; [|done]. by eapply step_keeps_waiters.
Qed.

Lemma initial_waiters s : initial s -> waitersWatchTickets s.
Proof.
  intros [_ Hpcs]. unfold waitersWatchTickets. eapply Forall_impl; [done|].
  intros t Hpc ch Hw. unfold waitingOn in Hw. by destruct Hpc as [Hpc|Hpc]; rewrite Hpc in Hw.
Qed.

Lemma unblocked_steps head200 g c t :
  t_pc t <> Done -> waitingOn t = None ->
  exists out, stepThread head200 g c t = Some out.
Proof.
  intros Hnd Hw. unfold stepThread, waitingOn in *.
  destruct (t_pc t); try done; repeat case_match; by eexists.
Qed.

Lemma thread_steps i head200 s t out :
  threads s !! i = Some t ->
  stepThread head200 (reg s) (cachedPaths s) t = Some out ->
  exists s', step i head200 s = Some s'.
Proof.
  intros Hi Hst. unfold step. rewrite Hi, Hst. destruct out as [[g c] pc]. by eexists.
Qed.

(** X9: the requests never deadlock: in every state a schedule can reach,
    as long as one request has not finished some request can take a
    step. *)
Theorem never_deadlocked schedule s s' i t :
  initial s -> run schedule s = Some s' ->
  threads s' !! i = Some t -> t_pc t <> Done ->
  exists j s'', step j false s' = Some s''.
Proof.
  intros Hinit Hrun Hi Hnd.
  pose proof (run_keeps_oneHolder _ _ _ (initial_oneHolder _ Hinit) Hrun) as Hone.
  pose proof (run_keeps_waiters _ _ _ (initial_waiters _ Hinit) Hrun) as Hwait.
  destruct (waitingOn t) as [ch|] eqn:Hw.
  - unfold waitersWatchTickets in Hwait. rewrite Forall_forall in Hwait.
    assert (t ∈ threads s') as Hin by (apply list_elem_of_lookup; by exists i).
    destruct (Hwait t Hin ch Hw) as [Hcl|Htk].
    + exists i.
      assert (exists out, stepThread false (reg s') (cachedPaths s') t = Some out)
        as [out Hout].
      { unfold stepThread, waitingOn in *.
        destruct (t_pc t); try done; simplify_eq;
          (destruct (decide _); [by eexists | done]). }
      by eapply thread_steps.
    + specialize (Hone (t_path t)). rewrite Htk in Hone.
      destruct (countThreads_pos (holdsTicket (t_path t)) (threads s'))
        as (j & h & Hj & Hh); [lia|].
      exists j.
      destruct (unblocked_steps false (reg s') (cachedPaths s') h) as [out Hout].
      * unfold holdsTicket in Hh. apply andb_true_iff in Hh as [_ Hh].
        intros Hd. by rewrite Hd in Hh.
      * unfold holdsTicket in Hh. apply andb_true_iff in Hh as [_ Hh].
        unfold waitingOn. by destruct (t_pc h) as [| | |[|]|[|]|[|]| | | | | | | | | |].
      * by eapply thread_steps.
  - exists i. destruct (unblocked_steps false (reg s') (cachedPaths s') t Hnd Hw)
      as [out Hout]. by eapply thread_steps.
Qed.

End Progress.

(** ** What every event of a handler satisfies *)

Lemma emits_ret {A} P (a : A) : emits P (mret a).
Proof. intros s. exists []. by rewrite app_nil_r. Qed.

Lemma emits_panic {A} P : emits P (panic (A := A)).
Proof. intros s. exists []. by rewrite app_nil_r. Qed.

Lemma emits_bind {A B} P (m : M A) (f : A -> M B) :
  emits P m -> (forall a, emits P (f a)) -> emits P (m ≫= f).
Proof.
  intros Hm Hf s. rewrite bind_run. destruct (Hm s) as (t1 & Ht1 & HP1).
  destruct (m s) as [[a|] s1]; cbn [snd] in *.
  - destruct (Hf a s1) as (t2 & Ht2 & HP2). exists (t1 ++ t2)%list.
    rewrite Ht2, Ht1, app_assoc. split; [done | by apply Forall_app].
  - by exists t1.
Qed.

Lemma emits_emit (P : Event -> Prop) e : P e -> emits P (emit e).
Proof. intros HP s. exists [e]. split; [done | by constructor]. Qed.

Lemma emits_silent {A} P (m : M A) :
  (forall s, trace (snd (m s)) = trace s) -> emits P m.
Proof. intros Hm s. exists []. by rewrite app_nil_r, Hm. Qed.

Lemma emits_get_shared P : emits P get_shared.
Proof. by apply emits_silent. Qed.

Lemma emits_put_shared P sh : emits P (put_shared sh).
Proof. by apply emits_silent. Qed.

Lemma emits_get_rw P : emits P get_rw.
Proof. by apply emits_silent. Qed.

Lemma emits_put_rw P w : emits P (put_rw w).
Proof. by apply emits_silent. Qed.

Lemma emits_deferRelease P path : emits P (deferRelease path).
Proof. by apply emits_silent. Qed.

Lemma emits_when P b (m : M unit) : emits P m -> emits P (when b m).
Proof. destruct b; [done | intros _; apply emits_ret]. Qed.

Lemma emits_releaseLock (P : Event -> Prop) path :
  P (ERelease path) -> emits P (releaseLock path).
Proof.
  intros HP. unfold releaseLock. apply emits_bind; [apply emits_get_shared|].
  intros sh. destruct (decide _); [|apply emits_ret].
  apply emits_bind; [apply emits_put_shared | intros _; by apply emits_emit].
Qed.

Lemma runDefers_emits (P : Event -> Prop) ds s :
  (forall path, P (ERelease path)) ->
  exists t, trace (runDefers ds s) = (trace s ++ t)%list /\ Forall P t.
Proof.
  intros HP. revert s. induction ds as [|p ds IH]; intros s; cbn [runDefers].
  - exists []. by rewrite app_nil_r.
  - destruct (emits_releaseLock P p (HP p) s) as (t1 & Ht1 & HP1).
    destruct (IH (snd (releaseLock p s))) as (t2 & Ht2 & HP2).
    exists (t1 ++ t2)%list. rewrite Ht2, Ht1, app_assoc.
    split; [done | by apply Forall_app].
Qed.

Lemma emits_call {A} (P : Event -> Prop) (body : M A) :
  (forall path, P (ERelease path)) -> emits P body -> emits P (call body).
Proof.
  intros HP Hb s. unfold call.
  destruct (Hb {| shared := shared s; rw := rw s; defers := []; trace := trace s |})
    as (t1 & Ht1 & HP1).
  destruct (body _) as [a s1]. cbn [snd trace] in *.
  destruct (runDefers_emits P (defers s1) s1 HP) as (t2 & Ht2 & HP2).
  exists (t1 ++ t2)%list. rewrite Ht2, Ht1, app_assoc.
  split; [done | by apply Forall_app].
Qed.

Ltac head_of t :=
  lazymatch t with
  | ?f _ => head_of f
  | _ => t
  end.

(** One step of a proof that a handler emits only [P]: [ev] proves [P] of
    the event at hand. *)
Ltac emits_step ev :=
  lazymatch goal with
  | |- emits _ (mret _) => apply emits_ret
  | |- emits _ (_ ≫= _) => apply emits_bind; [|intros ?]
  | |- emits _ (if ?b then _ else _) => destruct b
  | |- emits _ (match ?x with _ => _ end) => destruct x
  | |- emits _ (let _ := _ in _) => cbv zeta
  | |- emits _ (emit _) => apply emits_emit; ev
  | |- emits _ (log _) => apply emits_emit; ev
  | |- emits _ (when _ _) => apply emits_when
  | |- emits _ (call _) => apply emits_call; [intros ?; ev|]
  | |- emits _ panic => apply emits_panic
  | |- emits _ get_shared => apply emits_get_shared
  | |- emits _ (put_shared _) => apply emits_put_shared
  | |- emits _ get_rw => apply emits_get_rw
  | |- emits _ (put_rw _) => apply emits_put_rw
  | |- emits _ (deferRelease _) => apply emits_deferRelease
  | |- emits _ (releaseLock _) => apply emits_releaseLock; ev
  | |- emits _ ?m => let h := head_of m in unfold h
  end.

Section Events.
Context `{Platform}.

Lemma emits_put_length_hit env r config content contentLength lastModified
  useIfModifiedSince :
  emits putLengthOK
    (handleCacheHit env r config content contentLength lastModified
       useIfModifiedSince).
Proof.
  repeat emits_step ltac:(by cbn).
Qed.

Lemma emits_put_length_entry msg env r config useIfModifiedSince :
  emits putLengthOK
    (when (LogRequests config) (log msg);;
     valid ← validateRequest r;
     if negb valid then mret tt
     else fromCache env r config useIfModifiedSince).
Proof.
  repeat first [ apply emits_put_length_hit | emits_step ltac:(by cbn) ].
Qed.

(** X10: every call of [Cache.Put], at both entry points and whatever the
    request, the caches and the origin are, passes as length the number
    of bytes of the body it passes: a stored length is the length of the
    stored body. *)
Theorem cache_put_length env config r sh :
  Forall putLengthOK
    (trace (snd (HandleCacheableRequest env config r (initState sh r))))
  /\ Forall putLengthOK
       (trace (snd (HandleRelease env config r (initState sh r)))).
Proof.
  split.
  - destruct (emits_put_length_entry "Request" env r config
                (shouldUseIfModifiedSince (URLPath r)) (initState sh r))
      as (t & Ht & HP).
    unfold HandleCacheableRequest. by rewrite Ht.
  - destruct (emits_put_length_entry "Release request" env r config true
                (initState sh r)) as (t & Ht & HP).
    unfold HandleRelease. by rewrite Ht.
Qed.

Ltac origin_ok :=
  cbn; try exact I;
  unfold revalidationRequest, missRequest, Hdr.Set_, userAgent;
  cbn [oURL oHeader andb];
  repeat case_match; cbn [oURL oHeader];
  first [ split; [reflexivity|] | idtac ];
  by rewrite ?lookup_insert_eq, ?lookup_insert_ne, ?lookup_empty by done.

Lemma emits_origin_fetch env path originURL :
  emits (originRequestOK originURL) (fetchAndUpdateCache env path originURL).
Proof. repeat emits_step origin_ok. Qed.

Lemma emits_origin_hit env r config content contentLength lastModified
  useIfModifiedSince :
  emits (originRequestOK (OriginServer config ++ URLPath r))
    (handleCacheHit env r config content contentLength lastModified
       useIfModifiedSince).
Proof. repeat first [ apply emits_origin_fetch | emits_step origin_ok ]. Qed.

Lemma emits_origin_entry msg env r config useIfModifiedSince :
  emits (originRequestOK (OriginServer config ++ URLPath r))
    (when (LogRequests config) (log msg);;
     valid ← validateRequest r;
     if negb valid then mret tt
     else fromCache env r config useIfModifiedSince).
Proof. repeat first [ apply emits_origin_hit | emits_step origin_ok ]. Qed.

(** X11: every request sent to the origin, at both entry points and
    whatever the request, the caches and the origin are, goes to the
    origin URL of the requested path (the configured origin followed by
    the path) and carries the header [User-Agent: Go-APT-Cache/1.0]. *)
Theorem origin_requests_well_formed env config r sh :
  Forall (originRequestOK (OriginServer config ++ URLPath r))
    (trace (snd (HandleCacheableRequest env config r (initState sh r))))
  /\ Forall (originRequestOK (OriginServer config ++ URLPath r))
       (trace (snd (HandleRelease env config r (initState sh r)))).
Proof.
  split.
  - destruct (emits_origin_entry "Request" env r config
                (shouldUseIfModifiedSince (URLPath r)) (initState sh r))
      as (t & Ht & HP).
    unfold HandleCacheableRequest. by rewrite Ht.
  - destruct (emits_origin_entry "Release request" env r config true
                (initState sh r)) as (t & Ht & HP).
    unfold HandleRelease. by rewrite Ht.
Qed.

Lemma emits_unconditional_hit env r config content contentLength lastModified :
  emits unconditional
    (handleCacheHit env r config content contentLength lastModified false).
Proof.
  unfold handleCacheHit, clientConditional, revalidate. cbn [andb].
  repeat emits_step ltac:(by cbn).
Qed.

Lemma emits_unconditional_from_cache env r config :
  emits unconditional (fromCache env r config false).
Proof.
  unfold fromCache, handleCacheMiss, enterSingleFlight.
  repeat first [ apply emits_unconditional_hit | emits_step origin_ok ].
Qed.

(** X12: when the classifier gives [useIfModifiedSince = false] for the
    path (pool objects), no request that [HandleCacheableRequest] sends to
    the origin carries [If-Modified-Since], whatever the client sent. *)
Theorem pool_requests_unconditional env config r sh :
  shouldUseIfModifiedSince (URLPath r) = false ->
  Forall unconditional
    (trace (snd (HandleCacheableRequest env config r (initState sh r)))).
Proof.
  intros Hpool.
  assert (emits unconditional (HandleCacheableRequest env config r)) as Hemits.
  { unfold HandleCacheableRequest. rewrite Hpool.
    repeat first [ apply emits_unconditional_from_cache | emits_step ltac:(by cbn) ]. }
  destruct (Hemits (initState sh r)) as (t & Ht & HP). by rewrite Ht.
Qed.

End Events.

(** ** A request for a path that nobody is fetching *)

Lemma keeps_ret path sh0 held {A} (a : A) : keeps path sh0 held (mret a).
Proof. by intros s. Qed.

Lemma keeps_panic path sh0 held {A} : keeps path sh0 held (panic (A := A)).
Proof. by intros s. Qed.

Lemma keeps_bind path sh0 held {A B} (m : M A) (f : A -> M B) :
  keeps path sh0 held m -> (forall a, keeps path sh0 held (f a)) ->
  keeps path sh0 held (m ≫= f).
Proof.
  intros Hm Hf s Hs. rewrite bind_run. specialize (Hm s Hs).
  destruct (m s) as [[a|] s1]; cbn [snd] in *; [by apply Hf | done].
Qed.

Lemma keeps_emit path sh0 held e : notWait e -> keeps path sh0 held (emit e).
Proof.
  intros He s (Hreg & Hds & Hcache & Htr).
  split; [done|]. split; [done|]. split; [done|].
  cbn. apply Forall_app. split; [done | by constructor].
Qed.

Lemma keeps_when path sh0 held b (m : M unit) :
  keeps path sh0 held m -> keeps path sh0 held (when b m).
Proof. destruct b; [done | intros _; apply keeps_ret]. Qed.

Lemma keeps_same path sh0 held {A} (m : M A) :
  (forall s, shared (snd (m s)) = shared s /\ defers (snd (m s)) = defers s
             /\ trace (snd (m s)) = trace s) ->
  keeps path sh0 held m.
Proof.
  intros Hm s (Hreg & Hds & Hcache & Htr). destruct (Hm s) as (Hsh & Hd & Ht).
  unfold undisturbed. by rewrite Hsh, Hd, Ht.
Qed.

Lemma keeps_get_shared path sh0 held : keeps path sh0 held get_shared.
Proof. by apply keeps_same. Qed.

Lemma keeps_get_rw path sh0 held : keeps path sh0 held get_rw.
Proof. by apply keeps_same. Qed.

Lemma keeps_put_rw path sh0 held w : keeps path sh0 held (put_rw w).
Proof. by apply keeps_same. Qed.

Lemma keeps_Cache_Put path sh0 held env body len lm :
  keeps path sh0 held (Cache_Put env path body len lm).
Proof.
  unfold Cache_Put. apply keeps_bind; [by apply keeps_emit|]. intros _.
  destruct (cachePutFails env); [apply keeps_ret|].
  intros [sh w ds tr] (Hreg & Hds & Hcache & Htr). unfold undisturbed. mrun.
  split; [done|]. split; [done|]. split; [|done].
  intros q Hq. destruct (Hcache q Hq) as [Hb Hh]. cbn.
  by rewrite lookup_insert_ne.
Qed.

Lemma keeps_HeaderCache_PutHeaders path sh0 held env h :
  keeps path sh0 held (HeaderCache_PutHeaders env path h).
Proof.
  unfold HeaderCache_PutHeaders. apply keeps_bind; [by apply keeps_emit|]. intros _.
  destruct (headerPutFails env); [apply keeps_ret|].
  intros [sh w ds tr] (Hreg & Hds & Hcache & Htr). unfold undisturbed. mrun.
  split; [done|]. split; [done|]. split; [|done].
  intros q Hq. destruct (Hcache q Hq) as [Hb Hh]. cbn.
  by rewrite lookup_insert_ne.
Qed.

Ltac keeps_step :=
  lazymatch goal with
  | |- keeps _ _ _ (mret _) => apply keeps_ret
  | |- keeps _ _ _ (_ ≫= _) => apply keeps_bind; [|intros ?]
  | |- keeps _ _ _ (if ?b then _ else _) => destruct b
  | |- keeps _ _ _ (match ?x with _ => _ end) => destruct x
  | |- keeps _ _ _ (let _ := _ in _) => cbv zeta
  | |- keeps _ _ _ (emit _) => apply keeps_emit; exact I
  | |- keeps _ _ _ (log _) => apply keeps_emit; exact I
  | |- keeps _ _ _ (when _ _) => apply keeps_when
  | |- keeps _ _ _ panic => apply keeps_panic
  | |- keeps _ _ _ get_shared => apply keeps_get_shared
  | |- keeps _ _ _ get_rw => apply keeps_get_rw
  | |- keeps _ _ _ (put_rw _) => apply keeps_put_rw
  | |- keeps _ _ _ (Cache_Put _ _ _ _ _) => apply keeps_Cache_Put
  | |- keeps _ _ _ (HeaderCache_PutHeaders _ _ _) => apply keeps_HeaderCache_PutHeaders
  | |- keeps _ _ _ ?m => let h := head_of m in unfold h
  end.

Lemma settles_keeps path sh0 {A} (m : M A) :
  keeps path sh0 false m -> settles path sh0 m.
Proof. intros Hm s Hs. exists false. by apply Hm. Qed.

Lemma settles_bind path sh0 {A B} (m : M A) (f : A -> M B) :
  keeps path sh0 false m -> (forall a, settles path sh0 (f a)) ->
  settles path sh0 (m ≫= f).
Proof.
  intros Hm Hf s Hs. rewrite bind_run. specialize (Hm s Hs).
  destruct (m s) as [[a|] s1]; cbn [snd] in *; [by apply Hf | by exists false].
Qed.

Lemma settles_then path sh0 {A B} (m : M A) (f : A -> M B) :
  settles path sh0 m -> (forall a held, keeps path sh0 held (f a)) ->
  settles path sh0 (m ≫= f).
Proof.
  intros Hm Hf s Hs. rewrite bind_run. destruct (Hm s Hs) as [held Hheld].
  destruct (m s) as [[a|] s1]; cbn [snd] in *; exists held; [by apply Hf | done].
Qed.

Section Idle.
Context `{Platform}.
Variables (r : Request) (sh0 : Shared).
Hypothesis idle : URLPath r ∉ inProgress sh0.

Lemma keeps_fetchAndUpdateCache held env originURL :
  keeps (URLPath r) sh0 held (fetchAndUpdateCache env (URLPath r) originURL).
Proof. repeat keeps_step. Qed.

Lemma keeps_writeContent held content contentLength :
  keeps (URLPath r) sh0 held (writeContent r content contentLength).
Proof. repeat keeps_step. Qed.

(** Taking the ticket succeeds, and its release is deferred. *)
Lemma settles_acquire {A} (other : M unit) (k : M A) :
  keeps (URLPath r) sh0 true k ->
  settles (URLPath r) sh0
    (acquired ← acquireLock (URLPath r);
     (if (acquired : bool) then deferRelease (URLPath r) else other);;
     k).
Proof.
  intros Hk s (Hreg & Hds & Hcache & Htr). exists true.
  rewrite bind_run, acquireLock_free by (by rewrite Hreg).
  rewrite bind_run. cbn [deferRelease shared rw defers trace].
  apply Hk. split; [by cbn; rewrite Hreg|]. split; [by cbn; rewrite Hds|].
  split; [done|]. cbn. apply Forall_app. split; [done | by constructor].
Qed.

Lemma settles_revalidate env config content contentLength cachedHeaders
  lastModified useIfModifiedSince :
  settles (URLPath r) sh0
    (revalidate env r config content contentLength cachedHeaders lastModified
       useIfModifiedSince).
Proof.
  unfold revalidate. destruct (_ && _)%bool; [|apply settles_keeps, keeps_ret].
  cbv zeta. destruct (newRequestOk _ _); [|apply settles_keeps; repeat keeps_step].
  apply settles_bind; [repeat keeps_step|]. intros [resp|];
    [|apply settles_keeps; repeat keeps_step].
  destruct (_ =? 304)%Z; [apply settles_keeps; repeat keeps_step|].
  destruct (_ =? 200)%Z; [|apply settles_keeps; repeat keeps_step].
  apply settles_bind; [repeat keeps_step|]. intros _.
  apply settles_acquire, keeps_fetchAndUpdateCache.
Qed.

Lemma runDefers_undisturbed held s :
  undisturbed (URLPath r) sh0 held s ->
  undisturbed (URLPath r) sh0 false
    {| shared := shared (runDefers (defers s) s); rw := rw (runDefers (defers s) s);
       defers := []; trace := trace (runDefers (defers s) s) |}.
Proof.
  intros (Hreg & Hds & Hcache & Htr). rewrite Hds. destruct held; [|done].
  cbn [runDefers]. rewrite releaseLock_held
    by (rewrite Hreg; apply elem_of_union; left; by apply elem_of_singleton).
  split; [|split; [done|split; [done|]]]; cbn.
  - rewrite Hreg. apply set_eq. intros q.
    rewrite elem_of_difference, elem_of_union, elem_of_singleton.
    split; [by intros [[->|] ?] | intros Hq; split; [by right | by intros ->]].
  - apply Forall_app. split; [done | by constructor].
Qed.

(** A function that starts undisturbed without the ticket returns so. *)
Lemma keeps_call {A} (body : M A) :
  settles (URLPath r) sh0 body -> keeps (URLPath r) sh0 false (call body).
Proof.
  intros Hb s (Hreg & Hds & Hcache & Htr). unfold call.
  destruct (Hb {| shared := shared s; rw := rw s; defers := []; trace := trace s |})
    as [held Hheld]; [done|].
  destruct (body _) as [a s1]. cbn [snd] in *. rewrite Hds.
  by apply (runDefers_undisturbed held).
Qed.

Lemma keeps_handleCacheHit env config content contentLength lastModified
  useIfModifiedSince :
  keeps (URLPath r) sh0 false
    (handleCacheHit env r config content contentLength lastModified
       useIfModifiedSince).
Proof.
  unfold handleCacheHit. apply keeps_call.
  apply settles_bind; [repeat keeps_step|]. intros [cachedHeaders|];
    [|apply settles_keeps; repeat keeps_step].
  apply settles_bind; [repeat keeps_step|]. intros [|];
    [apply settles_keeps, keeps_ret|].
  apply settles_then; [apply settles_revalidate|].
  intros [[content1 contentLength1] cachedHeaders1] held. repeat keeps_step.
Qed.

Lemma keeps_handleCacheMiss env config useIfModifiedSince :
  keeps (URLPath r) sh0 false (handleCacheMiss env r config useIfModifiedSince).
Proof.
  unfold handleCacheMiss. apply keeps_call. cbv zeta. unfold enterSingleFlight.
  intros s (Hreg & Hds & Hcache & Htr). exists true.
  rewrite !bind_run, acquireLock_free by (by rewrite Hreg).
  cbn [mret M_ret negb]. rewrite bind_run. cbn [deferRelease shared rw defers trace].
  assert (forall m : M unit, keeps (URLPath r) sh0 true m ->
    undisturbed (URLPath r) sh0 true (snd (m
      {| shared := setInProgress ({[URLPath r]} ∪ inProgress (shared s)) (shared s);
         rw := rw s; defers := URLPath r :: defers s;
         trace := (trace s ++ [EAcquire (URLPath r) true])%list |}))) as Hgo.
  { intros m Hm. apply Hm.
    split; [by cbn; rewrite Hreg|]. split; [by cbn; rewrite Hds|].
    split; [done|]. cbn. apply Forall_app. split; [done | by constructor]. }
  apply Hgo. repeat keeps_step.
Qed.

Lemma keeps_entry msg env config useIfModifiedSince :
  keeps (URLPath r) sh0 false
    (when (LogRequests config) (log msg);;
     valid ← validateRequest r;
     if negb valid then mret tt
     else fromCache env r config useIfModifiedSince).
Proof.
  repeat first [ apply keeps_handleCacheHit | apply keeps_handleCacheMiss
               | keeps_step ].
Qed.

Lemma initState_undisturbed : undisturbed (URLPath r) sh0 false (initState sh0 r).
Proof. repeat split; constructor. Qed.

End Idle.

(** X13: a request for a path that has no ticket when it arrives never
    waits on a ticket, and leaves the registry as it found it on every way
    out of the handler, a panic included. *)
Theorem idle_path_registry `{Platform} env config r sh :
  URLPath r ∉ inProgress sh ->
  (inProgress (shared (snd (HandleCacheableRequest env config r (initState sh r))))
     = inProgress sh
   /\ Forall notWait
        (trace (snd (HandleCacheableRequest env config r (initState sh r)))))
  /\ (inProgress (shared (snd (HandleRelease env config r (initState sh r))))
        = inProgress sh
      /\ Forall notWait
           (trace (snd (HandleRelease env config r (initState sh r))))).
Proof.
  intros Hidle. split.
  - destruct (keeps_entry r sh Hidle "Request" env config
      (shouldUseIfModifiedSince (URLPath r)) _ (initState_undisturbed r sh))
      as (Hreg & _ & _ & Htr).
    done.
  - destruct (keeps_entry r sh Hidle "Release request" env config true _
      (initState_undisturbed r sh)) as (Hreg & _ & _ & Htr).
    done.
Qed.

(** X14: a request for a path that has no ticket when it arrives changes
    the two caches under its own path only: every other path keeps its
    blob and its headers, at both entry points. *)
Theorem other_paths_untouched `{Platform} env config r sh :
  URLPath r ∉ inProgress sh ->
  sameElsewhere (URLPath r) sh
    (shared (snd (HandleCacheableRequest env config r (initState sh r))))
  /\ sameElsewhere (URLPath r) sh
       (shared (snd (HandleRelease env config r (initState sh r)))).
Proof.
  intros Hidle. split.
  - destruct (keeps_entry r sh Hidle "Request" env config
      (shouldUseIfModifiedSince (URLPath r)) _ (initState_undisturbed r sh))
      as (_ & _ & Hcache & _).
    done.
  - destruct (keeps_entry r sh Hidle "Release request" env config true _
      (initState_undisturbed r sh)) as (_ & _ & Hcache & _).
    done.
Qed.

(** ** A miss that gets the ticket *)

Lemma release_after_acquire (path : string) (sh : Shared) :
  path ∉ inProgress sh ->
  setInProgress
    (inProgress (setInProgress ({[path]} ∪ inProgress sh) sh) ∖ {[path]})
    (setInProgress ({[path]} ∪ inProgress sh) sh) = sh.
Proof.
  intros Hfree. destruct sh as [bl hs ip]. unfold setInProgress. cbn in *.
  f_equal. apply set_eq. intros q.
  rewrite elem_of_difference, elem_of_union, elem_of_singleton.
  split; [by intros [[->|] ?] | intros Hq; split; [by right | by intros ->]].
Qed.

Lemma message_bytes (msg : string) :
  exists b rest, list_byte_of_string (msg ++ newline) = b :: rest.
Proof. destruct msg; cbn; by eexists _, _. Qed.

Lemma waitOn_run env path s :
  waitOn env path s =
  (Val tt, {| shared := othersRun env (shared s); rw := rw s; defers := defers s;
              trace := (trace s ++ [EWait path])%list |}).
Proof. reflexivity. Qed.

Lemma Cache_Get_run path s :
  Cache_Get path s =
  (Val (blobs (shared s) !! path),
   {| shared := shared s; rw := rw s; defers := defers s;
      trace := (trace s ++ [ECacheGet path])%list |}).
Proof. reflexivity. Qed.

(** [http.Error] on a response that has not started: the status, the three
    headers it sets, and the message unless the status or the method
    forbids a body. *)
Lemma httpError_fresh msg code s :
  rw_wroteHeader (rw s) = false ->
  httpError msg code s =
  (Val tt,
   {| shared := shared s;
      rw := let h := Hdr.Set_ "X-Content-Type-Options" "nosniff"
                       (Hdr.Set_ "Content-Type" "text/plain; charset=utf-8"
                          (Hdr.Del "Content-Length" (rw_header (rw s)))) in
            {| rw_header := h; rw_wroteHeader := true; rw_status := code;
               rw_sent := h;
               rw_body := if (bodyAllowedForStatus code && negb (rw_isHead (rw s)))%bool
                          then (rw_body (rw s) ++ list_byte_of_string (msg ++ newline))%list
                          else rw_body (rw s);
               rw_isHead := rw_isHead (rw s) |};
      defers := defers s;
      trace := (trace s ++ [EWriteHeader code;
                            EWrite (list_byte_of_string (msg ++ newline))])%list |}).
Proof.
  destruct s as [sh [hd wr st se bo ih] ds tr]. cbn [rw rw_wroteHeader]. intros ->.
  unfold httpError. mrun.
  destruct (message_bytes msg) as (b & rest & ->). mrun.
  destruct (bodyAllowedForStatus code), ih; mrun; by rewrite <- app_assoc.
Qed.

Section Miss.
Context `{Platform}.

Ltac miss_start s Hfree :=
  destruct s as [sh w ds tr]; cbn [shared rw] in *; subst w;
  unfold handleCacheMiss, call, enterSingleFlight, newResponseWriter;
  rewrite !bind_run, acquireLock_free by done;
  pose proof (release_after_acquire _ _ Hfree) as Hback.

Ltac miss_release :=
  rewrite releaseLock_held
    by (cbn [shared inProgress]; apply elem_of_union; left; by apply elem_of_singleton).

Lemma handleCacheMiss_unreachable env config r useIfModifiedSince s :
  rw s = newResponseWriter r ->
  URLPath r ∉ inProgress (shared s) ->
  newRequestOk (Method r) (OriginServer config ++ URLPath r) = true ->
  originDo env (missRequest r (OriginServer config ++ URLPath r) useIfModifiedSince)
    = None ->
  let out := handleCacheMiss env r config useIfModifiedSince s in
  responseStatus out = Some 504%Z
  /\ responseBody out =
       (if String.eqb (Method r) "HEAD" then []
        else list_byte_of_string ("Gateway Timeout" ++ newline))
  /\ shared (snd out) = shared s.
Proof.
  intros Hrw Hfree Hreq Horigin out. subst out. miss_start s Hfree.
  destruct (LogRequests config); mrun.
  all: rewrite Hreq; mrun; rewrite Horigin; unfold httpError; mrun.
  all: destruct (message_bytes "Gateway Timeout") as (b & msg & ->); mrun.
  all: change (bodyAllowedForStatus 504) with true; mrun.
  all: destruct (String.eqb (Method r) "HEAD"); mrun.
  all: miss_release; unfold responseStatus, responseBody; mrun.
  all: by (split; [done|split; [done| exact Hback]]).
Qed.

Lemma handleCacheMiss_read_error env config r useIfModifiedSince resp s :
  rw s = newResponseWriter r ->
  URLPath r ∉ inProgress (shared s) ->
  newRequestOk (Method r) (OriginServer config ++ URLPath r) = true ->
  originDo env (missRequest r (OriginServer config ++ URLPath r) useIfModifiedSince)
    = Some resp ->
  StatusCode resp = 200%Z ->
  bodyErr resp = true ->
  let out := handleCacheMiss env r config useIfModifiedSince s in
  responseStatus out = Some 500%Z
  /\ responseBody out =
       (if String.eqb (Method r) "HEAD" then []
        else list_byte_of_string ("Internal Server Error" ++ newline))
  /\ shared (snd out) = shared s.
Proof.
  intros Hrw Hfree Hreq Horigin Hst Herr out. subst out. miss_start s Hfree.
  destruct (LogRequests config); mrun.
  all: rewrite Hreq; mrun; rewrite Horigin, Hst, Herr.
  all: change (200 =? 304)%Z with false; change (200 =? 200)%Z with true.
  all: unfold httpError; mrun.
  all: destruct (message_bytes "Internal Server Error") as (b & msg & ->); mrun.
  all: change (bodyAllowedForStatus 500) with true; mrun.
  all: destruct (String.eqb (Method r) "HEAD"); mrun.
  all: miss_release; unfold responseStatus, responseBody; mrun.
  all: by (split; [done|split; [done| exact Hback]]).
Qed.

Lemma handleCacheMiss_forwards env config r useIfModifiedSince resp s :
  rw s = newResponseWriter r ->
  URLPath r ∉ inProgress (shared s) ->
  newRequestOk (Method r) (OriginServer config ++ URLPath r) = true ->
  originDo env (missRequest r (OriginServer config ++ URLPath r) useIfModifiedSince)
    = Some resp ->
  StatusCode resp <> 200%Z ->
  let out := handleCacheMiss env r config useIfModifiedSince s in
  responseStatus out = Some (StatusCode resp)
  /\ responseHeader out = ∅
  /\ responseBody out =
       (if (String.eqb (Method r) "HEAD" || negb (bodyAllowedForStatus (StatusCode resp)))%bool
        then [] else Body resp)
  /\ shared (snd out) = shared s.
Proof.
  intros Hrw Hfree Hreq Horigin Hst out. subst out. miss_start s Hfree.
  apply Z.eqb_neq in Hst.
  destruct (LogRequests config); mrun.
  all: rewrite Hreq; mrun; rewrite Horigin, Hst.
  all: destruct (StatusCode resp =? 304)%Z eqn:H304;
    [apply Z.eqb_eq in H304; rewrite H304|]; mrun.
  all: try (destruct (Body resp) as [|b body]; mrun).
  all: try (destruct (bodyAllowedForStatus (StatusCode resp)); mrun).
  all: try (change (bodyAllowedForStatus 304) with false).
  all: destruct (String.eqb (Method r) "HEAD"); mrun.
  all: miss_release; unfold responseStatus, responseHeader, responseBody; mrun.
  all: by (split; [done|split; [done|split; [done| exact Hback]]]).
Qed.

Lemma handleCacheMiss_serves env config r useIfModifiedSince resp s :
  rw s = newResponseWriter r ->
  URLPath r ∉ inProgress (shared s) ->
  newRequestOk (Method r) (OriginServer config ++ URLPath r) = true ->
  originDo env (missRequest r (OriginServer config ++ URLPath r) useIfModifiedSince)
    = Some resp ->
  StatusCode resp = 200%Z ->
  bodyErr resp = false ->
  let out := handleCacheMiss env r config useIfModifiedSince s in
  responseStatus out = Some 200%Z
  /\ responseBody out = (if String.eqb (Method r) "HEAD" then [] else Body resp)
  /\ blobs (shared (snd out)) =
       (if cachePutFails env then blobs (shared s)
        else <[URLPath r := {| blob_body := Body resp;
                               blob_length := Z.of_nat (length (Body resp));
                               blob_lastModified := lastModifiedOf env (RespHeader resp) |}]>
               (blobs (shared s)))
  /\ headerStore (shared (snd out)) =
       (if headerPutFails env then headerStore (shared s)
        else <[URLPath r := RespHeader resp]> (headerStore (shared s)))
  /\ inProgress (shared (snd out)) = inProgress (shared s).
Proof.
  intros Hrw Hfree Hreq Horigin Hst Herr out. subst out.
  pose proof (difference_union_cancel _ _ Hfree) as Hreg.
  miss_start s Hfree. destruct sh as [bl hs ip]. cbn [inProgress] in *.
  destruct (LogRequests config); mrun.
  all: rewrite Hreq; mrun; rewrite Horigin, Hst, Herr.
  all: change (200 =? 304)%Z with false; change (200 =? 200)%Z with true; mrun.
  all: destruct (cachePutFails env), (headerPutFails env); mrun.
  all: match goal with |- context [String.eqb ?x ""] =>
         destruct (String.eqb x "") end; mrun.
  all: try (destruct (nonEmpty (getContentType (URLPath r))); mrun).
  all: destruct (String.eqb (Method r) "HEAD"); mrun.
  all: try (destruct (Body resp) as [|b body] eqn:Hb; mrun).
  all: try (change (bodyAllowedForStatus 200) with true; mrun).
  all: miss_release; unfold responseStatus, responseBody; mrun.
  all: by rewrite Hreg.
Qed.

Lemma handleCacheMiss_busy env config r useIfModifiedSince s :
  rw s = newResponseWriter r ->
  URLPath r ∈ inProgress (shared s) ->
  blobs (othersRun env (shared s)) !! URLPath r = None ->
  URLPath r ∈ inProgress (othersRun env (shared s)) ->
  let out := handleCacheMiss env r config useIfModifiedSince s in
  responseStatus out = Some 503%Z
  /\ responseBody out =
       (if String.eqb (Method r) "HEAD" then []
        else list_byte_of_string ("Server busy, please try again" ++ newline))
  /\ shared (snd out) = othersRun env (shared s)
  /\ originRequests (trace (snd out)) = originRequests (trace s).
Proof.
  intros Hrw Hbusy Hmiss Hbusy' out. subst out.
  destruct s as [sh w ds tr]; cbn [shared rw trace] in *; subst w.
  unfold handleCacheMiss, call, enterSingleFlight, newResponseWriter.
  rewrite !bind_run, acquireLock_busy by done.
  cbn [shared rw defers trace].
  rewrite !bind_run, waitOn_run. cbv beta iota.
  rewrite bind_run, Cache_Get_run. cbn [shared rw defers trace].
  rewrite Hmiss, !bind_run, acquireLock_busy by done. cbv beta iota.
  rewrite bind_run, httpError_fresh by done.
  cbn [mret M_ret negb runDefers shared rw defers trace snd fst].
  unfold responseStatus, responseBody.
  cbn [shared rw defers trace snd fst rw_wroteHeader rw_status rw_body rw_isHead].
  change (bodyAllowedForStatus 503) with true.
  split; [done|]. split; [by destruct (String.eqb (Method r) "HEAD")|].
  split; [done|].
  unfold originRequests. rewrite <- !app_assoc, omap_app. cbn. by rewrite app_nil_r.
Qed.

(** A hit that is not checked with anyone: the cached body is served as it
    is, with the cached length, and nothing else is touched. *)
Lemma handleCacheHit_local env config r body len lastModified s :
  rw s = newResponseWriter r ->
  exists s',
    handleCacheHit env r config (Some body) len lastModified false s = (Val true, s')
    /\ responseStatus (Val true, s') = Some 200%Z
    /\ responseBody (Val true, s') =
         (if String.eqb (Method r) "HEAD" then [] else body)
    /\ responseHeader (Val true, s') !! "Content-Length" = Some [pretty len]
    /\ shared s' = shared s
    /\ defers s' = defers s
    /\ originRequests (trace s') = originRequests (trace s).
Proof.
  destruct s as [[bl hs ip] w ds tr]. cbn [rw shared defers trace]. intros ->.
  unfold handleCacheHit, call, clientConditional, revalidate, setBasicHeaders,
    writeContent, newResponseWriter, responseStatus, responseBody, responseHeader.
  cbn [andb]. rewrite bind_run, GetHeaders_run. cbn [shared headerStore rw defers trace].
  destruct (hs !! URLPath r) as [h|]; [|destruct (HasSuffix (URLPath r) "/")]; mrun.
  all: destruct (String.eqb (Method r) "HEAD"); mrun.
  all: try (destruct body as [|b body]; mrun).
  all: try (change (bodyAllowedForStatus 200) with true; mrun).
  all: eexists; split; [reflexivity|]; mrun.
  all: unfold Hdr.Set_; rewrite lookup_insert_eq.
  all: repeat (split; [done|]).
  all: unfold originRequests; rewrite <- ?app_assoc, omap_app; cbn; by rewrite app_nil_r.
Qed.

Lemma entry_valid msg env config r useIfModifiedSince sh :
  Method r = "GET" \/ Method r = "HEAD" ->
  RawQuery r = "" ->
  exists t,
    originRequests t = []
    /\ (when (LogRequests config) (log msg);;
        valid ← validateRequest r;
        if negb valid then mret tt
        else fromCache env r config useIfModifiedSince) (initState sh r)
       = match blobs sh !! URLPath r with
         | Some b =>
             (handled ← handleCacheHit env r config (Some (blob_body b))
                          (blob_length b) (blob_lastModified b) useIfModifiedSince;
              if (handled : bool) then mret tt
              else handleCacheMiss env r config useIfModifiedSince)
               {| shared := sh; rw := newResponseWriter r; defers := []; trace := t |}
         | None =>
             handleCacheMiss env r config useIfModifiedSince
               {| shared := sh; rw := newResponseWriter r; defers := []; trace := t |}
         end.
Proof.
  intros Hm Hq. unfold validateRequest, fromCache, initState. rewrite Hq.
  assert ((negb (String.eqb (Method r) "GET") && negb (String.eqb (Method r) "HEAD"))%bool
          = false) as ->.
  { by destruct Hm as [-> | ->]. }
  change (nonEmpty "") with false. cbv iota.
  destruct (LogRequests config); mrun.
  all: destruct sh as [bl hs ip]; mrun.
  all: destruct (bl !! URLPath r) as [b|]; eexists; (split; [|reflexivity]); done.
Qed.

Lemma entry_miss msg env config r useIfModifiedSince sh :
  Method r = "GET" \/ Method r = "HEAD" ->
  RawQuery r = "" ->
  blobs sh !! URLPath r = None ->
  exists t,
    originRequests t = []
    /\ (when (LogRequests config) (log msg);;
        valid ← validateRequest r;
        if negb valid then mret tt
        else fromCache env r config useIfModifiedSince) (initState sh r)
       = handleCacheMiss env r config useIfModifiedSince
           {| shared := sh; rw := newResponseWriter r; defers := []; trace := t |}.
Proof.
  intros Hm Hq Hmiss.
  destruct (entry_valid msg env config r useIfModifiedSince sh Hm Hq) as (t & Ht & Hrun).
  rewrite Hmiss in Hrun. by exists t.
Qed.

(** X15: a valid request for a path that is not cached and has no ticket,
    when the origin cannot be reached: the answer is 504 with the text
    [Gateway Timeout] (no body for HEAD), at both entry points, and the
    caches and the registry are left exactly as they were. *)
Theorem miss_gateway_timeout env config r sh :
  Method r = "GET" \/ Method r = "HEAD" ->
  RawQuery r = "" ->
  blobs sh !! URLPath r = None ->
  URLPath r ∉ inProgress sh ->
  newRequestOk (Method r) (OriginServer config ++ URLPath r) = true ->
  (forall req, originDo env req = None) ->
  forall handler, handler = HandleCacheableRequest \/ handler = HandleRelease ->
  let out := handler env config r (initState sh r) in
  responseStatus out = Some 504%Z
  /\ responseBody out =
       (if String.eqb (Method r) "HEAD" then []
        else list_byte_of_string ("Gateway Timeout" ++ newline))
  /\ shared (snd out) = sh.
Proof.
  intros Hm Hq Hmiss Hfree Hreq Horigin handler [-> | ->] out; subst out.
  - unfold HandleCacheableRequest. cbv zeta.
    destruct (entry_miss "Request" env config r
                (shouldUseIfModifiedSince (URLPath r)) sh Hm Hq Hmiss) as (t & _ & ->).
    by apply handleCacheMiss_unreachable.
  - unfold HandleRelease.
    destruct (entry_miss "Release request" env config r true sh Hm Hq Hmiss)
      as (t & _ & ->).
    by apply handleCacheMiss_unreachable.
Qed.

Ltac at_entry Hm Hq Hmiss :=
  match goal with
  | |- context [HandleCacheableRequest ?env ?config ?r (initState ?sh ?r)] =>
      unfold HandleCacheableRequest; cbv zeta;
      destruct (entry_miss "Request" env config r
                  (shouldUseIfModifiedSince (URLPath r)) sh Hm Hq Hmiss) as (t & Ht & ->)
  | |- context [HandleRelease ?env ?config ?r (initState ?sh ?r)] =>
      unfold HandleRelease;
      destruct (entry_miss "Release request" env config r true sh Hm Hq Hmiss)
        as (t & Ht & ->)
  end.

(** X16: a miss whose origin answers 200 but whose body cannot be read to
    the end is answered 500 with the text [Internal Server Error]; nothing
    is stored and the ticket is given back. *)
Theorem miss_read_error env config r sh resp :
  Method r = "GET" \/ Method r = "HEAD" ->
  RawQuery r = "" ->
  blobs sh !! URLPath r = None ->
  URLPath r ∉ inProgress sh ->
  newRequestOk (Method r) (OriginServer config ++ URLPath r) = true ->
  (forall req, originDo env req = Some resp) ->
  StatusCode resp = 200%Z ->
  bodyErr resp = true ->
  forall handler, handler = HandleCacheableRequest \/ handler = HandleRelease ->
  let out := handler env config r (initState sh r) in
  responseStatus out = Some 500%Z
  /\ responseBody out =
       (if String.eqb (Method r) "HEAD" then []
        else list_byte_of_string ("Internal Server Error" ++ newline))
  /\ shared (snd out) = sh.
Proof.
  intros Hm Hq Hmiss Hfree Hreq Horigin Hst Herr handler [-> | ->] out; subst out.
  all: at_entry Hm Hq Hmiss; by eapply handleCacheMiss_read_error.
Qed.

(** X17: a miss whose origin answers a final status other than 200 is
    answered that status, with none of the origin's headers and with the
    origin's body where the status and the method allow one (none for 204,
    304 and HEAD); nothing is stored and the ticket is given back. *)
Theorem miss_forwards_status env config r sh resp :
  Method r = "GET" \/ Method r = "HEAD" ->
  RawQuery r = "" ->
  blobs sh !! URLPath r = None ->
  URLPath r ∉ inProgress sh ->
  newRequestOk (Method r) (OriginServer config ++ URLPath r) = true ->
  (forall req, originDo env req = Some resp) ->
  (200 < StatusCode resp)%Z ->
  forall handler, handler = HandleCacheableRequest \/ handler = HandleRelease ->
  let out := handler env config r (initState sh r) in
  responseStatus out = Some (StatusCode resp)
  /\ responseHeader out = ∅
  /\ responseBody out =
       (if (String.eqb (Method r) "HEAD"
            || negb (bodyAllowedForStatus (StatusCode resp)))%bool
        then [] else Body resp)
  /\ shared (snd out) = sh.
Proof.
  intros Hm Hq Hmiss Hfree Hreq Horigin Hst handler [-> | ->] out; subst out.
  all: at_entry Hm Hq Hmiss; eapply handleCacheMiss_forwards; try done; lia.
Qed.

(** X18: a miss whose origin answers 200 with a readable body is answered
    200 with that body (none for HEAD) whether or not the two stores
    accept it: a store that fails keeps what it had, a store that works
    holds the body with its byte count and the origin's headers under the
    path; the registry is as before. *)
Theorem miss_served_and_stored env config r sh resp :
  Method r = "GET" \/ Method r = "HEAD" ->
  RawQuery r = "" ->
  blobs sh !! URLPath r = None ->
  URLPath r ∉ inProgress sh ->
  newRequestOk (Method r) (OriginServer config ++ URLPath r) = true ->
  (forall req, originDo env req = Some resp) ->
  StatusCode resp = 200%Z ->
  bodyErr resp = false ->
  forall handler, handler = HandleCacheableRequest \/ handler = HandleRelease ->
  let out := handler env config r (initState sh r) in
  responseStatus out = Some 200%Z
  /\ responseBody out = (if String.eqb (Method r) "HEAD" then [] else Body resp)
  /\ blobs (shared (snd out)) =
       (if cachePutFails env then blobs sh
        else <[URLPath r := {| blob_body := Body resp;
                               blob_length := Z.of_nat (length (Body resp));
                               blob_lastModified := lastModifiedOf env (RespHeader resp) |}]>
               (blobs sh))
  /\ headerStore (shared (snd out)) =
       (if headerPutFails env then headerStore sh
        else <[URLPath r := RespHeader resp]> (headerStore sh))
  /\ inProgress (shared (snd out)) = inProgress sh.
Proof.
  intros Hm Hq Hmiss Hfree Hreq Horigin Hst Herr handler [-> | ->] out; subst out.
  all: at_entry Hm Hq Hmiss.
  all: by apply (handleCacheMiss_serves env config r _ resp
                   {| shared := sh; rw := newResponseWriter r; defers := []; trace := t |}).
Qed.

(** X19: a request for a path that is not cached while another request
    holds its ticket waits; if, when it is woken, the path is still not
    cached and a ticket is registered again, it is answered 503 with the
    text [Server busy, please try again] and sends nothing to the origin;
    the shared state is the one the other requests left. *)
Theorem busy_path_503 env config r sh :
  Method r = "GET" \/ Method r = "HEAD" ->
  RawQuery r = "" ->
  blobs sh !! URLPath r = None ->
  URLPath r ∈ inProgress sh ->
  blobs (othersRun env sh) !! URLPath r = None ->
  URLPath r ∈ inProgress (othersRun env sh) ->
  forall handler, handler = HandleCacheableRequest \/ handler = HandleRelease ->
  let out := handler env config r (initState sh r) in
  responseStatus out = Some 503%Z
  /\ responseBody out =
       (if String.eqb (Method r) "HEAD" then []
        else list_byte_of_string ("Server busy, please try again" ++ newline))
  /\ shared (snd out) = othersRun env sh
  /\ originRequests (trace (snd out)) = [].
Proof.
  intros Hm Hq Hmiss Hbusy Hmiss' Hbusy' handler [-> | ->] out; subst out.
  all: at_entry Hm Hq Hmiss.
  all: rewrite <- Ht.
  all: by apply (handleCacheMiss_busy env config r _
                   {| shared := sh; rw := newResponseWriter r; defers := []; trace := t |}).
Qed.

Lemma entry_hit_local env config r sh b :
  Method r = "GET" \/ Method r = "HEAD" ->
  RawQuery r = "" ->
  shouldUseIfModifiedSince (URLPath r) = false ->
  blobs sh !! URLPath r = Some b ->
  let out := HandleCacheableRequest env config r (initState sh r) in
  responseStatus out = Some 200%Z
  /\ responseBody out = (if String.eqb (Method r) "HEAD" then [] else blob_body b)
  /\ responseHeader out !! "Content-Length" = Some [pretty (blob_length b)]
  /\ shared (snd out) = sh
  /\ originRequests (trace (snd out)) = [].
Proof.
  intros Hm Hq Hpool Hhit out. subst out.
  unfold HandleCacheableRequest. cbv zeta. rewrite Hpool.
  destruct (entry_valid "Request" env config r false sh Hm Hq) as (t & Ht & ->).
  rewrite Hhit, bind_run.
  destruct (handleCacheHit_local env config r (blob_body b) (blob_length b)
              (blob_lastModified b)
              {| shared := sh; rw := newResponseWriter r; defers := []; trace := t |}
              eq_refl) as (s' & -> & Hst & Hbody & Hlen & Hsh & _ & Htr).
  cbv iota beta. rewrite ret_run. rewrite <- Ht. done.
Qed.

(** X20: a valid request for a cached path for which the classifier gives
    [useIfModifiedSince = false] (pool objects) is served from the cache
    alone: status 200, the cached body (none for HEAD), [Content-Length]
    set to the cached length; nothing is sent to the origin and the shared
    state is left as it was. *)
Theorem pool_hit_served_locally env config r sh b :
  Method r = "GET" \/ Method r = "HEAD" ->
  RawQuery r = "" ->
  shouldUseIfModifiedSince (URLPath r) = false ->
  blobs sh !! URLPath r = Some b ->
  let out := HandleCacheableRequest env config r (initState sh r) in
  responseStatus out = Some 200%Z
  /\ responseBody out = (if String.eqb (Method r) "HEAD" then [] else blob_body b)
  /\ responseHeader out !! "Content-Length" = Some [pretty (blob_length b)]
  /\ shared (snd out) = sh
  /\ originRequests (trace (snd out)) = [].
Proof. apply entry_hit_local. Qed.

(** X23: a miss followed by a hit.  After a request for a pool path that
    misses and is answered 200 by the origin (the blob store accepting the
    body), a GET for the same path is answered 200 from the cache, with
    the bytes the origin sent to the first request and their count as
    [Content-Length], and without a request to the origin.  The first
    request may be a HEAD: the GET then receives what the origin sent in
    answer to the HEAD. *)
Theorem miss_then_hit env env' config config' r r' sh resp :
  Method r = "GET" \/ Method r = "HEAD" ->
  RawQuery r = "" ->
  shouldUseIfModifiedSince (URLPath r) = false ->
  blobs sh !! URLPath r = None ->
  URLPath r ∉ inProgress sh ->
  newRequestOk (Method r) (OriginServer config ++ URLPath r) = true ->
  (forall req, originDo env req = Some resp) ->
  StatusCode resp = 200%Z ->
  bodyErr resp = false ->
  cachePutFails env = false ->
  Method r' = "GET" ->
  RawQuery r' = "" ->
  URLPath r' = URLPath r ->
  let after := shared (snd (HandleCacheableRequest env config r (initState sh r))) in
  let out := HandleCacheableRequest env' config' r' (initState after r') in
  responseStatus out = Some 200%Z
  /\ responseBody out = Body resp
  /\ responseHeader out !! "Content-Length"
     = Some [pretty (Z.of_nat (length (Body resp)))]
  /\ originRequests (trace (snd out)) = [].
Proof.
  intros Hm Hq Hpool Hmiss Hfree Hreq Horigin Hst Herr Hput Hm' Hq' Hpath after out.
  assert (blobs after !! URLPath r' =
          Some {| blob_body := Body resp;
                  blob_length := Z.of_nat (length (Body resp));
                  blob_lastModified := lastModifiedOf env (RespHeader resp) |})
    as Hstored.
  { subst after. at_entry Hm Hq Hmiss.
    destruct (handleCacheMiss_serves env config r
                (shouldUseIfModifiedSince (URLPath r)) resp
                {| shared := sh; rw := newResponseWriter r; defers := []; trace := t |}
                eq_refl Hfree Hreq (Horigin _) Hst Herr) as (_ & _ & -> & _).
    rewrite Hput, Hpath. cbn [shared blobs]. by rewrite lookup_insert_eq. }
  rewrite <- Hpath in Hpool.
  destruct (entry_hit_local env' config' r' after _ (or_introl Hm') Hq' Hpool Hstored)
    as (Hstatus & Hbody & Hlen & _ & Hnone).
  rewrite Hm' in Hbody. by subst out.
Qed.

End Miss.

(** ** A hit that is checked with the origin *)

Section Refresh.
Context `{Platform}.

Lemma replayed_headers (h : gmap string (list string)) (len : string) (k : string) :
  (<["Content-Length" := [len]]> (Hdr.AddAll h ∅) : gmap string (list string)) !! k =
  if decide (k = "Content-Length") then Some [len]
  else match h !! k with
       | Some (v :: vs) => Some (v :: vs)
       | _ => None
       end.
Proof.
  destruct (decide (k = "Content-Length")) as [->|Hne].
  - by rewrite lookup_insert_eq.
  - rewrite lookup_insert_ne by done. rewrite AddAll_lookup, lookup_empty.
    by destruct (h !! k) as [[|? ?]|].
Qed.

(** X21: when the origin answers the revalidation HEAD of a cache hit with
    any status other than 200 (304, but a 404 or a 500 as well), the
    cached entry is served: status 200, the cached body (none for HEAD),
    the cached headers with [Content-Length] set to the cached length; the
    shared state is left as it was and the HEAD is the only request sent
    to the origin. *)
Theorem revalidation_keeps_entry env config r body contentLength lastModified s h
  resp :
  headerStore (shared s) !! URLPath r = Some h ->
  rw s = newResponseWriter r ->
  shouldValidateWithOrigin (URLPath r) = true ->
  newRequestOk "HEAD" (OriginServer config ++ URLPath r) = true ->
  (forall T, Hdr.Get (ReqHeader r) "If-Modified-Since" <> "" ->
     parseHTTPTime (Hdr.Get (ReqHeader r) "If-Modified-Since") = Some T ->
     (T < authoritativeLastModified (Some h) lastModified)%Z) ->
  originDo env (revalidationRequest (OriginServer config ++ URLPath r) h lastModified)
    = Some resp ->
  StatusCode resp <> 200%Z ->
  let out := handleCacheHit env r config (Some body) contentLength lastModified
               true s in
  fst out = Val true
  /\ responseStatus out = Some 200%Z
  /\ responseBody out = (if String.eqb (Method r) "HEAD" then [] else body)
  /\ (forall k, responseHeader out !! k =
        if decide (k = "Content-Length") then Some [pretty contentLength]
        else match h !! k with
             | Some (v :: vs) => Some (v :: vs)
             | _ => None
             end)
  /\ shared (snd out) = shared s
  /\ originRequests (trace (snd out)) =
       (originRequests (trace s) ++
        [revalidationRequest (OriginServer config ++ URLPath r) h lastModified])%list.
Proof.
  intros Hh Hrw Hval Hreq Hnot Horigin Hst out. subst out.
  apply Z.eqb_neq in Hst.
  destruct s as [[bl hs ip] w ds tr]. cbn [shared rw headerStore trace] in *.
  subst w. unfold handleCacheHit, newResponseWriter. mrun. rewrite Hh. mrun.
  rewrite (clientConditional_skip _ _ _ _ _ Hnot). mrun.
  unfold revalidate. rewrite Hval, Hreq. cbn [andb]. mrun.
  rewrite Horigin, Hst. mrun.
  pose proof (replayed_headers h (pretty contentLength)) as Hhdr.
  unfold writeContent, responseStatus, responseBody, responseHeader.
  destruct (StatusCode resp =? 304)%Z, (LogRequests config); mrun.
  all: destruct (String.eqb (Method r) "HEAD") eqn:Hm; mrun.
  all: try (destruct body as [|b body]; mrun).
  all: try (change (bodyAllowedForStatus 200) with true; mrun).
  all: split_and!; try done; origin_trace.
Qed.

(** X22: when the origin answers the revalidation HEAD of a cache hit with
    200, the path has no ticket, and the GET that follows is answered with
    a readable body whose length agrees with the declared one (or none is
    declared), the answer of the GET replaces the entry and is served:
    status 200, the new body (none for HEAD), the new headers with
    [Content-Length] set to the number of bytes received.  The status of
    the GET answer is not looked at.  The stores that accept the write
    hold the new body and headers under the path; the registry is as
    before; the HEAD and the GET are the only requests sent. *)
Theorem refetch_replaces_entry env config r body contentLength lastModified s h
  headResp resp :
  headerStore (shared s) !! URLPath r = Some h ->
  rw s = newResponseWriter r ->
  shouldValidateWithOrigin (URLPath r) = true ->
  newRequestOk "HEAD" (OriginServer config ++ URLPath r) = true ->
  newRequestOk "GET" (OriginServer config ++ URLPath r) = true ->
  (forall T, Hdr.Get (ReqHeader r) "If-Modified-Since" <> "" ->
     parseHTTPTime (Hdr.Get (ReqHeader r) "If-Modified-Since") = Some T ->
     (T < authoritativeLastModified (Some h) lastModified)%Z) ->
  originDo env (revalidationRequest (OriginServer config ++ URLPath r) h lastModified)
    = Some headResp ->
  StatusCode headResp = 200%Z ->
  URLPath r ∉ inProgress (shared s) ->
  originDo env {| oMethod := "GET"; oURL := OriginServer config ++ URLPath r;
                  oHeader := Hdr.Set_ "User-Agent" userAgent ∅ |} = Some resp ->
  bodyErr resp = false ->
  (ContentLength resp <= 0 \/ ContentLength resp = Z.of_nat (length (Body resp)))%Z ->
  let out := handleCacheHit env r config (Some body) contentLength lastModified
               true s in
  fst out = Val true
  /\ responseStatus out = Some 200%Z
  /\ responseBody out = (if String.eqb (Method r) "HEAD" then [] else Body resp)
  /\ (forall k, responseHeader out !! k =
        if decide (k = "Content-Length")
        then Some [pretty (Z.of_nat (length (Body resp)))]
        else match RespHeader resp !! k with
             | Some (v :: vs) => Some (v :: vs)
             | _ => None
             end)
  /\ blobs (shared (snd out)) =
       (if cachePutFails env then blobs (shared s)
        else <[URLPath r := {| blob_body := Body resp;
                               blob_length := Z.of_nat (length (Body resp));
                               blob_lastModified := lastModifiedOf env (RespHeader resp) |}]>
               (blobs (shared s)))
  /\ headerStore (shared (snd out)) =
       (if headerPutFails env then headerStore (shared s)
        else <[URLPath r := RespHeader resp]> (headerStore (shared s)))
  /\ inProgress (shared (snd out)) = inProgress (shared s)
  /\ originRequests (trace (snd out)) =
       (originRequests (trace s) ++
        [revalidationRequest (OriginServer config ++ URLPath r) h lastModified;
         {| oMethod := "GET"; oURL := OriginServer config ++ URLPath r;
            oHeader := Hdr.Set_ "User-Agent" userAgent ∅ |}])%list.
Proof.
  intros Hh Hrw Hval Hhead Hget Hnot Horigin Hst Hfree Horigin2 Herr Hlen out.
  subst out.
  assert ((0 <? ContentLength resp)%Z
          && negb (ContentLength resp =? Z.of_nat (length (Body resp)))%Z = false)%bool
    as Hsize.
  { destruct Hlen as [Hle | Heq].
    - apply andb_false_iff. left. by apply Z.ltb_ge.
    - apply andb_false_iff. right. apply negb_false_iff. by apply Z.eqb_eq. }
  pose proof (difference_union_cancel _ _ Hfree) as Hreg.
  destruct s as [[bl hs ip] w ds tr]. cbn [shared rw headerStore inProgress trace] in *.
  subst w. unfold handleCacheHit, call, newResponseWriter.
  rewrite bind_run, GetHeaders_run. cbn [shared rw defers trace headerStore].
  rewrite Hh. cbv beta iota.
  rewrite bind_run, (clientConditional_skip _ _ _ _ _ Hnot). cbv beta iota.
  unfold revalidate. rewrite Hval, Hhead. cbn [andb]. cbv zeta.
  rewrite !bind_run, clientDo_run, Horigin, Hst. cbv beta iota.
  change (200 =? 304)%Z with false. change (200 =? 200)%Z with true. cbv beta iota.
  cbn [shared rw defers trace]. mrun. rewrite acquireLock_free by done. mrun.
  unfold fetchAndUpdateCache. rewrite Hget. mrun. rewrite Horigin2, Herr, Hsize. mrun.
  pose proof (replayed_headers (RespHeader resp)
                (pretty (Z.of_nat (length (Body resp))))) as Hhdr.
  unfold writeContent, responseStatus, responseBody, responseHeader.
  destruct (cachePutFails env), (headerPutFails env); mrun.
  all: destruct (String.eqb (Method r) "HEAD") eqn:Hm; mrun.
  all: try (destruct (Body resp) as [|b1 body1] eqn:Hb; mrun).
  all: try (change (bodyAllowedForStatus 200) with true; mrun).
  all: rewrite releaseLock_held
    by (cbn [shared inProgress]; apply elem_of_union; left; by apply elem_of_singleton).
  all: mrun.
  all: rewrite Hreg.
  all: split_and!; try done; origin_trace.
Qed.

Lemma handleCacheHit_local_headers env config r body len lastModified s k :
  rw s = newResponseWriter r ->
  responseHeader
    (handleCacheHit env r config (Some body) len lastModified false s) !! k =
  if decide (k = "Content-Length") then Some [pretty len]
  else match headerStore (shared s) !! URLPath r with
       | Some h =>
           match h !! k with
           | Some (v :: vs) => Some (v :: vs)
           | _ => None
           end
       | None =>
           if decide (k = "Last-Modified") then Some [formatHTTPTime lastModified]
           else if decide (k = "Content-Type")
           then Some [if HasSuffix (URLPath r) "/" then "text/html"
                      else getContentType (URLPath r)]
           else None
       end.
Proof.
  destruct s as [[bl hs ip] w ds tr]. cbn [rw shared headerStore]. intros ->.
  unfold handleCacheHit, call, clientConditional, revalidate, setBasicHeaders,
    writeContent, newResponseWriter, responseHeader.
  cbn [andb]. rewrite bind_run, GetHeaders_run. cbn [shared headerStore rw defers trace].
  destruct (hs !! URLPath r) as [h|]; [|destruct (HasSuffix (URLPath r) "/")]; mrun.
  all: destruct (String.eqb (Method r) "HEAD"); mrun.
  all: try (destruct body as [|b body]; mrun).
  all: try (change (bodyAllowedForStatus 200) with true; mrun).
  all: try apply replayed_headers.
  all: unfold Hdr.Set_; change (nonEmpty "") with false; cbv iota.
  all: destruct (decide (k = "Content-Length")) as [->|?];
    [by rewrite lookup_insert_eq | rewrite lookup_insert_ne by done].
  all: destruct (decide (k = "Last-Modified")) as [->|?];
    [by rewrite lookup_insert_eq | rewrite lookup_insert_ne by done].
  all: destruct (decide (k = "Content-Type")) as [->|?];
    [by rewrite lookup_insert_eq | by rewrite lookup_insert_ne, lookup_empty by done].
Qed.

(** X24: the headers of a hit served from the cache alone (a valid request
    for a pool path).  [Content-Length] is the cached length.  With cached
    headers, every other header is the cached one, headers without a value
    being dropped.  Without cached headers there are two more headers:
    [Last-Modified], the formatted timestamp of the blob, and
    [Content-Type], [text/html] for a path ending in a slash and the type
    of the extension otherwise. *)
Theorem pool_hit_headers env config r sh b k :
  Method r = "GET" \/ Method r = "HEAD" ->
  RawQuery r = "" ->
  shouldUseIfModifiedSince (URLPath r) = false ->
  blobs sh !! URLPath r = Some b ->
  responseHeader (HandleCacheableRequest env config r (initState sh r)) !! k =
  if decide (k = "Content-Length") then Some [pretty (blob_length b)]
  else match headerStore sh !! URLPath r with
       | Some h =>
           match h !! k with
           | Some (v :: vs) => Some (v :: vs)
           | _ => None
           end
       | None =>
           if decide (k = "Last-Modified")
           then Some [formatHTTPTime (blob_lastModified b)]
           else if decide (k = "Content-Type")
           then Some [if HasSuffix (URLPath r) "/" then "text/html"
                      else getContentType (URLPath r)]
           else None
       end.
Proof.
  intros Hm Hq Hpool Hhit.
  unfold HandleCacheableRequest. cbv zeta. rewrite Hpool.
  destruct (entry_valid "Request" env config r false sh Hm Hq) as (t & Ht & ->).
  rewrite Hhit, bind_run.
  pose proof (handleCacheHit_local_headers env config r (blob_body b) (blob_length b)
                (blob_lastModified b)
                {| shared := sh; rw := newResponseWriter r; defers := []; trace := t |}
                k eq_refl) as Hhdr.
  destruct (handleCacheHit_local env config r (blob_body b) (blob_length b)
              (blob_lastModified b)
              {| shared := sh; rw := newResponseWriter r; defers := []; trace := t |}
              eq_refl) as (s' & Hrun & _).
  rewrite Hrun in *. cbv iota beta. rewrite ret_run. exact Hhdr.
Qed.

End Refresh.

(** ** Declared and received length disagree: what the two paths do *)

Section Mismatch.
Context `{Platform}.

(** A miss whose body was read: what [handleCacheMiss] calls, in order of
    the source; the size is not looked at. *)
Lemma handleCacheMiss_calls env config r useIfModifiedSince resp s :
  rw s = newResponseWriter r ->
  URLPath r ∉ inProgress (shared s) ->
  newRequestOk (Method r) (OriginServer config ++ URLPath r) = true ->
  originDo env (missRequest r (OriginServer config ++ URLPath r) useIfModifiedSince)
    = Some resp ->
  StatusCode resp = 200%Z ->
  bodyErr resp = false ->
  exists t,
    trace (snd (handleCacheMiss env r config useIfModifiedSince s))
      = (trace s ++ t)%list
    /\ In (ECachePut (URLPath r) (Body resp) (Z.of_nat (length (Body resp)))
             (lastModifiedOf env (RespHeader resp))) t
    /\ (Method r <> "HEAD" -> In (EWrite (Body resp)) t)
    /\ ~ In (ELog "File size validation failed") t.
Proof.
  intros Hrw Hfree Hreq Horigin Hst Herr.
  destruct s as [sh w ds tr]; cbn [shared rw trace] in *; subst w.
  unfold handleCacheMiss, call, enterSingleFlight, newResponseWriter.
  rewrite !bind_run, acquireLock_free by done.
  destruct sh as [bl hs ip]. cbn [inProgress] in *.
  destruct (LogRequests config); mrun.
  all: rewrite Hreq; mrun; rewrite Horigin, Hst, Herr.
  all: change (200 =? 304)%Z with false; change (200 =? 200)%Z with true; mrun.
  all: destruct (cachePutFails env), (headerPutFails env); mrun.
  all: match goal with |- context [String.eqb ?x ""] =>
         destruct (String.eqb x "") end; mrun.
  all: try (destruct (nonEmpty (getContentType (URLPath r))); mrun).
  all: destruct (String.eqb_spec (Method r) "HEAD") as [Hm|Hm]; mrun.
  all: try (destruct (Body resp) as [|b body] eqn:Hb; mrun).
  all: try (change (bodyAllowedForStatus 200) with true; mrun).
  all: rewrite releaseLock_held
    by (cbn [shared inProgress]; apply elem_of_union; left; by apply elem_of_singleton).
  all: mrun; rewrite <- ?app_assoc; cbn [app].
  all: eexists; split; [reflexivity|].
  all: split; [cbn; tauto|].
  all: split; [first [done | intros _; cbn; tauto]|].
  all: intros Hin; cbn in Hin; repeat destruct Hin as [Hin|Hin]; done.
Qed.

(** A refetch whose body was read under a positive declared length that
    differs from the byte count: the bytes are served, nothing is
    stored. *)
Lemma handleCacheHit_mismatch env config r content contentLength lastModified s h
  headResp resp :
  headerStore (shared s) !! URLPath r = Some h ->
  rw s = newResponseWriter r ->
  shouldValidateWithOrigin (URLPath r) = true ->
  newRequestOk "HEAD" (OriginServer config ++ URLPath r) = true ->
  newRequestOk "GET" (OriginServer config ++ URLPath r) = true ->
  (forall T, Hdr.Get (ReqHeader r) "If-Modified-Since" <> "" ->
     parseHTTPTime (Hdr.Get (ReqHeader r) "If-Modified-Since") = Some T ->
     (T < authoritativeLastModified (Some h) lastModified)%Z) ->
  originDo env (revalidationRequest (OriginServer config ++ URLPath r) h lastModified)
    = Some headResp ->
  StatusCode headResp = 200%Z ->
  URLPath r ∉ inProgress (shared s) ->
  originDo env {| oMethod := "GET"; oURL := OriginServer config ++ URLPath r;
                  oHeader := Hdr.Set_ "User-Agent" userAgent ∅ |} = Some resp ->
  bodyErr resp = false ->
  (0 < ContentLength resp)%Z ->
  ContentLength resp <> Z.of_nat (length (Body resp)) ->
  let out := handleCacheHit env r config content contentLength lastModified
               true s in
  responseStatus out = Some 200%Z
  /\ responseBody out = (if String.eqb (Method r) "HEAD" then [] else Body resp)
  /\ responseHeader out !! "Content-Length"
     = Some [pretty (Z.of_nat (length (Body resp)))]
  /\ shared (snd out) = shared s
  /\ In (ELog "File size validation failed") (trace (snd out)).
Proof.
  intros Hh Hrw Hval Hhead Hget Hnot Horigin Hst Hfree Horigin2 Herr Hpos Hne out.
  subst out.
  assert ((0 <? ContentLength resp)%Z
          && negb (ContentLength resp =? Z.of_nat (length (Body resp)))%Z = true)%bool
    as Hsize.
  { apply andb_true_iff. split; [by apply Z.ltb_lt|].
    apply negb_true_iff. by apply Z.eqb_neq. }
  pose proof (difference_union_cancel _ _ Hfree) as Hreg.
  destruct s as [[bl hs ip] w ds tr]. cbn [shared rw headerStore inProgress trace] in *.
  subst w. unfold handleCacheHit, call, newResponseWriter.
  rewrite bind_run, GetHeaders_run. cbn [shared rw defers trace headerStore].
  rewrite Hh. cbv beta iota.
  rewrite bind_run, (clientConditional_skip _ _ _ _ _ Hnot). cbv beta iota.
  unfold revalidate. rewrite Hval, Hhead. cbn [andb]. cbv zeta.
  rewrite !bind_run, clientDo_run, Horigin, Hst. cbv beta iota.
  change (200 =? 304)%Z with false. change (200 =? 200)%Z with true. cbv beta iota.
  cbn [shared rw defers trace]. mrun. rewrite acquireLock_free by done. mrun.
  unfold fetchAndUpdateCache. rewrite Hget. mrun. rewrite Horigin2, Herr, Hsize. mrun.
  unfold writeContent, responseStatus, responseBody, responseHeader.
  destruct (String.eqb (Method r) "HEAD") eqn:Hm; mrun.
  all: try (destruct (Body resp) as [|b1 body1] eqn:Hb; mrun).
  all: try (change (bodyAllowedForStatus 200) with true; mrun).
  all: rewrite releaseLock_held
    by (cbn [shared inProgress]; apply elem_of_union; left; by apply elem_of_singleton).
  all: mrun.
  all: rewrite Hreg.
  all: unfold Hdr.Set_; rewrite lookup_insert_eq.
  all: split_and!; try done; in_trace.
Qed.

(** C5, as the code has it.  An origin answers 200 and the length it
    declares differs from the number of bytes received; the response has
    not been started and the path has no ticket.

    On the miss path, the request to the origin being built and answered
    so: when reading the body fails (which is how [net/http] reports a
    body shorter than declared) the answer is 500 and the shared state is
    left as it was; when the body is read without error, nothing is
    compared or logged: the answer is 200, [Cache.Put] is called with the
    received bytes and their count, the blob store holding them unless it
    refuses the write, and the bytes are passed to [w.Write] unless the
    method is HEAD.

    On the hit path ([useIfModifiedSince] set, headers cached, path
    accepted by [shouldValidateWithOrigin], HEAD and GET built, no 304 on
    the client's own [If-Modified-Since], HEAD answered 200), when the
    body of the GET is read without error and the declared length is
    positive: the mismatch is logged, the answer is 200 with the received
    bytes (none for HEAD) and their count as [Content-Length], and the
    shared state is left as it was: nothing is stored. *)
Theorem size_mismatch_outcomes env config r resp s :
  StatusCode resp = 200%Z ->
  ContentLength resp <> Z.of_nat (length (Body resp)) ->
  rw s = newResponseWriter r ->
  URLPath r ∉ inProgress (shared s) ->
  (forall useIfModifiedSince,
     newRequestOk (Method r) (OriginServer config ++ URLPath r) = true ->
     originDo env (missRequest r (OriginServer config ++ URLPath r) useIfModifiedSince)
       = Some resp ->
     let out := handleCacheMiss env r config useIfModifiedSince s in
     if bodyErr resp
     then responseStatus out = Some 500%Z /\ shared (snd out) = shared s
     else
       responseStatus out = Some 200%Z
       /\ blobs (shared (snd out)) =
            (if cachePutFails env then blobs (shared s)
             else <[URLPath r :=
                      {| blob_body := Body resp;
                         blob_length := Z.of_nat (length (Body resp));
                         blob_lastModified := lastModifiedOf env (RespHeader resp) |}]>
                    (blobs (shared s)))
       /\ exists t,
            trace (snd out) = (trace s ++ t)%list
            /\ In (ECachePut (URLPath r) (Body resp) (Z.of_nat (length (Body resp)))
                     (lastModifiedOf env (RespHeader resp))) t
            /\ (Method r <> "HEAD" -> In (EWrite (Body resp)) t)
            /\ ~ In (ELog "File size validation failed") t)
  /\
  (forall h content contentLength lastModified headResp,
     headerStore (shared s) !! URLPath r = Some h ->
     shouldValidateWithOrigin (URLPath r) = true ->
     newRequestOk "HEAD" (OriginServer config ++ URLPath r) = true ->
     newRequestOk "GET" (OriginServer config ++ URLPath r) = true ->
     (forall T, Hdr.Get (ReqHeader r) "If-Modified-Since" <> "" ->
        parseHTTPTime (Hdr.Get (ReqHeader r) "If-Modified-Since") = Some T ->
        (T < authoritativeLastModified (Some h) lastModified)%Z) ->
     originDo env (revalidationRequest (OriginServer config ++ URLPath r) h
                     lastModified) = Some headResp ->
     StatusCode headResp = 200%Z ->
     originDo env {| oMethod := "GET"; oURL := OriginServer config ++ URLPath r;
                     oHeader := Hdr.Set_ "User-Agent" userAgent ∅ |} = Some resp ->
     bodyErr resp = false ->
     (0 < ContentLength resp)%Z ->
     let out := handleCacheHit env r config content contentLength lastModified
                  true s in
     responseStatus out = Some 200%Z
     /\ responseBody out = (if String.eqb (Method r) "HEAD" then [] else Body resp)
     /\ responseHeader out !! "Content-Length"
        = Some [pretty (Z.of_nat (length (Body resp)))]
     /\ shared (snd out) = shared s
     /\ In (ELog "File size validation failed") (trace (snd out))).
Proof.
  intros Hst Hne Hrw Hfree. split.
  - intros useIfModifiedSince Hreq Horigin out. subst out.
    destruct (bodyErr resp) eqn:Herr.
    + destruct (handleCacheMiss_read_error env config r useIfModifiedSince resp s
                  Hrw Hfree Hreq Horigin Hst Herr) as (Hstatus & _ & Hshared).
      by split.
    + destruct (handleCacheMiss_serves env config r useIfModifiedSince resp s
                  Hrw Hfree Hreq Horigin Hst Herr) as (Hstatus & _ & Hblobs & _).
      split; [done|]. split; [done|].
      by apply handleCacheMiss_calls.
  - intros h content contentLength lastModified headResp Hh Hval Hhead Hget Hnot
      Horigin Hst' Horigin2 Herr Hpos.
    by eapply handleCacheHit_mismatch.
Qed.

End Mismatch.

(** C5, counterexample: nothing is cached and the origin declares 1000 bytes
    and sends 950.  The read of the body fails; the client is answered 500
    with the text of the error, not the 950 bytes; nothing is stored and
    [Cache.Put] is never called. *)
Lemma size_mismatch_aborts :
  ContentLength truncatedResponse <> Z.of_nat (length (Body truncatedResponse))
  /\ responseStatus
       (@HandleRelease twoDates truncatedOrigin config (get inRelease)
          (initState emptyCache (get inRelease))) = Some 500%Z
  /\ responseBody
       (@HandleRelease twoDates truncatedOrigin config (get inRelease)
          (initState emptyCache (get inRelease)))
     = list_byte_of_string ("Internal Server Error" ++ newline)
  /\ shared (snd (@HandleRelease twoDates truncatedOrigin config (get inRelease)
                    (initState emptyCache (get inRelease)))) = emptyCache
  /\ Forall (fun e => match e with ECachePut _ _ _ _ => False | _ => True end)
       (trace (snd (@HandleRelease twoDates truncatedOrigin config (get inRelease)
                      (initState emptyCache (get inRelease))))).
Proof.
  vm_compute. split_and!; try reflexivity; [discriminate|].
  repeat constructor.
Qed.

(** C5, witness: the truncated answer on the miss path; the answer read
    without error (1000 declared, 950 read) on the hit path. *)
Lemma size_mismatch_outcomes_witness :
  responseStatus
    (@handleCacheMiss twoDates truncatedOrigin (get inRelease) config true
       (initState emptyCache (get inRelease))) = Some 500%Z
  /\ responseBody
       (@handleCacheHit twoDates shortOrigin (get inRelease) config (Some oldBody) 15
          jan1_t true (initState (cachedEntry inRelease) (get inRelease)))
     = newBody.
Proof.
  split.
  - destruct (@size_mismatch_outcomes twoDates truncatedOrigin config (get inRelease)
                truncatedResponse (initState emptyCache (get inRelease)))
      as [Hmiss _].
    + reflexivity.
    + vm_compute. discriminate.
    + reflexivity.
    + apply not_elem_of_empty.
    + destruct (Hmiss true) as [Hstatus _]; [reflexivity | reflexivity |].
      exact Hstatus.
  - destruct (@size_mismatch_outcomes twoDates shortOrigin config (get inRelease)
                shortResponse (initState (cachedEntry inRelease) (get inRelease)))
      as [_ Hhit].
    + reflexivity.
    + vm_compute. discriminate.
    + reflexivity.
    + apply not_elem_of_empty.
    + edestruct (Hhit {[ "Last-Modified" := [jan1] ]} (Some oldBody) 15%Z jan1_t)
        as (_ & Hbody & _).
      * vm_compute. reflexivity.
      * reflexivity.
      * reflexivity.
      * reflexivity.
      * intros T Hne. exfalso. apply Hne. vm_compute. reflexivity.
      * vm_compute. reflexivity.
      * reflexivity.
      * vm_compute. reflexivity.
      * reflexivity.
      * reflexivity.
      * exact Hbody.
Defined.

(** ** The further properties on concrete requests *)

Import Fixtures Scenarios.

(** X12, witness: a GET for a pool object that is not cached. *)
Lemma pool_requests_unconditional_witness :
  Forall unconditional
    (trace (snd (@HandleCacheableRequest twoDates serving config
                   (getSince poolRelease jan1)
                   (initState emptyCache (getSince poolRelease jan1))))).
Proof. apply (@pool_requests_unconditional twoDates). reflexivity. Defined.

(** X13, witness: a GET for [InRelease] with empty caches and registry. *)
Lemma idle_path_registry_witness :
  inProgress (shared (snd (@HandleCacheableRequest twoDates serving config
                             (get inRelease) (initState emptyCache (get inRelease)))))
  = ∅.
Proof.
  destruct (@idle_path_registry twoDates serving config (get inRelease) emptyCache)
    as [[Hreg _] _].
  - apply not_elem_of_empty.
  - exact Hreg.
Defined.

(** X14, witness: the entry of the pool object stays while [InRelease] is
    fetched and stored. *)
Lemma other_paths_untouched_witness :
  blobs (shared (snd (@HandleRelease twoDates serving config (get inRelease)
                        (initState (cachedEntry poolRelease) (get inRelease)))))
    !! poolRelease
  = Some oldBlob.
Proof.
  destruct (@other_paths_untouched twoDates serving config (get inRelease)
              (cachedEntry poolRelease)) as [_ Hrelease].
  - apply not_elem_of_empty.
  - destruct (Hrelease poolRelease) as [Hblob _]; [discriminate|].
    rewrite Hblob. reflexivity.
Defined.

(** X15, witness: a GET for [InRelease], nothing cached, origin down. *)
Lemma miss_gateway_timeout_witness :
  let out := @HandleRelease twoDates unreachable config (get inRelease)
               (initState emptyCache (get inRelease)) in
  responseStatus out = Some 504%Z
  /\ responseBody out = list_byte_of_string ("Gateway Timeout" ++ newline)
  /\ shared (snd out) = emptyCache.
Proof.
  apply (@miss_gateway_timeout twoDates unreachable config (get inRelease) emptyCache).
  - left. reflexivity.
  - reflexivity.
  - reflexivity.
  - apply not_elem_of_empty.
  - reflexivity.
  - reflexivity.
  - right. reflexivity.
Defined.

(** X16, witness: the connection breaks after 950 bytes. *)
Lemma miss_read_error_witness :
  let out := @HandleCacheableRequest twoDates brokenBody config (get poolRelease)
               (initState emptyCache (get poolRelease)) in
  responseStatus out = Some 500%Z
  /\ responseBody out = list_byte_of_string ("Internal Server Error" ++ newline)
  /\ shared (snd out) = emptyCache.
Proof.
  apply (@miss_read_error twoDates brokenBody config (get poolRelease) emptyCache
           brokenResponse).
  - left. reflexivity.
  - reflexivity.
  - reflexivity.
  - apply not_elem_of_empty.
  - reflexivity.
  - reflexivity.
  - reflexivity.
  - reflexivity.
  - left. reflexivity.
Defined.

(** X17, witness: the origin answers 404 with a page. *)
Lemma miss_forwards_status_witness :
  let out := @HandleCacheableRequest twoDates notFound config (get poolRelease)
               (initState emptyCache (get poolRelease)) in
  responseStatus out = Some 404%Z
  /\ responseHeader out = ∅
  /\ responseBody out = list_byte_of_string "Not Found"
  /\ shared (snd out) = emptyCache.
Proof.
  apply (@miss_forwards_status twoDates notFound config (get poolRelease) emptyCache
           notFoundPage).
  - left. reflexivity.
  - reflexivity.
  - reflexivity.
  - apply not_elem_of_empty.
  - reflexivity.
  - reflexivity.
  - reflexivity.
  - left. reflexivity.
Defined.

(** X18, witness: both stores refuse the write and the package is served. *)
Lemma miss_served_and_stored_witness :
  let out := @HandleCacheableRequest twoDates servingDiskFull config (get poolRelease)
               (initState emptyCache (get poolRelease)) in
  responseStatus out = Some 200%Z
  /\ responseBody out = newBody
  /\ blobs (shared (snd out)) = ∅
  /\ headerStore (shared (snd out)) = ∅
  /\ inProgress (shared (snd out)) = ∅.
Proof.
  apply (@miss_served_and_stored twoDates servingDiskFull config (get poolRelease)
           emptyCache package).
  - left. reflexivity.
  - reflexivity.
  - reflexivity.
  - apply not_elem_of_empty.
  - reflexivity.
  - reflexivity.
  - reflexivity.
  - reflexivity.
  - left. reflexivity.
Defined.

(** X19, witness: the ticket of [InRelease] is held before and after the
    wait. *)
Lemma busy_path_503_witness :
  let out := @HandleRelease twoDates serving config (get inRelease)
               (initState (fetching inRelease) (get inRelease)) in
  responseStatus out = Some 503%Z
  /\ responseBody out
     = list_byte_of_string ("Server busy, please try again" ++ newline)
  /\ shared (snd out) = fetching inRelease
  /\ originRequests (trace (snd out)) = [].
Proof.
  apply (@busy_path_503 twoDates serving config (get inRelease) (fetching inRelease)).
  - left. reflexivity.
  - reflexivity.
  - reflexivity.
  - vm_compute. reflexivity.
  - reflexivity.
  - vm_compute. reflexivity.
  - right. reflexivity.
Defined.

(** X20, witness: a HEAD for a cached pool object. *)
Lemma pool_hit_served_locally_witness :
  let out := @HandleCacheableRequest twoDates unreachable config (headOf poolRelease)
               (initState (cachedEntry poolRelease) (headOf poolRelease)) in
  responseStatus out = Some 200%Z
  /\ responseBody out = []
  /\ responseHeader out !! "Content-Length" = Some [pretty 15%Z]
  /\ shared (snd out) = cachedEntry poolRelease
  /\ originRequests (trace (snd out)) = [].
Proof.
  apply (@pool_hit_served_locally twoDates unreachable config (headOf poolRelease)
           (cachedEntry poolRelease) oldBlob).
  - right. reflexivity.
  - reflexivity.
  - reflexivity.
  - reflexivity.
Defined.

(** X21, witness: the origin answers 304 to the revalidation of
    [InRelease]. *)
Lemma revalidation_keeps_entry_witness :
  responseStatus
    (@handleCacheHit twoDates unchangedOrigin (get inRelease) config (Some oldBody) 15
       jan1_t true (initState (cachedEntry inRelease) (get inRelease)))
  = Some 200%Z
  /\ responseBody
       (@handleCacheHit twoDates unchangedOrigin (get inRelease) config (Some oldBody)
          15 jan1_t true (initState (cachedEntry inRelease) (get inRelease)))
     = oldBody.
Proof.
  destruct (@revalidation_keeps_entry twoDates unchangedOrigin config (get inRelease)
              oldBody 15%Z jan1_t (initState (cachedEntry inRelease) (get inRelease))
              {[ "Last-Modified" := [jan1] ]} notModified)
    as (_ & Hstatus & Hbody & _).
  - vm_compute. reflexivity.
  - reflexivity.
  - vm_compute. reflexivity.
  - reflexivity.
  - intros T Hne. exfalso. apply Hne. vm_compute. reflexivity.
  - reflexivity.
  - discriminate.
  - split; [exact Hstatus | exact Hbody].
Defined.

(** X22, witness: the origin answers 200 to the HEAD and to the GET. *)
Lemma refetch_replaces_entry_witness :
  responseBody
    (@handleCacheHit twoDates serving (get inRelease) config (Some oldBody) 15
       jan1_t true (initState (cachedEntry inRelease) (get inRelease)))
  = newBody
  /\ blobs (shared (snd
       (@handleCacheHit twoDates serving (get inRelease) config (Some oldBody) 15
          jan1_t true (initState (cachedEntry inRelease) (get inRelease)))))
     = <[inRelease := {| blob_body := newBody; blob_length := 950;
                         blob_lastModified := jan1_t |}]>
         (blobs (cachedEntry inRelease)).
Proof.
  destruct (@refetch_replaces_entry twoDates serving config (get inRelease)
              oldBody 15%Z jan1_t (initState (cachedEntry inRelease) (get inRelease))
              {[ "Last-Modified" := [jan1] ]} package package)
    as (_ & _ & Hbody & _ & Hblobs & _).
  - vm_compute. reflexivity.
  - reflexivity.
  - vm_compute. reflexivity.
  - reflexivity.
  - reflexivity.
  - intros T Hne. exfalso. apply Hne. vm_compute. reflexivity.
  - reflexivity.
  - reflexivity.
  - apply not_elem_of_empty.
  - reflexivity.
  - reflexivity.
  - right. vm_compute. reflexivity.
  - split; [exact Hbody | exact Hblobs].
Defined.

(** X23, witness: a HEAD for a pool object that is not cached, then a GET
    for it while the origin is down. *)
Lemma miss_then_hit_witness :
  let after :=
    shared (snd (@HandleCacheableRequest twoDates serving config (headOf poolRelease)
                   (initState emptyCache (headOf poolRelease)))) in
  let out := @HandleCacheableRequest twoDates unreachable config (get poolRelease)
               (initState after (get poolRelease)) in
  responseStatus out = Some 200%Z
  /\ responseBody out = newBody
  /\ responseHeader out !! "Content-Length"
     = Some [pretty (Z.of_nat (length newBody))]
  /\ originRequests (trace (snd out)) = [].
Proof.
  apply (@miss_then_hit twoDates serving unreachable config config (headOf poolRelease)
           (get poolRelease) emptyCache package).
  - right. reflexivity.
  - reflexivity.
  - reflexivity.
  - reflexivity.
  - apply not_elem_of_empty.
  - reflexivity.
  - reflexivity.
  - reflexivity.
  - reflexivity.
  - reflexivity.
  - reflexivity.
  - reflexivity.
  - reflexivity.
Defined.

(** X24, witness: the blob of a pool object is cached, its headers are
    not. *)
Lemma pool_hit_headers_witness :
  responseHeader
    (@HandleCacheableRequest twoDates unreachable config (get poolRelease)
       (initState (blobOnly poolRelease) (get poolRelease))) !! "Content-Type"
  = Some ["application/vnd.debian.binary-package"].
Proof.
  rewrite (@pool_hit_headers twoDates unreachable config (get poolRelease)
             (blobOnly poolRelease) oldBlob "Content-Type").
  - reflexivity.
  - left. reflexivity.
  - reflexivity.
  - reflexivity.
  - reflexivity.
Defined.

(** X25, witness: a GET for a cached pool object. *)
Lemma hit_content_length_witness :
  responseHeader
    (@handleCacheHit twoDates unreachable (get poolRelease) config (Some oldBody)
       (Z.of_nat (length oldBody)) jan1_t false
       (initState (cachedEntry poolRelease) (get poolRelease))) !! "Content-Length"
  = Some [pretty (Z.of_nat (length (responseBody
       (@handleCacheHit twoDates unreachable (get poolRelease) config (Some oldBody)
          (Z.of_nat (length oldBody)) jan1_t false
          (initState (cachedEntry poolRelease) (get poolRelease))))))].
Proof.
  apply (@hit_content_length twoDates).
  - reflexivity.
  - reflexivity.
  - vm_compute. reflexivity.
Defined.

Lemma threeMisses_initial path : SingleFlight.initial (threeMisses path).
Proof. split; [reflexivity|]. repeat constructor; by right. Qed.

(** X7, witness: one leader fetching, two followers blocked. *)
Lemma leaders_fetch_alone_witness :
  exists s',
    SingleFlight.run leaderFetching (threeMisses Fixtures.inRelease) = Some s'
    /\ (SingleFlight.countThreads
          (SingleFlight.leaderGetInFlight Fixtures.inRelease)
          (SingleFlight.threads s') <= 1)%nat.
Proof.
  eexists. split; [vm_compute; reflexivity|].
  eapply (leaders_fetch_alone leaderFetching (threeMisses Fixtures.inRelease)).
  - apply threeMisses_initial.
  - vm_compute. reflexivity.
Defined.

(** X8, witness: the leader has answered and both followers were served
    from the cache. *)
Lemma no_ticket_left_behind_witness :
  exists s',
    SingleFlight.run leaderThenFollowers (threeMisses Fixtures.inRelease) = Some s'
    /\ SingleFlight.tickets (SingleFlight.reg s') = ∅.
Proof.
  eexists. split; [vm_compute; reflexivity|].
  eapply (no_ticket_left_behind leaderThenFollowers (threeMisses Fixtures.inRelease)).
  - apply threeMisses_initial.
  - vm_compute. reflexivity.
  - repeat constructor.
Defined.

(** X9, witness: the second request is blocked on the leader's ticket, and
    the leader can move. *)
Lemma never_deadlocked_witness :
  exists s' j s'',
    SingleFlight.run leaderFetching (threeMisses Fixtures.inRelease) = Some s'
    /\ SingleFlight.step j false s' = Some s''.
Proof.
  eexists.
  destruct (never_deadlocked leaderFetching (threeMisses Fixtures.inRelease) _ 1%nat
              {| SingleFlight.t_path := Fixtures.inRelease;
                 SingleFlight.t_method := "GET";
                 SingleFlight.t_pc := SingleFlight.MissWaiting 0 |}
              (threeMisses_initial _) eq_refl eq_refl) as (j & s'' & Hstep).
  - discriminate.
  - exists j, s''. split; [reflexivity | exact Hstep].
Defined.
